(** * A shallow embedding of the 6502 emulator core

    The development follows the TypeScript sources file by file:
    [types.ts] (processor state and flags), [constants.ts] (memory layout),
    [services/cpuAddressingModes.ts] (module [AM]),
    [services/cpuInstructions.ts] (effect functions and the opcode table) and
    [services/use6502Emulator.ts] (reset, step and the disassembler).

    JavaScript numbers are modelled by [Z]; every number the emulator core
    handles is an integer.  A value that may be [undefined] or [NaN] (a read
    outside the typed array, or arithmetic on such a read) is an [option Z]
    whose [None] stands for both: the two behave alike under every operator
    the sources apply to them.  The bitwise operators of JavaScript work on
    32-bit two's-complement integers; they are [Z.land], [Z.lor], [Z.lxor],
    [Z.shiftl], [Z.shiftr] and [Z.lnot] here, which give the same results on
    the bytes and 16-bit addresses of the data model. *)

From stdpp Require Import base gmap strings list.
From Stdlib Require Import ZArith Lia Bool String Ascii.

Local Open Scope Z_scope.

(** ** constants.ts *)

Definition MEMORY_SIZE : Z := 0x10000.
Definition DEFAULT_PROGRAM_LOAD_ADDRESS : Z := 0x0200.
Definition RESET_VECTOR_ADDRESS : Z := 0xFFFC.
Definition STACK_BASE : Z := 0x0100.

(** ** types.ts *)

Module Flag.
Definition C : BinNums.Z := Z.shiftl 1 0.
Definition Z : BinNums.Z := BinInt.Z.shiftl 1 1.
Definition I : BinNums.Z := BinInt.Z.shiftl 1 2.
Definition D : BinNums.Z := BinInt.Z.shiftl 1 3.
Definition B : BinNums.Z := BinInt.Z.shiftl 1 4.
Definition U : BinNums.Z := BinInt.Z.shiftl 1 5.
Definition V : BinNums.Z := BinInt.Z.shiftl 1 6.
Definition N : BinNums.Z := BinInt.Z.shiftl 1 7.
End Flag.

(** The fields are JavaScript numbers that hold integers.  The registers
    are masked at every update.  [cycles] is only ever added to, in exact
    integers here: that is the counter of the source while it stays within
    [2 ^ 53] in magnitude, the range [cycles_exact] below names. *)
Record CPUState : Type := mkCPU {
  A : Z;
  X : Z;
  Y : Z;
  PC : Z;
  SP : Z;
  P : Z;
  cycles : Z;
  halted : bool
}.

Definition set_A (v : Z) (cpu : CPUState) : CPUState :=
  mkCPU v (X cpu) (Y cpu) (PC cpu) (SP cpu) (P cpu) (cycles cpu) (halted cpu).
Definition set_X (v : Z) (cpu : CPUState) : CPUState :=
  mkCPU (A cpu) v (Y cpu) (PC cpu) (SP cpu) (P cpu) (cycles cpu) (halted cpu).
Definition set_Y (v : Z) (cpu : CPUState) : CPUState :=
  mkCPU (A cpu) (X cpu) v (PC cpu) (SP cpu) (P cpu) (cycles cpu) (halted cpu).
Definition set_PC (v : Z) (cpu : CPUState) : CPUState :=
  mkCPU (A cpu) (X cpu) (Y cpu) v (SP cpu) (P cpu) (cycles cpu) (halted cpu).
Definition set_SP (v : Z) (cpu : CPUState) : CPUState :=
  mkCPU (A cpu) (X cpu) (Y cpu) (PC cpu) v (P cpu) (cycles cpu) (halted cpu).
Definition set_P (v : Z) (cpu : CPUState) : CPUState :=
  mkCPU (A cpu) (X cpu) (Y cpu) (PC cpu) (SP cpu) v (cycles cpu) (halted cpu).
Definition set_cycles (v : Z) (cpu : CPUState) : CPUState :=
  mkCPU (A cpu) (X cpu) (Y cpu) (PC cpu) (SP cpu) (P cpu) v (halted cpu).
Definition set_halted (v : bool) (cpu : CPUState) : CPUState :=
  mkCPU (A cpu) (X cpu) (Y cpu) (PC cpu) (SP cpu) (P cpu) (cycles cpu) v.

(** ** JavaScript values and the typed array *)

(** [ToInt32] of [undefined] and of [NaN] is 0: the coercion every bitwise
    operator applies to its operands. *)
Definition js_int (v : option Z) : Z := default 0 v.

(** [a + b]: [NaN] as soon as one side is [undefined] or [NaN]. *)
Definition js_add (a b : option Z) : option Z :=
  match a, b with
  | Some x, Some y => Some (x + y)
  | _, _ => None
  end.

(** [a > b], false when [a] is [undefined] or [NaN]. *)
Definition js_gt (a : option Z) (b : Z) : bool :=
  match a with
  | Some x => b <? x
  | None => false
  end.

(** [a - b] *)
Definition js_sub (a b : option Z) : option Z :=
  match a, b with
  | Some x, Some y => Some (x - y)
  | _, _ => None
  end.

(** [a >= b], false when [b] is [undefined] or [NaN]. *)
Definition js_ge (a : Z) (b : option Z) : bool :=
  match b with
  | Some y => y <=? a
  | None => false
  end.

(** [a === 0]. *)
Definition js_is_zero (a : option Z) : bool :=
  match a with
  | Some x => x =? 0
  | None => false
  end.

(** Truthiness of a number: everything but 0 (and [NaN]). *)
Definition js_truthy (z : Z) : bool := negb (z =? 0).

(** The memory is a [Uint8Array] of [MEMORY_SIZE] cells, created zeroed.  It
    is kept as the finite map of the cells that were written; a cell that was
    never written reads 0. *)
Abbreviation Memory := (gmap Z Z).

Definition in_memory (address : Z) : Prop := 0 <= address < MEMORY_SIZE.

(** [memory[address]]: [undefined] outside the array. *)
Definition mem_read (memory : Memory) (address : Z) : option Z :=
  if decide (in_memory address) then Some (default 0 (memory !! address))
  else None.

(** [memory[address] = value]: the value is stored modulo 256; a write
    outside the array is dropped. *)
Definition mem_write (memory : Memory) (address value : Z) : Memory :=
  if decide (in_memory address) then <[address := value mod 256]> memory
  else memory.

(** [new Uint8Array(MEMORY_SIZE)] *)
Definition createMemory : Memory := ∅.

(** ** Outcomes

    Every field of [CPUState] and every resolved address is declared
    [number] and is an integer here.  A run that would store [undefined] in
    one of them ends in [NonNumeric]: it has left what the integer state can
    hold.  A run that evaluates a property access on [undefined] raises a
    [TypeError] and ends in [Throws]. *)

Inductive outcome (T : Type) : Type :=
| Ok (t : T)
| Throws
| NonNumeric.
Arguments Ok {T} t.
Arguments Throws {T}.
Arguments NonNumeric {T}.

#[global] Instance outcome_ret : MRet outcome := λ T t, Ok t.
#[global] Instance outcome_bind : MBind outcome := λ T U k r,
  match r with
  | Ok t => k t
  | Throws => Throws
  | NonNumeric => NonNumeric
  end.
#[global] Instance outcome_fmap : FMap outcome := λ T U f r,
  match r with
  | Ok t => Ok (f t)
  | Throws => Throws
  | NonNumeric => NonNumeric
  end.

(** A possibly-undefined value assigned to a [number] field. *)
Definition numeric (v : option Z) : outcome Z :=
  match v with
  | Some z => Ok z
  | None => NonNumeric
  end.

(** ** services/cpuAddressingModes.ts *)

Record AddrResult : Type := mkAddr {
  address : Z;
  pageCrossed : option bool
}.

Module AM.

(** Fetches a byte from memory at PC and increments PC. *)
Definition fetchByte (cpu : CPUState) (memory : Memory) : CPUState * option Z :=
  let byte := mem_read memory (PC cpu) in
  (set_PC (Z.land (PC cpu + 1) 0xFFFF) cpu, byte).

(** Fetches a little-endian word at PC and increments PC by 2. *)
Definition fetchWord (cpu : CPUState) (memory : Memory) : CPUState * Z :=
  let '(cpu, lowByte) := fetchByte cpu memory in
  let '(cpu, highByte) := fetchByte cpu memory in
  (cpu, Z.lor (Z.shiftl (js_int highByte) 8) (js_int lowByte)).

Definition IMM (cpu : CPUState) (memory : Memory) : outcome (CPUState * AddrResult) :=
  let address := PC cpu in
  Ok (set_PC (Z.land (PC cpu + 1) 0xFFFF) cpu, mkAddr address None).

Definition ZP (cpu : CPUState) (memory : Memory) : outcome (CPUState * AddrResult) :=
  let '(cpu, byte) := fetchByte cpu memory in
  address ← numeric byte;
  Ok (cpu, mkAddr address None).

Definition ZPX (cpu : CPUState) (memory : Memory) : outcome (CPUState * AddrResult) :=
  let '(cpu, byte) := fetchByte cpu memory in
  Ok (cpu, mkAddr (Z.land (js_int (js_add byte (Some (X cpu)))) 0xFF) None).

Definition ZPY (cpu : CPUState) (memory : Memory) : outcome (CPUState * AddrResult) :=
  let '(cpu, byte) := fetchByte cpu memory in
  Ok (cpu, mkAddr (Z.land (js_int (js_add byte (Some (Y cpu)))) 0xFF) None).

Definition ABS (cpu : CPUState) (memory : Memory) : outcome (CPUState * AddrResult) :=
  let '(cpu, word) := fetchWord cpu memory in
  Ok (cpu, mkAddr word None).

Definition ABSX (cpu : CPUState) (memory : Memory) : outcome (CPUState * AddrResult) :=
  let '(cpu, baseAddress) := fetchWord cpu memory in
  let effectiveAddress := Z.land (baseAddress + X cpu) 0xFFFF in
  let pageCrossed :=
    negb (Z.land baseAddress 0xFF00 =? Z.land effectiveAddress 0xFF00) in
  Ok (cpu, mkAddr effectiveAddress (Some pageCrossed)).

Definition ABSY (cpu : CPUState) (memory : Memory) : outcome (CPUState * AddrResult) :=
  let '(cpu, baseAddress) := fetchWord cpu memory in
  let effectiveAddress := Z.land (baseAddress + Y cpu) 0xFFFF in
  let pageCrossed :=
    negb (Z.land baseAddress 0xFF00 =? Z.land effectiveAddress 0xFF00) in
  Ok (cpu, mkAddr effectiveAddress (Some pageCrossed)).

(** 6502 bug: if the low byte of the indirect vector is $FF, the high byte
    is read from $xx00 instead of $xxFF+1. *)
Definition IND (cpu : CPUState) (memory : Memory) : outcome (CPUState * AddrResult) :=
  let '(cpu, pointer) := fetchWord cpu memory in
  let effectiveAddress :=
    if Z.land pointer 0x00FF =? 0x00FF then
      Z.lor (js_int (mem_read memory pointer))
            (Z.shiftl (js_int (mem_read memory (Z.land pointer 0xFF00))) 8)
    else
      Z.lor (js_int (mem_read memory pointer))
            (Z.shiftl (js_int (mem_read memory (pointer + 1))) 8) in
  Ok (cpu, mkAddr effectiveAddress None).

Definition IZX (cpu : CPUState) (memory : Memory) : outcome (CPUState * AddrResult) :=
  let '(cpu, byte) := fetchByte cpu memory in
  let zpAddress := Z.land (js_int (js_add byte (Some (X cpu)))) 0xFF in
  let lowByte := mem_read memory zpAddress in
  let highByte := mem_read memory (Z.land (zpAddress + 1) 0xFF) in
  Ok (cpu, mkAddr (Z.lor (Z.shiftl (js_int highByte) 8) (js_int lowByte)) None).

Definition IZY (cpu : CPUState) (memory : Memory) : outcome (CPUState * AddrResult) :=
  let '(cpu, byte) := fetchByte cpu memory in
  zpAddress ← numeric byte;
  let baseAddress :=
    Z.lor (js_int (mem_read memory zpAddress))
          (Z.shiftl (js_int (mem_read memory (Z.land (zpAddress + 1) 0xFF))) 8) in
  let effectiveAddress := Z.land (baseAddress + Y cpu) 0xFFFF in
  let pageCrossed :=
    negb (Z.land baseAddress 0xFF00 =? Z.land effectiveAddress 0xFF00) in
  Ok (cpu, mkAddr effectiveAddress (Some pageCrossed)).

(** Relative mode returns the signed offset itself in the address field. *)
Definition REL (cpu : CPUState) (memory : Memory) : outcome (CPUState * AddrResult) :=
  let '(cpu, byte) := fetchByte cpu memory in
  offset ← numeric byte;
  Ok (cpu, mkAddr (if 127 <? offset then offset - 256 else offset) None).

End AM.

(** The addressing mode of a table entry; [IMP] is the [null] of the source. *)
Module Mode.
Inductive t : Set :=
| IMM | ZP | ZPX | ZPY | ABS | ABSX | ABSY | IND | IZX | IZY | REL.
#[global] Instance eq_dec : EqDecision t.
Proof. solve_decision. Defined.
End Mode.

Definition AddressingModeFunc : Set := option Mode.t.

Definition resolve (mode : Mode.t) : CPUState → Memory → outcome (CPUState * AddrResult) :=
  match mode with
  | Mode.IMM => AM.IMM
  | Mode.ZP => AM.ZP
  | Mode.ZPX => AM.ZPX
  | Mode.ZPY => AM.ZPY
  | Mode.ABS => AM.ABS
  | Mode.ABSX => AM.ABSX
  | Mode.ABSY => AM.ABSY
  | Mode.IND => AM.IND
  | Mode.IZX => AM.IZX
  | Mode.IZY => AM.IZY
  | Mode.REL => AM.REL
  end.

(** ** services/cpuInstructions.ts *)

Definition ExecuteFunc : Type := CPUState → Memory → Z → outcome (CPUState * Memory).

Definition setZN (cpu : CPUState) (value : option Z) : CPUState :=
  let cpu :=
    set_P (if js_is_zero value then Z.lor (P cpu) Flag.Z
           else Z.land (P cpu) (Z.lnot Flag.Z)) cpu in
  set_P (if js_truthy (Z.land (js_int value) 0x80) then Z.lor (P cpu) Flag.N
         else Z.land (P cpu) (Z.lnot Flag.N)) cpu.

Definition setZNC (cpu : CPUState) (value : option Z) (carry : bool) : CPUState :=
  let cpu := setZN cpu value in
  set_P (if carry then Z.lor (P cpu) Flag.C
         else Z.land (P cpu) (Z.lnot Flag.C)) cpu.

Definition pushByte (cpu : CPUState) (memory : Memory) (value : Z) : CPUState * Memory :=
  let memory := mem_write memory (STACK_BASE + SP cpu) value in
  (set_SP (Z.land (SP cpu - 1) 0xFF) cpu, memory).

Definition pullByte (cpu : CPUState) (memory : Memory) : CPUState * option Z :=
  let cpu := set_SP (Z.land (SP cpu + 1) 0xFF) cpu in
  (cpu, mem_read memory (STACK_BASE + SP cpu)).

Definition pushWord (cpu : CPUState) (memory : Memory) (value : Z) : CPUState * Memory :=
  let '(cpu, memory) := pushByte cpu memory (Z.land (Z.shiftr value 8) 0xFF) in
  pushByte cpu memory (Z.land value 0xFF).

Definition pullWord (cpu : CPUState) (memory : Memory) : CPUState * Z :=
  let '(cpu, lowByte) := pullByte cpu memory in
  let '(cpu, highByte) := pullByte cpu memory in
  (cpu, Z.lor (Z.shiftl (js_int highByte) 8) (js_int lowByte)).

(** *** Instruction implementations *)

Definition LDA : ExecuteFunc := λ cpu memory address,
  a ← numeric (mem_read memory address);
  let cpu := set_A a cpu in
  Ok (setZN cpu (Some (A cpu)), memory).
Definition LDX : ExecuteFunc := λ cpu memory address,
  x ← numeric (mem_read memory address);
  let cpu := set_X x cpu in
  Ok (setZN cpu (Some (X cpu)), memory).
Definition LDY : ExecuteFunc := λ cpu memory address,
  y ← numeric (mem_read memory address);
  let cpu := set_Y y cpu in
  Ok (setZN cpu (Some (Y cpu)), memory).

Definition STA : ExecuteFunc := λ cpu memory address,
  Ok (cpu, mem_write memory address (A cpu)).
Definition STX : ExecuteFunc := λ cpu memory address,
  Ok (cpu, mem_write memory address (X cpu)).
Definition STY : ExecuteFunc := λ cpu memory address,
  Ok (cpu, mem_write memory address (Y cpu)).

Definition ADC : ExecuteFunc := λ cpu memory address,
  let value := mem_read memory address in
  let carry := if js_truthy (Z.land (P cpu) Flag.C) then 1 else 0 in
  let temp := js_add (js_add (Some (A cpu)) value) (Some carry) in
  (* Overflow: signs of the operands are the same and the sign of the result differs *)
  let cpu :=
    if negb (js_truthy (Z.land (Z.lxor (A cpu) (js_int value)) 0x80))
       && js_truthy (Z.land (Z.lxor (A cpu) (js_int temp)) 0x80)
    then set_P (Z.lor (P cpu) Flag.V) cpu
    else set_P (Z.land (P cpu) (Z.lnot Flag.V)) cpu in
  (* Decimal mode not implemented, treated as binary *)
  let cpu := set_A (Z.land (js_int temp) 0xFF) cpu in
  Ok (setZNC cpu (Some (A cpu)) (js_gt temp 0xFF), memory).

Definition SBC : ExecuteFunc := λ cpu memory address,
  let value := Z.lxor (js_int (mem_read memory address)) 0xFF in
  let carry := if js_truthy (Z.land (P cpu) Flag.C) then 1 else 0 in
  let temp := A cpu + value + carry in
  let cpu :=
    if negb (js_truthy (Z.land (Z.lxor (A cpu) value) 0x80))
       && js_truthy (Z.land (Z.lxor (A cpu) temp) 0x80)
    then set_P (Z.lor (P cpu) Flag.V) cpu
    else set_P (Z.land (P cpu) (Z.lnot Flag.V)) cpu in
  let cpu := set_A (Z.land temp 0xFF) cpu in
  Ok (setZNC cpu (Some (A cpu)) (0xFF <? temp), memory).

Definition genericBranch (cpu : CPUState) (memory : Memory)
    (relativeOffsetAddress : Z) (condition : bool) : CPUState :=
  if condition then
    let relativeOffset := mem_read memory relativeOffsetAddress in
    let oldPC := PC cpu in
    let cpu := set_PC (Z.land (js_int (js_add (Some (PC cpu)) relativeOffset)) 0xFFFF) cpu in
    let cpu := set_cycles (cycles cpu + 1) cpu in
    if negb (Z.land oldPC 0xFF00 =? Z.land (PC cpu) 0xFF00) then
      set_cycles (cycles cpu + 1) cpu
    else cpu
  else cpu.

Definition BEQ : ExecuteFunc := λ cpu memory address,
  Ok (genericBranch cpu memory address (negb (Z.land (P cpu) Flag.Z =? 0)), memory).
Definition BNE : ExecuteFunc := λ cpu memory address,
  Ok (genericBranch cpu memory address (Z.land (P cpu) Flag.Z =? 0), memory).
Definition BCS : ExecuteFunc := λ cpu memory address,
  Ok (genericBranch cpu memory address (negb (Z.land (P cpu) Flag.C =? 0)), memory).
Definition BCC : ExecuteFunc := λ cpu memory address,
  Ok (genericBranch cpu memory address (Z.land (P cpu) Flag.C =? 0), memory).
Definition BMI : ExecuteFunc := λ cpu memory address,
  Ok (genericBranch cpu memory address (negb (Z.land (P cpu) Flag.N =? 0)), memory).
Definition BPL : ExecuteFunc := λ cpu memory address,
  Ok (genericBranch cpu memory address (Z.land (P cpu) Flag.N =? 0), memory).
Definition BVS : ExecuteFunc := λ cpu memory address,
  Ok (genericBranch cpu memory address (negb (Z.land (P cpu) Flag.V =? 0)), memory).
Definition BVC : ExecuteFunc := λ cpu memory address,
  Ok (genericBranch cpu memory address (Z.land (P cpu) Flag.V =? 0), memory).

Definition JMP : ExecuteFunc := λ cpu memory address,
  Ok (set_PC address cpu, memory).
Definition JSR : ExecuteFunc := λ cpu memory address,
  let '(cpu, memory) := pushWord cpu memory (Z.land (PC cpu - 1) 0xFFFF) in
  Ok (set_PC address cpu, memory).
Definition RTS : ExecuteFunc := λ cpu memory _address,
  let '(cpu, word) := pullWord cpu memory in
  Ok (set_PC (Z.land (word + 1) 0xFFFF) cpu, memory).
Definition RTI : ExecuteFunc := λ cpu memory _address,
  let '(cpu, byte) := pullByte cpu memory in
  let cpu := set_P (Z.lor (Z.land (js_int byte) (Z.lnot Flag.B)) Flag.U) cpu in
  let '(cpu, word) := pullWord cpu memory in
  Ok (set_PC word cpu, memory).

Definition INC : ExecuteFunc := λ cpu memory address,
  let value := Z.land (js_int (js_add (mem_read memory address) (Some 1))) 0xFF in
  let memory := mem_write memory address value in
  Ok (setZN cpu (Some value), memory).
Definition INX : ExecuteFunc := λ cpu memory _address,
  let cpu := set_X (Z.land (X cpu + 1) 0xFF) cpu in
  Ok (setZN cpu (Some (X cpu)), memory).
Definition INY : ExecuteFunc := λ cpu memory _address,
  let cpu := set_Y (Z.land (Y cpu + 1) 0xFF) cpu in
  Ok (setZN cpu (Some (Y cpu)), memory).
Definition DEC : ExecuteFunc := λ cpu memory address,
  let value := Z.land (js_int (js_sub (mem_read memory address) (Some 1))) 0xFF in
  let memory := mem_write memory address value in
  Ok (setZN cpu (Some value), memory).
Definition DEX : ExecuteFunc := λ cpu memory _address,
  let cpu := set_X (Z.land (X cpu - 1) 0xFF) cpu in
  Ok (setZN cpu (Some (X cpu)), memory).
Definition DEY : ExecuteFunc := λ cpu memory _address,
  let cpu := set_Y (Z.land (Y cpu - 1) 0xFF) cpu in
  Ok (setZN cpu (Some (Y cpu)), memory).

Definition CMP : ExecuteFunc := λ cpu memory address,
  let value := mem_read memory address in
  let result := Z.land (js_int (js_sub (Some (A cpu)) value)) 0xFF in
  let cpu := setZN cpu (Some result) in
  Ok (set_P (if js_ge (A cpu) value then Z.lor (P cpu) Flag.C
             else Z.land (P cpu) (Z.lnot Flag.C)) cpu, memory).
Definition CPX : ExecuteFunc := λ cpu memory address,
  let value := mem_read memory address in
  let result := Z.land (js_int (js_sub (Some (X cpu)) value)) 0xFF in
  let cpu := setZN cpu (Some result) in
  Ok (set_P (if js_ge (X cpu) value then Z.lor (P cpu) Flag.C
             else Z.land (P cpu) (Z.lnot Flag.C)) cpu, memory).
Definition CPY : ExecuteFunc := λ cpu memory address,
  let value := mem_read memory address in
  let result := Z.land (js_int (js_sub (Some (Y cpu)) value)) 0xFF in
  let cpu := setZN cpu (Some result) in
  Ok (set_P (if js_ge (Y cpu) value then Z.lor (P cpu) Flag.C
             else Z.land (P cpu) (Z.lnot Flag.C)) cpu, memory).

Definition AND : ExecuteFunc := λ cpu memory address,
  let cpu := set_A (Z.land (A cpu) (js_int (mem_read memory address))) cpu in
  Ok (setZN cpu (Some (A cpu)), memory).
Definition ORA : ExecuteFunc := λ cpu memory address,
  let cpu := set_A (Z.lor (A cpu) (js_int (mem_read memory address))) cpu in
  Ok (setZN cpu (Some (A cpu)), memory).
Definition EOR : ExecuteFunc := λ cpu memory address,
  let cpu := set_A (Z.lxor (A cpu) (js_int (mem_read memory address))) cpu in
  Ok (setZN cpu (Some (A cpu)), memory).
Definition BIT : ExecuteFunc := λ cpu memory address,
  let value := js_int (mem_read memory address) in
  let cpu := set_P (if Z.land value (A cpu) =? 0 then Z.lor (P cpu) Flag.Z
                    else Z.land (P cpu) (Z.lnot Flag.Z)) cpu in
  let cpu := set_P (if js_truthy (Z.land value Flag.N) then Z.lor (P cpu) Flag.N
                    else Z.land (P cpu) (Z.lnot Flag.N)) cpu in
  Ok (set_P (if js_truthy (Z.land value Flag.V) then Z.lor (P cpu) Flag.V
             else Z.land (P cpu) (Z.lnot Flag.V)) cpu, memory).

Definition ASL_A : ExecuteFunc := λ cpu memory _address,
  let carry := negb (Z.land (A cpu) 0x80 =? 0) in
  let cpu := set_A (Z.land (Z.shiftl (A cpu) 1) 0xFF) cpu in
  Ok (setZNC cpu (Some (A cpu)) carry, memory).
Definition ASL_M : ExecuteFunc := λ cpu memory address,
  let value := js_int (mem_read memory address) in
  let carry := negb (Z.land value 0x80 =? 0) in
  let memory := mem_write memory address (Z.land (Z.shiftl value 1) 0xFF) in
  Ok (setZNC cpu (mem_read memory address) carry, memory).
Definition LSR_A : ExecuteFunc := λ cpu memory _address,
  let carry := negb (Z.land (A cpu) 0x01 =? 0) in
  let cpu := set_A (Z.shiftr (A cpu) 1) cpu in
  Ok (setZNC cpu (Some (A cpu)) carry, memory).
Definition LSR_M : ExecuteFunc := λ cpu memory address,
  let value := js_int (mem_read memory address) in
  let carry := negb (Z.land value 0x01 =? 0) in
  let memory := mem_write memory address (Z.shiftr value 1) in
  Ok (setZNC cpu (mem_read memory address) carry, memory).
Definition ROL_A : ExecuteFunc := λ cpu memory _address,
  let oldCarry := if js_truthy (Z.land (P cpu) Flag.C) then 1 else 0 in
  let newCarry := negb (Z.land (A cpu) 0x80 =? 0) in
  let cpu := set_A (Z.land (Z.lor (Z.shiftl (A cpu) 1) oldCarry) 0xFF) cpu in
  Ok (setZNC cpu (Some (A cpu)) newCarry, memory).
Definition ROL_M : ExecuteFunc := λ cpu memory address,
  let value := js_int (mem_read memory address) in
  let oldCarry := if js_truthy (Z.land (P cpu) Flag.C) then 1 else 0 in
  let newCarry := negb (Z.land value 0x80 =? 0) in
  let memory := mem_write memory address (Z.land (Z.lor (Z.shiftl value 1) oldCarry) 0xFF) in
  Ok (setZNC cpu (mem_read memory address) newCarry, memory).
Definition ROR_A : ExecuteFunc := λ cpu memory _address,
  let oldCarry := if js_truthy (Z.land (P cpu) Flag.C) then 0x80 else 0 in
  let newCarry := negb (Z.land (A cpu) 0x01 =? 0) in
  let cpu := set_A (Z.lor (Z.shiftr (A cpu) 1) oldCarry) cpu in
  Ok (setZNC cpu (Some (A cpu)) newCarry, memory).
Definition ROR_M : ExecuteFunc := λ cpu memory address,
  let value := js_int (mem_read memory address) in
  let oldCarry := if js_truthy (Z.land (P cpu) Flag.C) then 0x80 else 0 in
  let newCarry := negb (Z.land value 0x01 =? 0) in
  let memory := mem_write memory address (Z.lor (Z.shiftr value 1) oldCarry) in
  Ok (setZNC cpu (mem_read memory address) newCarry, memory).

Definition PHA : ExecuteFunc := λ cpu memory _address,
  Ok (pushByte cpu memory (A cpu)).
(** B and U set when pushed *)
Definition PHP : ExecuteFunc := λ cpu memory _address,
  Ok (pushByte cpu memory (Z.lor (Z.lor (P cpu) Flag.B) Flag.U)).
Definition PLA : ExecuteFunc := λ cpu memory _address,
  let '(cpu, byte) := pullByte cpu memory in
  a ← numeric byte;
  let cpu := set_A a cpu in
  Ok (setZN cpu (Some (A cpu)), memory).
(** B not restored, U always set *)
Definition PLP : ExecuteFunc := λ cpu memory _address,
  let '(cpu, byte) := pullByte cpu memory in
  Ok (set_P (Z.lor (Z.land (js_int byte) (Z.lnot Flag.B)) Flag.U) cpu, memory).

Definition TAX : ExecuteFunc := λ cpu memory _address,
  let cpu := set_X (A cpu) cpu in Ok (setZN cpu (Some (X cpu)), memory).
Definition TXA : ExecuteFunc := λ cpu memory _address,
  let cpu := set_A (X cpu) cpu in Ok (setZN cpu (Some (A cpu)), memory).
Definition TAY : ExecuteFunc := λ cpu memory _address,
  let cpu := set_Y (A cpu) cpu in Ok (setZN cpu (Some (Y cpu)), memory).
Definition TYA : ExecuteFunc := λ cpu memory _address,
  let cpu := set_A (Y cpu) cpu in Ok (setZN cpu (Some (A cpu)), memory).
Definition TSX : ExecuteFunc := λ cpu memory _address,
  let cpu := set_X (SP cpu) cpu in Ok (setZN cpu (Some (X cpu)), memory).
Definition TXS : ExecuteFunc := λ cpu memory _address,
  Ok (set_SP (X cpu) cpu, memory).

Definition CLC : ExecuteFunc := λ cpu memory _address,
  Ok (set_P (Z.land (P cpu) (Z.lnot Flag.C)) cpu, memory).
Definition SEC : ExecuteFunc := λ cpu memory _address,
  Ok (set_P (Z.lor (P cpu) Flag.C) cpu, memory).
Definition CLI : ExecuteFunc := λ cpu memory _address,
  Ok (set_P (Z.land (P cpu) (Z.lnot Flag.I)) cpu, memory).
Definition SEI : ExecuteFunc := λ cpu memory _address,
  Ok (set_P (Z.lor (P cpu) Flag.I) cpu, memory).
Definition CLD : ExecuteFunc := λ cpu memory _address,
  Ok (set_P (Z.land (P cpu) (Z.lnot Flag.D)) cpu, memory).
Definition SED : ExecuteFunc := λ cpu memory _address,
  Ok (set_P (Z.lor (P cpu) Flag.D) cpu, memory).
Definition CLV : ExecuteFunc := λ cpu memory _address,
  Ok (set_P (Z.land (P cpu) (Z.lnot Flag.V)) cpu, memory).

Definition NOP : ExecuteFunc := λ cpu memory _address, Ok (cpu, memory).
(** BRK: skip the padding byte, push PC and P (B and U set), set I; instead
    of loading PC from the IRQ vector the emulator halts. *)
Definition BRK : ExecuteFunc := λ cpu memory _address,
  let '(cpu, _) := AM.fetchByte cpu memory in
  let '(cpu, memory) := pushWord cpu memory (PC cpu) in
  let '(cpu, memory) := pushByte cpu memory (Z.lor (Z.lor (P cpu) Flag.B) Flag.U) in
  let cpu := set_P (Z.lor (P cpu) Flag.I) cpu in
  Ok (set_halted true cpu, memory).

(** *** Instruction table *)

(** The effect function of a table entry. *)
Module Op.
Inductive t : Set :=
| LDA | LDX | LDY | STA | STX | STY | ADC | SBC
| BEQ | BNE | BCS | BCC | BMI | BPL | BVS | BVC
| JMP | JSR | RTS | RTI
| INC | INX | INY | DEC | DEX | DEY
| CMP | CPX | CPY | AND | ORA | EOR | BIT
| ASL_A | ASL_M | LSR_A | LSR_M | ROL_A | ROL_M | ROR_A | ROR_M
| PHA | PHP | PLA | PLP
| TAX | TXA | TAY | TYA | TSX | TXS
| CLC | SEC | CLI | SEI | CLD | SED | CLV
| NOP | BRK.
End Op.

Definition run (op : Op.t) : ExecuteFunc :=
  match op with
  | Op.LDA => LDA | Op.LDX => LDX | Op.LDY => LDY
  | Op.STA => STA | Op.STX => STX | Op.STY => STY
  | Op.ADC => ADC | Op.SBC => SBC
  | Op.BEQ => BEQ | Op.BNE => BNE | Op.BCS => BCS | Op.BCC => BCC
  | Op.BMI => BMI | Op.BPL => BPL | Op.BVS => BVS | Op.BVC => BVC
  | Op.JMP => JMP | Op.JSR => JSR | Op.RTS => RTS | Op.RTI => RTI
  | Op.INC => INC | Op.INX => INX | Op.INY => INY
  | Op.DEC => DEC | Op.DEX => DEX | Op.DEY => DEY
  | Op.CMP => CMP | Op.CPX => CPX | Op.CPY => CPY
  | Op.AND => AND | Op.ORA => ORA | Op.EOR => EOR | Op.BIT => BIT
  | Op.ASL_A => ASL_A | Op.ASL_M => ASL_M | Op.LSR_A => LSR_A | Op.LSR_M => LSR_M
  | Op.ROL_A => ROL_A | Op.ROL_M => ROL_M | Op.ROR_A => ROR_A | Op.ROR_M => ROR_M
  | Op.PHA => PHA | Op.PHP => PHP | Op.PLA => PLA | Op.PLP => PLP
  | Op.TAX => TAX | Op.TXA => TXA | Op.TAY => TAY | Op.TYA => TYA
  | Op.TSX => TSX | Op.TXS => TXS
  | Op.CLC => CLC | Op.SEC => SEC | Op.CLI => CLI | Op.SEI => SEI
  | Op.CLD => CLD | Op.SED => SED | Op.CLV => CLV
  | Op.NOP => NOP | Op.BRK => BRK
  end.

Record InstructionDefinition : Type := mkInstruction {
  opCode : Z;
  mnemonic : string;
  addressingMode : AddressingModeFunc;
  execute : Op.t;
  bytes : Z;
  baseCycles : Z;
  pageCrossCycle : bool;
  branchCycle : bool
}.

Definition define (opCode : Z) (mnemonic : string)
    (addressingMode : AddressingModeFunc) (execute : Op.t)
    (bytes baseCycles : Z) (pageCrossCycle branchCycle : bool)
    (set : gmap Z InstructionDefinition) : gmap Z InstructionDefinition :=
  <[opCode := mkInstruction opCode mnemonic addressingMode execute bytes
                            baseCycles pageCrossCycle branchCycle]> set.

(** The modes as the table names them; [IMP] is [null]. *)
Module AMode.
Definition IMP : AddressingModeFunc := None.
Definition IMM : AddressingModeFunc := Some Mode.IMM.
Definition ZP : AddressingModeFunc := Some Mode.ZP.
Definition ZPX : AddressingModeFunc := Some Mode.ZPX.
Definition ZPY : AddressingModeFunc := Some Mode.ZPY.
Definition ABS : AddressingModeFunc := Some Mode.ABS.
Definition ABSX : AddressingModeFunc := Some Mode.ABSX.
Definition ABSY : AddressingModeFunc := Some Mode.ABSY.
Definition IND : AddressingModeFunc := Some Mode.IND.
Definition IZX : AddressingModeFunc := Some Mode.IZX.
Definition IZY : AddressingModeFunc := Some Mode.IZY.
Definition REL : AddressingModeFunc := Some Mode.REL.
End AMode.

Definition defines : list (gmap Z InstructionDefinition → gmap Z InstructionDefinition) := [
  define 0xA9 "LDA" AMode.IMM Op.LDA 2 2 false false;
  define 0xA5 "LDA" AMode.ZP Op.LDA 2 3 false false;
  define 0xB5 "LDA" AMode.ZPX Op.LDA 2 4 false false;
  define 0xAD "LDA" AMode.ABS Op.LDA 3 4 false false;
  define 0xBD "LDA" AMode.ABSX Op.LDA 3 4 true false;
  define 0xB9 "LDA" AMode.ABSY Op.LDA 3 4 true false;
  define 0xA1 "LDA" AMode.IZX Op.LDA 2 6 false false;
  define 0xB1 "LDA" AMode.IZY Op.LDA 2 5 true false;
  define 0xA2 "LDX" AMode.IMM Op.LDX 2 2 false false;
  define 0xA6 "LDX" AMode.ZP Op.LDX 2 3 false false;
  define 0xB6 "LDX" AMode.ZPY Op.LDX 2 4 false false;
  define 0xAE "LDX" AMode.ABS Op.LDX 3 4 false false;
  define 0xBE "LDX" AMode.ABSY Op.LDX 3 4 true false;
  define 0xA0 "LDY" AMode.IMM Op.LDY 2 2 false false;
  define 0xA4 "LDY" AMode.ZP Op.LDY 2 3 false false;
  define 0xB4 "LDY" AMode.ZPX Op.LDY 2 4 false false;
  define 0xAC "LDY" AMode.ABS Op.LDY 3 4 false false;
  define 0xBC "LDY" AMode.ABSX Op.LDY 3 4 true false;
  define 0x85 "STA" AMode.ZP Op.STA 2 3 false false;
  define 0x95 "STA" AMode.ZPX Op.STA 2 4 false false;
  define 0x8D "STA" AMode.ABS Op.STA 3 4 false false;
  define 0x9D "STA" AMode.ABSX Op.STA 3 5 false false;
  define 0x99 "STA" AMode.ABSY Op.STA 3 5 false false;
  define 0x81 "STA" AMode.IZX Op.STA 2 6 false false;
  define 0x91 "STA" AMode.IZY Op.STA 2 6 false false;
  define 0x86 "STX" AMode.ZP Op.STX 2 3 false false;
  define 0x96 "STX" AMode.ZPY Op.STX 2 4 false false;
  define 0x8E "STX" AMode.ABS Op.STX 3 4 false false;
  define 0x84 "STY" AMode.ZP Op.STY 2 3 false false;
  define 0x94 "STY" AMode.ZPX Op.STY 2 4 false false;
  define 0x8C "STY" AMode.ABS Op.STY 3 4 false false;
  define 0x69 "ADC" AMode.IMM Op.ADC 2 2 false false;
  define 0x65 "ADC" AMode.ZP Op.ADC 2 3 false false;
  define 0x75 "ADC" AMode.ZPX Op.ADC 2 4 false false;
  define 0x6D "ADC" AMode.ABS Op.ADC 3 4 false false;
  define 0x7D "ADC" AMode.ABSX Op.ADC 3 4 true false;
  define 0x79 "ADC" AMode.ABSY Op.ADC 3 4 true false;
  define 0x61 "ADC" AMode.IZX Op.ADC 2 6 false false;
  define 0x71 "ADC" AMode.IZY Op.ADC 2 5 true false;
  define 0xE9 "SBC" AMode.IMM Op.SBC 2 2 false false;
  define 0xE5 "SBC" AMode.ZP Op.SBC 2 3 false false;
  define 0xF5 "SBC" AMode.ZPX Op.SBC 2 4 false false;
  define 0xED "SBC" AMode.ABS Op.SBC 3 4 false false;
  define 0xFD "SBC" AMode.ABSX Op.SBC 3 4 true false;
  define 0xF9 "SBC" AMode.ABSY Op.SBC 3 4 true false;
  define 0xE1 "SBC" AMode.IZX Op.SBC 2 6 false false;
  define 0xF1 "SBC" AMode.IZY Op.SBC 2 5 true false;
  define 0x90 "BCC" AMode.REL Op.BCC 2 2 false true;
  define 0xB0 "BCS" AMode.REL Op.BCS 2 2 false true;
  define 0xF0 "BEQ" AMode.REL Op.BEQ 2 2 false true;
  define 0xD0 "BNE" AMode.REL Op.BNE 2 2 false true;
  define 0x30 "BMI" AMode.REL Op.BMI 2 2 false true;
  define 0x10 "BPL" AMode.REL Op.BPL 2 2 false true;
  define 0x50 "BVC" AMode.REL Op.BVC 2 2 false true;
  define 0x70 "BVS" AMode.REL Op.BVS 2 2 false true;
  define 0x4C "JMP" AMode.ABS Op.JMP 3 3 false false;
  define 0x6C "JMP" AMode.IND Op.JMP 3 5 false false;
  define 0x20 "JSR" AMode.ABS Op.JSR 3 6 false false;
  define 0x60 "RTS" AMode.IMP Op.RTS 1 6 false false;
  define 0x40 "RTI" AMode.IMP Op.RTI 1 6 false false;
  define 0xE6 "INC" AMode.ZP Op.INC 2 5 false false;
  define 0xF6 "INC" AMode.ZPX Op.INC 2 6 false false;
  define 0xEE "INC" AMode.ABS Op.INC 3 6 false false;
  define 0xFE "INC" AMode.ABSX Op.INC 3 7 false false;
  define 0xC6 "DEC" AMode.ZP Op.DEC 2 5 false false;
  define 0xD6 "DEC" AMode.ZPX Op.DEC 2 6 false false;
  define 0xCE "DEC" AMode.ABS Op.DEC 3 6 false false;
  define 0xDE "DEC" AMode.ABSX Op.DEC 3 7 false false;
  define 0xE8 "INX" AMode.IMP Op.INX 1 2 false false;
  define 0xC8 "INY" AMode.IMP Op.INY 1 2 false false;
  define 0xCA "DEX" AMode.IMP Op.DEX 1 2 false false;
  define 0x88 "DEY" AMode.IMP Op.DEY 1 2 false false;
  define 0xC9 "CMP" AMode.IMM Op.CMP 2 2 false false;
  define 0xC5 "CMP" AMode.ZP Op.CMP 2 3 false false;
  define 0xD5 "CMP" AMode.ZPX Op.CMP 2 4 false false;
  define 0xCD "CMP" AMode.ABS Op.CMP 3 4 false false;
  define 0xDD "CMP" AMode.ABSX Op.CMP 3 4 true false;
  define 0xD9 "CMP" AMode.ABSY Op.CMP 3 4 true false;
  define 0xC1 "CMP" AMode.IZX Op.CMP 2 6 false false;
  define 0xD1 "CMP" AMode.IZY Op.CMP 2 5 true false;
  define 0xE0 "CPX" AMode.IMM Op.CPX 2 2 false false;
  define 0xE4 "CPX" AMode.ZP Op.CPX 2 3 false false;
  define 0xEC "CPX" AMode.ABS Op.CPX 3 4 false false;
  define 0xC0 "CPY" AMode.IMM Op.CPY 2 2 false false;
  define 0xC4 "CPY" AMode.ZP Op.CPY 2 3 false false;
  define 0xCC "CPY" AMode.ABS Op.CPY 3 4 false false;
  define 0x29 "AND" AMode.IMM Op.AND 2 2 false false;
  define 0x25 "AND" AMode.ZP Op.AND 2 3 false false;
  define 0x35 "AND" AMode.ZPX Op.AND 2 4 false false;
  define 0x2D "AND" AMode.ABS Op.AND 3 4 false false;
  define 0x3D "AND" AMode.ABSX Op.AND 3 4 true false;
  define 0x39 "AND" AMode.ABSY Op.AND 3 4 true false;
  define 0x21 "AND" AMode.IZX Op.AND 2 6 false false;
  define 0x31 "AND" AMode.IZY Op.AND 2 5 true false;
  define 0x09 "ORA" AMode.IMM Op.ORA 2 2 false false;
  define 0x05 "ORA" AMode.ZP Op.ORA 2 3 false false;
  define 0x15 "ORA" AMode.ZPX Op.ORA 2 4 false false;
  define 0x0D "ORA" AMode.ABS Op.ORA 3 4 false false;
  define 0x1D "ORA" AMode.ABSX Op.ORA 3 4 true false;
  define 0x19 "ORA" AMode.ABSY Op.ORA 3 4 true false;
  define 0x01 "ORA" AMode.IZX Op.ORA 2 6 false false;
  define 0x11 "ORA" AMode.IZY Op.ORA 2 5 true false;
  define 0x49 "EOR" AMode.IMM Op.EOR 2 2 false false;
  define 0x45 "EOR" AMode.ZP Op.EOR 2 3 false false;
  define 0x55 "EOR" AMode.ZPX Op.EOR 2 4 false false;
  define 0x4D "EOR" AMode.ABS Op.EOR 3 4 false false;
  define 0x5D "EOR" AMode.ABSX Op.EOR 3 4 true false;
  define 0x59 "EOR" AMode.ABSY Op.EOR 3 4 true false;
  define 0x41 "EOR" AMode.IZX Op.EOR 2 6 false false;
  define 0x51 "EOR" AMode.IZY Op.EOR 2 5 true false;
  define 0x24 "BIT" AMode.ZP Op.BIT 2 3 false false;
  define 0x2C "BIT" AMode.ABS Op.BIT 3 4 false false;
  define 0x0A "ASL" AMode.IMP Op.ASL_A 1 2 false false;
  define 0x06 "ASL" AMode.ZP Op.ASL_M 2 5 false false;
  define 0x16 "ASL" AMode.ZPX Op.ASL_M 2 6 false false;
  define 0x0E "ASL" AMode.ABS Op.ASL_M 3 6 false false;
  define 0x1E "ASL" AMode.ABSX Op.ASL_M 3 7 false false;
  define 0x4A "LSR" AMode.IMP Op.LSR_A 1 2 false false;
  define 0x46 "LSR" AMode.ZP Op.LSR_M 2 5 false false;
  define 0x56 "LSR" AMode.ZPX Op.LSR_M 2 6 false false;
  define 0x4E "LSR" AMode.ABS Op.LSR_M 3 6 false false;
  define 0x5E "LSR" AMode.ABSX Op.LSR_M 3 7 false false;
  define 0x2A "ROL" AMode.IMP Op.ROL_A 1 2 false false;
  define 0x26 "ROL" AMode.ZP Op.ROL_M 2 5 false false;
  define 0x36 "ROL" AMode.ZPX Op.ROL_M 2 6 false false;
  define 0x2E "ROL" AMode.ABS Op.ROL_M 3 6 false false;
  define 0x3E "ROL" AMode.ABSX Op.ROL_M 3 7 false false;
  define 0x6A "ROR" AMode.IMP Op.ROR_A 1 2 false false;
  define 0x66 "ROR" AMode.ZP Op.ROR_M 2 5 false false;
  define 0x76 "ROR" AMode.ZPX Op.ROR_M 2 6 false false;
  define 0x6E "ROR" AMode.ABS Op.ROR_M 3 6 false false;
  define 0x7E "ROR" AMode.ABSX Op.ROR_M 3 7 false false;
  define 0x48 "PHA" AMode.IMP Op.PHA 1 3 false false;
  define 0x08 "PHP" AMode.IMP Op.PHP 1 3 false false;
  define 0x68 "PLA" AMode.IMP Op.PLA 1 4 false false;
  define 0x28 "PLP" AMode.IMP Op.PLP 1 4 false false;
  define 0xAA "TAX" AMode.IMP Op.TAX 1 2 false false;
  define 0x8A "TXA" AMode.IMP Op.TXA 1 2 false false;
  define 0xA8 "TAY" AMode.IMP Op.TAY 1 2 false false;
  define 0x98 "TYA" AMode.IMP Op.TYA 1 2 false false;
  define 0xBA "TSX" AMode.IMP Op.TSX 1 2 false false;
  define 0x9A "TXS" AMode.IMP Op.TXS 1 2 false false;
  define 0x18 "CLC" AMode.IMP Op.CLC 1 2 false false;
  define 0x38 "SEC" AMode.IMP Op.SEC 1 2 false false;
  define 0x58 "CLI" AMode.IMP Op.CLI 1 2 false false;
  define 0x78 "SEI" AMode.IMP Op.SEI 1 2 false false;
  define 0xD8 "CLD" AMode.IMP Op.CLD 1 2 false false;
  define 0xF8 "SED" AMode.IMP Op.SED 1 2 false false;
  define 0xB8 "CLV" AMode.IMP Op.CLV 1 2 false false;
  define 0xEA "NOP" AMode.IMP Op.NOP 1 2 false false;
  define 0x00 "BRK" AMode.IMP Op.BRK 1 7 false false;
  define 0x1A "NOP*" AMode.IMP Op.NOP 1 2 false false;
  define 0x3A "NOP*" AMode.IMP Op.NOP 1 2 false false;
  define 0x5A "NOP*" AMode.IMP Op.NOP 1 2 false false;
  define 0x7A "NOP*" AMode.IMP Op.NOP 1 2 false false;
  define 0xDA "NOP*" AMode.IMP Op.NOP 1 2 false false;
  define 0xFA "NOP*" AMode.IMP Op.NOP 1 2 false false;
  define 0x80 "NOP*" AMode.IMM Op.NOP 2 2 false false;
  define 0x04 "NOP*" AMode.ZP Op.NOP 2 3 false false
].

(** The [Map] after all the [define] calls, made in the order of the source. *)
Definition instructionSet : gmap Z InstructionDefinition :=
  foldl (λ set d, d set) ∅ defines.

Definition getInstructionDefinition (opCode : Z) : option InstructionDefinition :=
  instructionSet !! opCode.

(** ** String primitives used for the log and the disassembly *)

Definition hexDigit (d : Z) : ascii :=
  match d with
  | 0 => "0" | 1 => "1" | 2 => "2" | 3 => "3" | 4 => "4" | 5 => "5"
  | 6 => "6" | 7 => "7" | 8 => "8" | 9 => "9" | 10 => "a" | 11 => "b"
  | 12 => "c" | 13 => "d" | 14 => "e" | _ => "f"
  end%char.

Fixpoint hexDigits (fuel : nat) (n : Z) (acc : string) : string :=
  match fuel with
  | O => acc
  | S fuel =>
      let acc := String (hexDigit (n mod 16)) acc in
      if n / 16 =? 0 then acc else hexDigits fuel (n / 16) acc
  end.

(** [n.toString(16)] for an integer [n] *)
Definition toString16 (n : Z) : string :=
  if n <? 0 then String "-"%char (hexDigits (S (Z.to_nat (Z.log2 (- n)))) (- n) EmptyString)
  else hexDigits (S (Z.to_nat (Z.log2 n))) n EmptyString.

(** [v.toString(16)] where [v] may be [undefined]: a [TypeError] then. *)
Definition toString16_of (v : option Z) : outcome string :=
  match v with
  | Some n => Ok (toString16 n)
  | None => Throws
  end.

Definition toUpperChar (c : ascii) : ascii :=
  let n := nat_of_ascii c in
  if ((97 <=? n) && (n <=? 122))%nat then ascii_of_nat (n - 32) else c.

Fixpoint toUpperCase (s : string) : string :=
  match s with
  | EmptyString => EmptyString
  | String c s => String (toUpperChar c) (toUpperCase s)
  end.

Fixpoint repeatChar (n : nat) (c : ascii) : string :=
  match n with
  | O => EmptyString
  | S n => String c (repeatChar n c)
  end.

Definition padStart (len : nat) (fill : ascii) (s : string) : string :=
  (repeatChar (len - String.length s) fill +:+ s)%string.

Arguments toString16 : simpl never.
Arguments toUpperCase : simpl never.
Arguments padStart : simpl never.

(** ** services/use6502Emulator.ts *)

Inductive LogType : Set := info | error | warn | success.

(** A log entry without its identifier and time stamp. *)
Record LogEntry : Type := mkLog {
  message : string;
  type : LogType
}.

Definition initialCPUState : CPUState := {|
  A := 0; X := 0; Y := 0;
  PC := DEFAULT_PROGRAM_LOAD_ADDRESS;
  SP := 0xFD;
  P := Z.lor Flag.U Flag.I;
  cycles := 0;
  halted := false
|}.

(** [!loadAddress]: the argument is missing or is 0. *)
Definition js_not (loadAddress : option Z) : bool :=
  match loadAddress with
  | Some z => z =? 0
  | None => true
  end.

(** The new processor state and the log entry of [resetCPU(loadAddress)]. *)
Definition resetCPU (memory : Memory) (loadAddress : option Z) : CPUState * LogEntry :=
  let startPC := default DEFAULT_PROGRAM_LOAD_ADDRESS loadAddress in
  let startPC :=
    match mem_read memory RESET_VECTOR_ADDRESS,
          mem_read memory (RESET_VECTOR_ADDRESS + 1) with
    | Some lowByte, Some highByte =>
        if js_not loadAddress then Z.lor (Z.shiftl highByte 8) lowByte
        else startPC
    | _, _ => startPC
    end in
  (set_cycles 0 (set_halted false (set_SP 0xFD
     (set_P (Z.lor Flag.U Flag.I) (set_PC startPC initialCPUState)))),
   mkLog ("CPU Reset. PC set to $" +:+ padStart 4 "0" (toUpperCase (toString16 startPC)) +:+ ".")
         info).

(** One call of the updater that [step] hands to [setCPU]: the next state,
    the memory it mutated in place and the entries it logged.  The [catch]
    around the opcode read of the source is dead code: an indexed read of a
    typed array never throws. *)
Definition step (prevCpu : CPUState) (memory : Memory)
    : outcome (CPUState * Memory * list LogEntry) :=
  if halted prevCpu then Ok (prevCpu, memory, [])
  else
    let currentPC := PC prevCpu in
    let opCode := mem_read memory currentPC in
    let newCpu := set_PC (Z.land (PC prevCpu + 1) 0xFFFF) prevCpu in
    let instructionDef := opCode ≫= getInstructionDefinition in
    match instructionDef with
    | None =>
        op ← toString16_of opCode;
        Ok (set_halted true (set_PC currentPC newCpu), memory,
            [mkLog ("Unknown opcode $" +:+ padStart 2 "0" (toUpperCase op)
                    +:+ " at $" +:+ padStart 4 "0" (toUpperCase (toString16 currentPC))
                    +:+ ". Halting.") error])
    | Some instructionDef =>
        (* Resolve addressing mode *)
        '(newCpu, operandAddress, pageCrossed) ←
          match addressingMode instructionDef with
          | Some mode =>
              '(newCpu, addrResult) ← resolve mode newCpu memory;
              Ok (newCpu, address addrResult, default false (pageCrossed addrResult))
          | None => Ok (newCpu, 0, false)
          end;
        (* Execute instruction *)
        '(newCpu, memory) ← run (execute instructionDef) newCpu memory operandAddress;
        (* Update cycles *)
        let newCpu := set_cycles (cycles newCpu + baseCycles instructionDef) newCpu in
        let newCpu :=
          if pageCrossCycle instructionDef && pageCrossed
          then set_cycles (cycles newCpu + 1) newCpu else newCpu in
        Ok (newCpu, memory, [])
    end.

Record InstructionInfo : Type := mkInfo {
  info_address : Z;
  info_opCode : Z;
  info_mnemonic : string;
  info_operandStr : string;
  info_bytes : list Z;
  info_text : string
}.

(** [`$${v.toString(16).padStart(len, '0')}`] *)
Definition hexOperand (len : nat) (v : option Z) : outcome string :=
  digits ← toString16_of v;
  Ok ("$" +:+ padStart len "0" digits).

(** The operand bytes gathered for display: [memory[currentAddress + j]] for
    [j] from 1 below [bytes], 0 where that address is past the memory. *)
Fixpoint operandBytes (memory : Memory) (currentAddress : Z) (j : Z) (n : nat)
    : outcome (list Z) :=
  match n with
  | O => Ok []
  | S n =>
      byte ← (if decide (currentAddress + j < MEMORY_SIZE)
              then numeric (mem_read memory (currentAddress + j))
              else Ok 0x00);
      rest ← operandBytes memory currentAddress (j + 1) n;
      Ok (byte :: rest)
  end.

(** The operand string of a two-byte instruction. *)
Definition operandStr2 (memory : Memory) (currentAddress : Z)
    (mode : AddressingModeFunc) : outcome string :=
  let operand := mem_read memory (currentAddress + 1) in
  match mode with
  | Some Mode.IMM => s ← hexOperand 2 operand; Ok ("#" +:+ s)
  | Some Mode.REL =>
      let relAddr :=
        Z.land (js_int (js_add (Some (currentAddress + 2))
                  (if js_gt operand 127 then js_sub operand (Some 256) else operand)))
               0xFFFF in
      hexOperand 4 (Some relAddr)
  | Some Mode.ZP => hexOperand 2 operand
  | Some Mode.ZPX => s ← hexOperand 2 operand; Ok (s +:+ ",X")
  | Some Mode.ZPY => s ← hexOperand 2 operand; Ok (s +:+ ",Y")
  | Some Mode.IZX => s ← hexOperand 2 operand; Ok ("(" +:+ s +:+ ",X)")
  | Some Mode.IZY => s ← hexOperand 2 operand; Ok ("(" +:+ s +:+ "),Y")
  | _ => hexOperand 2 operand
  end.

(** The operand string of a three-byte instruction. *)
Definition operandStr3 (memory : Memory) (currentAddress : Z)
    (mode : AddressingModeFunc) : outcome string :=
  let operandLow := mem_read memory (currentAddress + 1) in
  let operandHigh := mem_read memory (currentAddress + 2) in
  let operandWord := Z.lor (Z.shiftl (js_int operandHigh) 8) (js_int operandLow) in
  match mode with
  | Some Mode.ABS => hexOperand 4 (Some operandWord)
  | Some Mode.ABSX => s ← hexOperand 4 (Some operandWord); Ok (s +:+ ",X")
  | Some Mode.ABSY => s ← hexOperand 4 (Some operandWord); Ok (s +:+ ",Y")
  | Some Mode.IND => s ← hexOperand 4 (Some operandWord); Ok ("(" +:+ s +:+ ")")
  | _ => hexOperand 4 (Some operandWord)
  end.

(** The body of the loop of [disassemble]: the record pushed for the
    instruction at [currentAddress] and the number of bytes to skip. *)
Definition disassembleAt (memory : Memory) (currentAddress : Z)
    : outcome (InstructionInfo * Z) :=
  let opCode := mem_read memory currentAddress in
  let instructionDef := opCode ≫= getInstructionDefinition in
  match instructionDef with
  | Some instructionDef =>
      op ← numeric opCode;
      operands ← operandBytes memory currentAddress 1
                   (Z.to_nat (bytes instructionDef - 1));
      operandStr ←
        (if bytes instructionDef =? 2
         then operandStr2 memory currentAddress (addressingMode instructionDef)
         else if bytes instructionDef =? 3
         then operandStr3 memory currentAddress (addressingMode instructionDef)
         else Ok EmptyString);
      Ok (mkInfo currentAddress op (mnemonic instructionDef) operandStr
                 (op :: operands)
                 (mnemonic instructionDef +:+ " " +:+ operandStr),
          bytes instructionDef)
  | None =>
      (* Data Byte if unknown opcode *)
      text ← hexOperand 2 opCode;
      op ← numeric opCode;
      Ok (mkInfo currentAddress op "???" EmptyString [op] ("DB " +:+ text), 1)
  end.

(** The loop [for (i = 0; i < count && currentAddress < MEMORY_SIZE; i++)],
    with [n] the iterations that [count] still allows. *)
Fixpoint disassembleFrom (memory : Memory) (n : nat) (currentAddress : Z)
    : outcome (list InstructionInfo) :=
  match n with
  | O => Ok []
  | S n =>
      if decide (currentAddress < MEMORY_SIZE) then
        '(instruction, instructionBytesLength) ← disassembleAt memory currentAddress;
        rest ← disassembleFrom memory n (currentAddress + instructionBytesLength);
        Ok (instruction :: rest)
      else Ok []
  end.

Definition disassemble (memory : Memory) (startAddress count : Z)
    : outcome (list InstructionInfo) :=
  disassembleFrom memory (Z.to_nat count) startAddress.

(** *** The memory accessors *)

(** [readMemoryByte(address)] *)
Definition readMemoryByte (memory : Memory) (address : Z) : option Z :=
  mem_read memory (Z.land address 0xFFFF).

(** [writeMemoryByte(address, value)]: the new memory state, a copy of the
    old one but for the cell written. *)
Definition writeMemoryByte (memory : Memory) (address value : Z) : Memory :=
  let newMem := memory in
  mem_write newMem (Z.land address 0xFFFF) (Z.land value 0xFF).

(** *** The log *)

(** [addLog(message, type)]: the new entry in front of the first 99 of the
    entries so far. *)
Definition addLog (logs : list LogEntry) (message : string) (type : LogType)
    : list LogEntry :=
  mkLog message type :: take 99 logs.

(** *** Loading a program *)

(** The code units that the class [\s] of a regular expression and the
    trimming of [parseInt] take for white space, among those below 256. *)
Definition isWhiteSpace (c : ascii) : bool :=
  let n := nat_of_ascii c in
  ((9 <=? n) && (n <=? 13) || (n =? 32) || (n =? 160))%nat.

(** [s.replace(/\s+/g, '')] *)
Fixpoint removeWhiteSpace (s : string) : string :=
  match s with
  | EmptyString => EmptyString
  | String c s =>
      if isWhiteSpace c then removeWhiteSpace s else String c (removeWhiteSpace s)
  end.

Fixpoint trimStart (s : string) : string :=
  match s with
  | String c s' => if isWhiteSpace c then trimStart s' else s
  | EmptyString => EmptyString
  end.

(** The value of a digit of radix 16, if the code unit is one. *)
Definition hexValue (c : ascii) : option Z :=
  let n := Z.of_nat (nat_of_ascii c) in
  if (48 <=? n) && (n <=? 57) then Some (n - 48)
  else if (97 <=? n) && (n <=? 102) then Some (n - 87)
  else if (65 <=? n) && (n <=? 70) then Some (n - 55)
  else None.

(** The number written by the longest prefix of digits of [s], read after
    the digits that gave [acc]; [None] while no digit was read. *)
Fixpoint parseDigits (s : string) (acc : option Z) : option Z :=
  match s with
  | EmptyString => acc
  | String c s =>
      match hexValue c with
      | Some d => parseDigits s (Some (js_int acc * 16 + d))
      | None => acc
      end
  end.

(** [parseInt(s, 16)]: leading white space, a sign and a prefix [0x] or [0X]
    are skipped, then the longest prefix of digits is read; [NaN] when there
    is no digit.  (The result is exact for the short strings of the loader;
    JavaScript rounds numbers of more than 53 bits.) *)
Definition parseInt16 (s : string) : option Z :=
  let s := trimStart s in
  let '(sign, s) :=
    match s with
    | String "-" s' => (-1, s')
    | String "+" s' => (1, s')
    | _ => (1, s)
    end in
  let s :=
    match s with
    | String "0" (String "x" s') => s'
    | String "0" (String "X" s') => s'
    | _ => s
    end in
  number ← parseDigits s None;
  Some (sign * number).

Fixpoint decimalDigits (fuel : nat) (n : Z) (acc : string) : string :=
  match fuel with
  | O => acc
  | S fuel =>
      let acc := String (hexDigit (n mod 10)) acc in
      if n / 10 =? 0 then acc else decimalDigits fuel (n / 10) acc
  end.

(** [`${n}`] for a natural number [n] *)
Definition toString10 (n : nat) : string :=
  decimalDigits (S n) (Z.of_nat n) EmptyString.

(** The state the hook keeps between two renders. *)
Record Session : Type := mkSession {
  s_cpu : CPUState;
  s_memory : Memory;
  s_logs : list LogEntry
}.

(** [Array.from({ length: hexString.length / 2 }, (_, i) =>
    hexString.slice(i * 2, i * 2 + 2)).map(s => parseInt(s, 16))] *)
Definition parseBytes (hexString : string) : list (option Z) :=
  (λ s, parseInt16 s) <$>
    ((λ i, substring (i * 2) 2 hexString) <$> seq 0 (String.length hexString / 2)).

(** [bytes.forEach((byte, index) => ...)]: a byte is stored when its address
    is below the memory size. *)
Definition storeBytes (loadAddr : Z) (bytes : list (option Z)) (newMemory : Memory) : Memory :=
  foldl (λ memory '(index, byte),
           if decide (loadAddr + Z.of_nat index < MEMORY_SIZE)
           then mem_write memory (loadAddr + Z.of_nat index) (js_int byte)
           else memory)
        newMemory (imap (λ index byte, (index, byte)) bytes).

(** [loadProgram(hexString, loadAddr)] run on the state of the current
    render.  [resetCPU] is the callback of that render: it reads the reset
    vector in the memory of the session, not in the new one. *)
Definition loadProgram (session : Session) (hexString : string) (loadAddr : option Z)
    : Session :=
  let loadAddr := default DEFAULT_PROGRAM_LOAD_ADDRESS loadAddr in
  let newMemory := createMemory in
  let hexString := removeWhiteSpace hexString in
  let bytes := parseBytes hexString in
  if existsb (λ byte, negb (bool_decide (is_Some byte))) bytes then
    mkSession (s_cpu session) (s_memory session)
      (addLog (s_logs session)
              "Error parsing hex string. Contains invalid characters." error)
  else
    let newMemory := storeBytes loadAddr bytes newMemory in
    let '(cpu, entry) := resetCPU (s_memory session) (Some loadAddr) in
    let logs := addLog (s_logs session) (message entry) (type entry) in
    let logs :=
      addLog logs ("Program loaded (" +:+ toString10 (List.length bytes) +:+ " bytes) at $"
                   +:+ padStart 4 "0" (toUpperCase (toString16 loadAddr)) +:+ ".")
             success in
    mkSession cpu newMemory logs.

(** ** The callbacks as programs on the state of the hook *)

(** A callback of the hook runs on the state the hook keeps: it may read
    and write the cells of the memory, replace the processor state and add
    to the log.  [Hook.M T] is such a program with a result in [T]: it
    takes the state it finds and returns its result with the state it
    leaves, or throws. *)
Module Hook.

Definition M (T : Type) : Type := Session → outcome (T * Session).

#[global] Instance M_ret : MRet M := λ T t session, Ok (t, session).
#[global] Instance M_bind : MBind M := λ T U k m session,
  match m session with
  | Ok (t, session) => k t session
  | Throws => Throws
  | NonNumeric => NonNumeric
  end.

(** A computation that needs no state. *)
Definition lift {T : Type} (r : outcome T) : M T := λ session,
  match r with
  | Ok t => Ok (t, session)
  | Throws => Throws
  | NonNumeric => NonNumeric
  end.

(** [memory[address]] *)
Definition readMemory (address : Z) : M (option Z) := λ session,
  Ok (mem_read (s_memory session) address, session).

(** [disassemble] as the source has it, reading the memory of the hook cell
    by cell.  The operand bytes gathered for display: *)
Fixpoint operandBytes (currentAddress : Z) (j : Z) (n : nat) : M (list Z) :=
  match n with
  | O => mret []
  | S n =>
      byte ← (if decide (currentAddress + j < MEMORY_SIZE)
              then cell ← readMemory (currentAddress + j); lift (numeric cell)
              else mret 0x00);
      rest ← operandBytes currentAddress (j + 1) n;
      mret (byte :: rest)
  end.

(** The operand string of a two-byte instruction. *)
Definition operandStr2 (currentAddress : Z) (mode : AddressingModeFunc) : M string :=
  operand ← readMemory (currentAddress + 1);
  match mode with
  | Some Mode.IMM => s ← lift (hexOperand 2 operand); mret ("#" +:+ s)
  | Some Mode.REL =>
      let relAddr :=
        Z.land (js_int (js_add (Some (currentAddress + 2))
                  (if js_gt operand 127 then js_sub operand (Some 256) else operand)))
               0xFFFF in
      lift (hexOperand 4 (Some relAddr))
  | Some Mode.ZP => lift (hexOperand 2 operand)
  | Some Mode.ZPX => s ← lift (hexOperand 2 operand); mret (s +:+ ",X")
  | Some Mode.ZPY => s ← lift (hexOperand 2 operand); mret (s +:+ ",Y")
  | Some Mode.IZX => s ← lift (hexOperand 2 operand); mret ("(" +:+ s +:+ ",X)")
  | Some Mode.IZY => s ← lift (hexOperand 2 operand); mret ("(" +:+ s +:+ "),Y")
  | _ => lift (hexOperand 2 operand)
  end.

(** The operand string of a three-byte instruction. *)
Definition operandStr3 (currentAddress : Z) (mode : AddressingModeFunc) : M string :=
  operandLow ← readMemory (currentAddress + 1);
  operandHigh ← readMemory (currentAddress + 2);
  let operandWord := Z.lor (Z.shiftl (js_int operandHigh) 8) (js_int operandLow) in
  match mode with
  | Some Mode.ABS => lift (hexOperand 4 (Some operandWord))
  | Some Mode.ABSX => s ← lift (hexOperand 4 (Some operandWord)); mret (s +:+ ",X")
  | Some Mode.ABSY => s ← lift (hexOperand 4 (Some operandWord)); mret (s +:+ ",Y")
  | Some Mode.IND => s ← lift (hexOperand 4 (Some operandWord)); mret ("(" +:+ s +:+ ")")
  | _ => lift (hexOperand 4 (Some operandWord))
  end.

(** The body of the loop: the record pushed for the instruction at
    [currentAddress] and the number of bytes to skip. *)
Definition disassembleAt (currentAddress : Z) : M (InstructionInfo * Z) :=
  opCode ← readMemory currentAddress;
  match opCode ≫= getInstructionDefinition with
  | Some instructionDef =>
      op ← lift (numeric opCode);
      operands ← operandBytes currentAddress 1 (Z.to_nat (bytes instructionDef - 1));
      operandStr ←
        (if bytes instructionDef =? 2
         then operandStr2 currentAddress (addressingMode instructionDef)
         else if bytes instructionDef =? 3
         then operandStr3 currentAddress (addressingMode instructionDef)
         else mret EmptyString);
      mret (mkInfo currentAddress op (mnemonic instructionDef) operandStr
                   (op :: operands)
                   (mnemonic instructionDef +:+ " " +:+ operandStr),
            bytes instructionDef)
  | None =>
      (* Data Byte if unknown opcode *)
      text ← lift (hexOperand 2 opCode);
      op ← lift (numeric opCode);
      mret (mkInfo currentAddress op "???" EmptyString [op] ("DB " +:+ text), 1)
  end.

(** The loop [for (i = 0; i < count && currentAddress < MEMORY_SIZE; i++)],
    with [n] the iterations that [count] still allows. *)
Fixpoint disassembleFrom (n : nat) (currentAddress : Z) : M (list InstructionInfo) :=
  match n with
  | O => mret []
  | S n =>
      if decide (currentAddress < MEMORY_SIZE) then
        '(instruction, instructionBytesLength) ← disassembleAt currentAddress;
        rest ← disassembleFrom n (currentAddress + instructionBytesLength);
        mret (instruction :: rest)
      else mret []
  end.

(** [disassemble(startAddress, count)] *)
Definition disassemble (startAddress count : Z) : M (list InstructionInfo) :=
  disassembleFrom (Z.to_nat count) startAddress.

End Hook.

(** ** Vocabulary of the properties *)

(** The ranges of the data model. *)
Definition byte (v : Z) : Prop := 0 <= v < 256.
Definition word (v : Z) : Prop := 0 <= v < 65536.

(** The registers of a processor state are in the ranges of the data model. *)
Record wf_cpu (cpu : CPUState) : Prop := mkWf {
  wf_A : byte (A cpu);
  wf_X : byte (X cpu);
  wf_Y : byte (Y cpu);
  wf_SP : byte (SP cpu);
  wf_P : byte (P cpu);
  wf_PC : word (PC cpu)
}.

(** Every cell of a typed array of bytes holds a byte. *)
Definition wf_mem (memory : Memory) : Prop :=
  map_Forall (λ _ v, byte v) memory.

(** The incoming carry as 0 or 1. *)
Definition carry_in (cpu : CPUState) : Z := if Z.testbit (P cpu) 0 then 1 else 0.

(** The overflow test of the source, [!((a ^ value) & 0x80) && ((a ^ result) & 0x80)]. *)
Definition overflow (a value result : Z) : bool :=
  (Z.land (Z.lxor a value) 0x80 =? 0) && negb (Z.land (Z.lxor a result) 0x80 =? 0).

(** The byte stored for [P | Flag.B | Flag.U]. *)
Definition pushed_status (p : Z) : Z := Z.lor (Z.lor p Flag.B) Flag.U mod 256.

(** The register loaded from a pulled byte, [(byte & ~Flag.B) | Flag.U]. *)
Definition pulled_status (b : Z) : Z := Z.lor (Z.land b (Z.lnot Flag.B)) Flag.U.

(** The little-endian word at the reset vector. *)
Definition reset_vector (memory : Memory) : Z :=
  Z.lor (Z.shiftl (js_int (mem_read memory (RESET_VECTOR_ADDRESS + 1))) 8)
        (js_int (mem_read memory RESET_VECTOR_ADDRESS)).

(** The effect functions that store their operand address in PC or load a
    register from the addressed cell: they need an address inside memory. *)
Definition needs_address (op : Op.t) : bool :=
  match op with
  | Op.LDA | Op.LDX | Op.LDY | Op.JMP | Op.JSR => true
  | _ => false
  end.

(** The Relative mode is only paired with effect functions that take any
    number for their operand address: the branches. *)
Definition relative_only_on_branches (d : InstructionDefinition) : bool :=
  negb (bool_decide (addressingMode d = Some Mode.REL))
  || negb (needs_address (execute d)).

(** [n] calls of [step] in a row, the memory mutated by one call handed to
    the next; the log entries are dropped. *)
Fixpoint steps (n : nat) (cpu : CPUState) (memory : Memory) : outcome (CPUState * Memory) :=
  match n with
  | O => Ok (cpu, memory)
  | S n =>
      '(cpu, memory, _) ← step cpu memory;
      steps n cpu memory
  end.

(** Kinds of effect functions, read off their bodies: the conditional
    branches; the ones that assign PC (or, for BRK, fetch past it); the
    ones that store into memory. *)
Definition is_branch (op : Op.t) : bool :=
  match op with
  | Op.BEQ | Op.BNE | Op.BCS | Op.BCC | Op.BMI | Op.BPL | Op.BVS | Op.BVC => true
  | _ => false
  end.

Definition is_BRK (op : Op.t) : bool :=
  match op with Op.BRK => true | _ => false end.

Definition control_flow (op : Op.t) : bool :=
  is_branch op ||
  match op with
  | Op.JMP | Op.JSR | Op.RTS | Op.RTI | Op.BRK => true
  | _ => false
  end.

Definition writes_memory (op : Op.t) : bool :=
  match op with
  | Op.STA | Op.STX | Op.STY | Op.INC | Op.DEC
  | Op.ASL_M | Op.LSR_M | Op.ROL_M | Op.ROR_M
  | Op.PHA | Op.PHP | Op.JSR | Op.BRK => true
  | _ => false
  end.

(** Bytes an addressing mode fetches after the opcode. *)
Definition operand_size (mode : AddressingModeFunc) : Z :=
  match mode with
  | None => 0
  | Some (Mode.ABS | Mode.ABSX | Mode.ABSY | Mode.IND) => 2
  | Some _ => 1
  end.

(** What [step] checks of a table entry filed under [code]. *)
Definition entry_consistent (code : Z) (d : InstructionDefinition) : bool :=
  (opCode d =? code)
  && (bytes d =? 1 + operand_size (addressingMode d))
  && (2 <=? baseCycles d) && (baseCycles d <=? 7)
  && Bool.eqb (is_BRK (execute d)) (code =? 0)
  && Bool.eqb (is_branch (execute d)) (bool_decide (addressingMode d = Some Mode.REL))
  && Bool.eqb (branchCycle d) (is_branch (execute d)).

(** The records of a disassembly tile the memory from [address] on: each
    one starts where the bytes of the one before it end, holds between one
    and three bytes, the first of them the opcode found at its address. *)
Fixpoint tiles (memory : Memory) (address : Z) (records : list InstructionInfo) : Prop :=
  match records with
  | [] => True
  | record :: records =>
      info_address record = address
      ∧ in_memory address
      ∧ mem_read memory address = Some (info_opCode record)
      ∧ head (info_bytes record) = Some (info_opCode record)
      ∧ (1 <= List.length (info_bytes record) <= 3)%nat
      ∧ tiles memory (address + Z.of_nat (List.length (info_bytes record))) records
  end.

(** A byte as the memory view and the disassembler write it: two digits of
    radix 16, in upper case if [upper]. *)
Definition hexByte (upper : bool) (b : Z) : string :=
  let s := padStart 2 "0" (toString16 b) in
  if upper then toUpperCase s else s.

(** The bytes written one after the other. *)
Definition hexDump (upper : bool) (bs : list Z) : string :=
  foldr (λ b s, hexByte upper b +:+ s) EmptyString bs.

(** What [parseInt(s, 16)] gives on the two characters [a], [b], case by
    case on what they are: the check that the cases below describe it. *)
Definition pair_check (a b : ascii) : bool :=
  let r := parseInt16 (String a (String b EmptyString)) in
  if isWhiteSpace a then true
  else if Ascii.eqb a "0" && (Ascii.eqb b "x" || Ascii.eqb b "X")
  then bool_decide (r = None)
  else if Ascii.eqb a "-" then bool_decide (r = (y ← hexValue b; Some (- y)))
  else if Ascii.eqb a "+" then bool_decide (r = hexValue b)
  else match hexValue a with
       | Some x =>
           bool_decide (r = Some (match hexValue b with
                                  | Some y => x * 16 + y
                                  | None => x
                                  end))
       | None => bool_decide (r = None)
       end.

Definition digit_check (a : ascii) : bool :=
  match hexValue a with
  | Some x =>
      negb (isWhiteSpace a) && negb (Ascii.eqb a "-") && negb (Ascii.eqb a "+")
      && (0 <=? x) && (x <? 16)
  | None => true
  end.

(** The result [r] of an effect function is the state [cpu] with bit [n] of
    P made [v] and nothing else changed, and the memory untouched. *)
Definition assigns_flag (cpu : CPUState) (memory : Memory) (n : Z) (v : bool)
    (r : outcome (CPUState * Memory)) : Prop :=
  ∃ p', r = Ok (set_P p' cpu, memory)
        ∧ ∀ k, 0 <= k → Z.testbit p' k = if k =? n then v else Z.testbit (P cpu) k.

(** Whether a branch is taken with the status [p]: each branch tests one
    flag, for set or for clear. *)
Definition branch_condition (op : Op.t) (p : Z) : option bool :=
  match op with
  | Op.BEQ => Some (Z.testbit p 1)
  | Op.BNE => Some (negb (Z.testbit p 1))
  | Op.BCS => Some (Z.testbit p 0)
  | Op.BCC => Some (negb (Z.testbit p 0))
  | Op.BMI => Some (Z.testbit p 7)
  | Op.BPL => Some (negb (Z.testbit p 7))
  | Op.BVS => Some (Z.testbit p 6)
  | Op.BVC => Some (negb (Z.testbit p 6))
  | _ => None
  end.

(** The flags a compare of the register value [r] with the operand [m]
    leaves in [p']: Carry, Zero and Negative of [r - m], the rest as in [p]. *)
Definition compared (p r m p' : Z) : Prop :=
  Z.testbit p' 0 = (m <=? r)
  ∧ Z.testbit p' 1 = (r =? m)
  ∧ Z.testbit p' 7 = Z.testbit ((r - m) mod 256) 7
  ∧ (∀ k, 0 <= k → k ∉ [0; 1; 7] → Z.testbit p' k = Z.testbit p k).

(** A truth value as the number 1 or 0. *)
Definition bit (b : bool) : Z := if b then 1 else 0.

(** The checks run over every byte for the rotates and the shifts. *)
Definition rol_check (a : Z) (b : bool) : bool :=
  let v := Z.land (Z.lor (Z.shiftl a 1) (bit b)) 0xFF in
  let c := negb (Z.land a 0x80 =? 0) in
  (v =? (2 * a + bit b) mod 256) && (bit c =? a / 128)
  && (Z.lor (Z.shiftr v 1) (if c then 0x80 else 0) =? a)
  && Bool.eqb (negb (Z.land v 0x01 =? 0)) b.

Definition ror_check (a : Z) (b : bool) : bool :=
  let v := Z.lor (Z.shiftr a 1) (if b then 0x80 else 0) in
  let c := negb (Z.land a 0x01 =? 0) in
  (v =? a / 2 + 128 * bit b) && (bit c =? a mod 2)
  && (Z.land (Z.lor (Z.shiftl v 1) (bit c)) 0xFF =? a)
  && Bool.eqb (negb (Z.land v 0x80 =? 0)) b.

Definition shift_check (a : Z) : bool :=
  (Z.land (Z.shiftl a 1) 0xFF + 256 * bit (negb (Z.land a 0x80 =? 0)) =? 2 * a)
  && (2 * Z.shiftr a 1 + bit (negb (Z.land a 0x01 =? 0)) =? a).

(** The cycle counter is a JavaScript number, the integers here are exact:
    the two agree while the counter stays within [2 ^ 53] in magnitude,
    where every sum of the source is exact too.  [cycles_exact cpu room]
    says that the counter of [cpu] is in that range and stays there when
    up to [room] is added.  One step adds at most 9: a base count of at
    most 7, and either one for a page crossing or two in a taken branch. *)
Definition cycles_exact (cpu : CPUState) (room : Z) : Prop :=
  - 2 ^ 53 <= cycles cpu ∧ cycles cpu + room <= 2 ^ 53.

(** * Properties *)

(** ** Bitwise operations on bytes and words *)

Section bits.

Lemma land_0xFF v : Z.land v 0xFF = v mod 256.
Proof. exact (Z.land_ones v 8 ltac:(lia)). Qed.

Lemma land_0xFFFF v : Z.land v 0xFFFF = v mod 65536.
Proof. exact (Z.land_ones v 16 ltac:(lia)). Qed.

Lemma byte_land_0xFF v : byte (Z.land v 0xFF).
Proof. rewrite land_0xFF. unfold byte. apply Z.mod_pos_bound. lia. Qed.

Lemma word_land_0xFFFF v : word (Z.land v 0xFFFF).
Proof. rewrite land_0xFFFF. unfold word. apply Z.mod_pos_bound. lia. Qed.

Lemma byte_mod v : byte (v mod 256).
Proof. unfold byte. apply Z.mod_pos_bound. lia. Qed.

(** Below [2 ^ n] means no bit at [n] or above. *)
Lemma below_pow2_log2 n v : 0 <= n → 0 <= v → (v < 2 ^ n ↔ v = 0 ∨ Z.log2 v < n).
Proof.
  intros Hn Hv. destruct (decide (v = 0)) as [->|Hne].
  - split; [auto|]. intros _. apply Z.pow_pos_nonneg; lia.
  - rewrite Z.log2_lt_pow2 by lia. intuition lia.
Qed.

Lemma lor_below n a b :
  0 <= n → 0 <= a < 2 ^ n → 0 <= b < 2 ^ n → 0 <= Z.lor a b < 2 ^ n.
Proof.
  intros Hn [Ha0 Ha] [Hb0 Hb]. split; [apply Z.lor_nonneg; lia|].
  destruct (decide (a = 0)) as [->|Hane]; [by rewrite Z.lor_0_l|].
  destruct (decide (b = 0)) as [->|Hbne]; [by rewrite Z.lor_0_r|].
  apply below_pow2_log2; [lia|apply Z.lor_nonneg; lia|]. right.
  rewrite Z.log2_lor by lia.
  apply Z.log2_lt_pow2 in Ha, Hb; lia.
Qed.

Lemma lxor_below n a b :
  0 <= n → 0 <= a < 2 ^ n → 0 <= b < 2 ^ n → 0 <= Z.lxor a b < 2 ^ n.
Proof.
  intros Hn [Ha0 Ha] [Hb0 Hb].
  assert (0 <= Z.lxor a b) as H0 by (apply Z.lxor_nonneg; lia).
  split; [done|].
  apply below_pow2_log2; [lia|done|].
  destruct (decide (Z.lxor a b = 0)); [by left|right].
  pose proof (Z.log2_lxor a b Ha0 Hb0) as Hl.
  destruct (decide (a = 0)) as [->|Hane].
  - rewrite Z.lxor_0_l in *. apply Z.log2_lt_pow2; lia.
  - destruct (decide (b = 0)) as [->|Hbne].
    + rewrite Z.lxor_0_r in *. apply Z.log2_lt_pow2; lia.
    + apply Z.log2_lt_pow2 in Ha, Hb; lia.
Qed.

(** Masking a non-negative value cannot make it larger. *)
Lemma land_le_l a b : 0 <= a → 0 <= Z.land a b <= a.
Proof.
  intros Ha. split; [apply Z.land_nonneg; auto|].
  assert (Z.ldiff (Z.land a b) a = 0) as Hd.
  { apply Z.bits_inj'. intros k Hk.
    rewrite Z.ldiff_spec, Z.land_spec, Z.bits_0.
    destruct (Z.testbit a k), (Z.testbit b k); done. }
  pose proof (Z.sub_nocarry_ldiff a (Z.land a b) Hd) as Hs.
  assert (0 <= Z.ldiff a (Z.land a b)) by (apply Z.ldiff_nonneg; auto).
  lia.
Qed.

Lemma byte_lor a b : byte a → byte b → byte (Z.lor a b).
Proof. intros. by apply (lor_below 8). Qed.

Lemma byte_lxor a b : byte a → byte b → byte (Z.lxor a b).
Proof. intros. by apply (lxor_below 8). Qed.

Lemma byte_land_l a b : byte a → byte (Z.land a b).
Proof. intros [H0 H1]. pose proof (land_le_l a b H0). unfold byte. lia. Qed.

Lemma byte_shiftr a : byte a → byte (Z.shiftr a 1).
Proof.
  intros [H0 H1]. rewrite Z.shiftr_div_pow2 by lia. change (2 ^ 1) with 2.
  unfold byte. split; [apply Z.div_pos; lia|].
  apply Z.div_lt_upper_bound; lia.
Qed.

(** [(high << 8) | low] is the little-endian word of two bytes. *)
Lemma lor_shiftl_8 high low :
  0 <= high → byte low → Z.lor (Z.shiftl high 8) low = high * 256 + low.
Proof.
  intros Hh [Hl0 Hl]. rewrite Z.shiftl_mul_pow2 by lia. change (2 ^ 8) with 256.
  assert (Z.land (high * 256) low = 0) as Hdisj.
  { apply Z.bits_inj'. intros k Hk. rewrite Z.land_spec, Z.bits_0.
    destruct (decide (k < 8)).
    - replace (high * 256) with (high * 2 ^ 8) by lia.
      rewrite Z.mul_pow2_bits_low by lia. done.
    - destruct (decide (low = 0)) as [->|]; [by rewrite Z.bits_0, andb_false_r|].
      rewrite (Z.bits_above_log2 low k), andb_false_r; [done|lia|].
      assert (Z.log2 low < 8) by (apply Z.log2_lt_pow2; lia). lia. }
  rewrite <- Z.lxor_lor, <- Z.add_nocarry_lxor by done. done.
Qed.

Lemma word_lor_shiftl_8 high low :
  byte high → byte low → word (Z.lor (Z.shiftl high 8) low).
Proof.
  intros Hh Hl. rewrite lor_shiftl_8 by (done || apply Hh).
  unfold byte, word in *. lia.
Qed.

(** The same word written with the two operands of [|] swapped. *)
Lemma lor_shiftl_8_comm high low :
  0 <= high → byte low → Z.lor low (Z.shiftl high 8) = high * 256 + low.
Proof. intros. rewrite Z.lor_comm. by apply lor_shiftl_8. Qed.

End bits.

(** ** Setting and clearing one flag *)

Section flags.

Lemma testbit_set p n k :
  0 <= n → 0 <= k → Z.testbit (Z.lor p (2 ^ n)) k = Z.testbit p k || (n =? k).
Proof. intros Hn Hk. by rewrite Z.lor_spec, Z.pow2_bits_eqb. Qed.

Lemma testbit_clear p n k :
  0 <= n → 0 <= k →
  Z.testbit (Z.land p (Z.lnot (2 ^ n))) k = Z.testbit p k && negb (n =? k).
Proof. intros Hn Hk. by rewrite Z.land_spec, Z.lnot_spec, Z.pow2_bits_eqb. Qed.

(** A flag written by a conditional: the flag's bit takes the condition,
    every other bit is kept. *)
Lemma testbit_assign p n k (c : bool) :
  0 <= n → 0 <= k →
  Z.testbit (if c then Z.lor p (2 ^ n) else Z.land p (Z.lnot (2 ^ n))) k
  = if n =? k then c else Z.testbit p k.
Proof.
  intros Hn Hk. destruct c; [rewrite testbit_set|rewrite testbit_clear]; try done;
    destruct (n =? k); simpl; by rewrite ?orb_true_r, ?orb_false_r, ?andb_true_r, ?andb_false_r.
Qed.

(** The bit of a mask test: [v & 2^n] is truthy exactly when bit [n] of [v] is set. *)
Lemma truthy_land_pow2 v n :
  0 <= n → js_truthy (Z.land v (2 ^ n)) = Z.testbit v n.
Proof.
  intros Hn. unfold js_truthy.
  destruct (Z.testbit v n) eqn:Hb.
  - apply negb_true_iff, Z.eqb_neq. intros H0.
    assert (Z.testbit (Z.land v (2 ^ n)) n = true) as Ht
      by (by rewrite Z.land_spec, Z.pow2_bits_eqb, Hb, Z.eqb_refl).
    by rewrite H0, Z.bits_0 in Ht.
  - apply negb_false_iff, Z.eqb_eq. apply Z.bits_inj'. intros k Hk.
    rewrite Z.land_spec, Z.pow2_bits_eqb, Z.bits_0 by done.
    destruct (Z.eqb_spec n k) as [->|]; [by rewrite Hb|by rewrite andb_false_r].
Qed.

Lemma land_pow2_eqb_0 v n :
  0 <= n → (Z.land v (2 ^ n) =? 0) = negb (Z.testbit v n).
Proof.
  intros Hn. rewrite <- truthy_land_pow2 by done. unfold js_truthy.
  by rewrite negb_involutive.
Qed.

(** [setZN]: Zero is set iff the value is 0, Negative iff its bit 7 is set;
    the other flags are kept. *)
Lemma setZN_bits cpu v k :
  0 <= k →
  Z.testbit (P (setZN cpu v)) k =
    if k =? 1 then js_is_zero v
    else if k =? 7 then Z.testbit (js_int v) 7
    else Z.testbit (P cpu) k.
Proof.
  intros Hk. unfold setZN. simpl.
  change Flag.Z with (2 ^ 1). change Flag.N with (2 ^ 7). change 0x80 with (2 ^ 7).
  rewrite !testbit_assign, truthy_land_pow2 by lia.
  rewrite (Z.eqb_sym k 1), (Z.eqb_sym k 7).
  destruct (Z.eqb_spec 7 k) as [<-|]; [done|].
  by destruct (1 =? k).
Qed.

Lemma setZN_frame cpu v :
  A (setZN cpu v) = A cpu ∧ X (setZN cpu v) = X cpu ∧ Y (setZN cpu v) = Y cpu
  ∧ PC (setZN cpu v) = PC cpu ∧ SP (setZN cpu v) = SP cpu
  ∧ cycles (setZN cpu v) = cycles cpu ∧ halted (setZN cpu v) = halted cpu.
Proof. done. Qed.

End flags.

(** ** Reads and writes of the typed array *)

Section memory.

Lemma mem_read_inside (memory : Memory) address :
  in_memory address → mem_read memory address = Some (default 0 (memory !! address)).
Proof. intros H. unfold mem_read. by rewrite decide_True. Qed.

Lemma mem_read_outside (memory : Memory) address :
  ¬ in_memory address → mem_read memory address = None.
Proof. intros H. unfold mem_read. by rewrite decide_False. Qed.

Lemma mem_read_Some (memory : Memory) address v :
  mem_read memory address = Some v → in_memory address.
Proof. unfold mem_read. by case_decide. Qed.

Lemma mem_read_byte (memory : Memory) address v :
  wf_mem memory → mem_read memory address = Some v → byte v.
Proof.
  intros Hwf. unfold mem_read. case_decide; [|done]. intros [= <-].
  destruct (memory !! address) as [v|] eqn:Hv; simpl.
  - by apply (Hwf address).
  - unfold byte. lia.
Qed.

Lemma js_int_read_byte (memory : Memory) address :
  wf_mem memory → byte (js_int (mem_read memory address)).
Proof.
  intros Hwf. destruct (mem_read memory address) as [v|] eqn:Hv; simpl.
  - by eapply mem_read_byte.
  - unfold byte. lia.
Qed.

Lemma wf_mem_write (memory : Memory) address value :
  wf_mem memory → wf_mem (mem_write memory address value).
Proof.
  intros Hwf. unfold mem_write. case_decide; [|done].
  apply map_Forall_insert_2; [apply byte_mod|done].
Qed.

Lemma byte_cell (memory : Memory) address :
  wf_mem memory → byte (default 0 (memory !! address)).
Proof.
  intros Hwf. destruct (memory !! address) as [v|] eqn:Hv; simpl.
  - by apply (Hwf address).
  - unfold byte. lia.
Qed.

Lemma wf_mem_empty : wf_mem createMemory.
Proof. apply map_Forall_empty. Qed.

Lemma mem_read_write_eq (memory : Memory) address value :
  in_memory address →
  mem_read (mem_write memory address value) address = Some (value mod 256).
Proof.
  intros H. unfold mem_read, mem_write. rewrite !decide_True by done.
  by rewrite lookup_insert_eq.
Qed.

Lemma mem_read_write_ne (memory : Memory) address other value :
  other ≠ address →
  mem_read (mem_write memory address value) other = mem_read memory other.
Proof.
  intros H. unfold mem_read, mem_write. case_decide; [|done].
  case_decide; [|done]. by rewrite lookup_insert_ne.
Qed.

Lemma mem_read_write_byte (memory : Memory) address value :
  in_memory address → byte value →
  mem_read (mem_write memory address value) address = Some value.
Proof.
  intros H Hb. rewrite mem_read_write_eq by done. f_equal.
  apply Z.mod_small. apply Hb.
Qed.

End memory.

(** ** Stores and TXS leave the flags alone *)

(** C10: STA, STX and STY return the processor state as they found it, status
    register included, and write the register to the addressed cell only:
    every other cell reads as before, and the addressed cell reads the
    register when the address lies in memory.  TXS copies X to SP and changes
    nothing else, P included.  A load and the other transfers (TAX, TXA, TAY,
    TYA, TSX) recompute Zero and Negative from the value moved. *)
Theorem C10_stores_and_TXS_keep_P (cpu : CPUState) (memory : Memory) (address : Z) :
  (STA cpu memory address = Ok (cpu, mem_write memory address (A cpu))
   ∧ STX cpu memory address = Ok (cpu, mem_write memory address (X cpu))
   ∧ STY cpu memory address = Ok (cpu, mem_write memory address (Y cpu)))
  ∧ (∀ value other, other ≠ address →
       mem_read (mem_write memory address value) other = mem_read memory other)
  ∧ (∀ value, in_memory address → byte value →
       mem_read (mem_write memory address value) address = Some value)
  ∧ (TXS cpu memory address = Ok (set_SP (X cpu) cpu, memory)
     ∧ P (set_SP (X cpu) cpu) = P cpu)
  ∧ (∀ value, mem_read memory address = Some value →
       ∃ cpu', LDA cpu memory address = Ok (cpu', memory)
         ∧ A cpu' = value
         ∧ Z.testbit (P cpu') 1 = (value =? 0)
         ∧ Z.testbit (P cpu') 7 = Z.testbit value 7)
  ∧ (∀ op source, (op, source) ∈ [(TAX, A); (TXA, X); (TAY, A); (TYA, Y); (TSX, SP)] →
       ∃ cpu', op cpu memory address = Ok (cpu', memory)
         ∧ Z.testbit (P cpu') 1 = (source cpu =? 0)
         ∧ Z.testbit (P cpu') 7 = Z.testbit (source cpu) 7).
Proof.
  split; [done|].
  split; [intros; by apply mem_read_write_ne|].
  split; [intros; by apply mem_read_write_byte|].
  split; [done|].
  split.
  - intros value Hv. exists (setZN (set_A value cpu) (Some value)).
    split; [unfold LDA; by rewrite Hv|]. by rewrite !setZN_bits.
  - intros op source Hin.
    repeat (apply elem_of_cons in Hin as [[= -> ->]|Hin]);
      [..|by apply elem_of_nil in Hin];
      (eexists; split; [done|]; by rewrite !setZN_bits).
Qed.

(** ** Unknown opcodes *)

(** C2: when the processor is running and the byte at PC has no entry in the
    instruction table, [step] returns the state it was given with only the
    halted flag set (so PC still is the address of that opcode and registers,
    flags and cycles are as before), leaves the memory as it was and logs one
    error; on a halted processor [step] returns state and memory unchanged
    and logs nothing. *)
Theorem C2_unknown_opcode_halts (cpu : CPUState) (memory : Memory) (op : Z) :
  halted cpu = false →
  mem_read memory (PC cpu) = Some op →
  getInstructionDefinition op = None →
  (∃ entry, step cpu memory = Ok (set_halted true cpu, memory, [entry])
            ∧ type entry = error)
  ∧ PC (set_halted true cpu) = PC cpu
  ∧ step (set_halted true cpu) memory = Ok (set_halted true cpu, memory, []).
Proof.
  intros Hrun Hop Hdef. split; [|done].
  unfold step. rewrite Hrun, Hop. cbn [mbind option_bind]. rewrite Hdef.
  cbn [toString16_of mbind outcome_bind].
  eexists. split; [destruct cpu; reflexivity|reflexivity].
Qed.

Lemma C2_unknown_opcode_halts_witness :
  let cpu := set_PC 0x1000 initialCPUState in
  let memory : Memory := <[0x1000 := 0xFF]> createMemory in
  (halted cpu = false ∧ mem_read memory (PC cpu) = Some 0xFF
   ∧ getInstructionDefinition 0xFF = None)
  ∧ (∃ entry, step cpu memory = Ok (set_halted true cpu, memory, [entry])
              ∧ type entry = error)
  ∧ PC (set_halted true cpu) = 0x1000
  ∧ step (set_halted true cpu) memory = Ok (set_halted true cpu, memory, []).
Proof.
  intros cpu memory.
  assert (halted cpu = false) as H1 by reflexivity.
  assert (mem_read memory (PC cpu) = Some 0xFF) as H2 by (vm_compute; reflexivity).
  assert (getInstructionDefinition 0xFF = None) as H3 by (vm_compute; reflexivity).
  split; [by repeat split|].
  exact (C2_unknown_opcode_halts cpu memory 0xFF H1 H2 H3).
Defined.

(** ** Indirect addressing *)

Section indirect.

Lemma land_succ_0xFFFF pc : Z.land (Z.land (pc + 1) 0xFFFF + 1) 0xFFFF = Z.land (pc + 2) 0xFFFF.
Proof.
  rewrite !land_0xFFFF, Z.add_mod_idemp_l by lia. f_equal. lia.
Qed.

(** What [fetchWord] returns when both operand bytes lie in memory. *)
Lemma fetchWord_spec cpu (memory : Memory) low high :
  wf_mem memory →
  mem_read memory (PC cpu) = Some low →
  mem_read memory (Z.land (PC cpu + 1) 0xFFFF) = Some high →
  AM.fetchWord cpu memory = (set_PC (Z.land (PC cpu + 2) 0xFFFF) cpu, high * 256 + low).
Proof.
  intros Hwf Hl Hh. unfold AM.fetchWord, AM.fetchByte. cbn [PC set_PC].
  rewrite Hl, Hh. cbn [js_int default].
  pose proof (mem_read_byte _ _ _ Hwf Hl). pose proof (mem_read_byte _ _ _ Hwf Hh) as [??].
  rewrite lor_shiftl_8, land_succ_0xFFFF by done. by destruct cpu.
Qed.

Lemma in_memory_land_0xFFFF v : in_memory (Z.land v 0xFFFF).
Proof. apply word_land_0xFFFF. Qed.

End indirect.

(** C3: the Indirect mode fetches the pointer [P] at PC (PC advances by two),
    reads the low byte of the target at [P] and the high byte at [P & 0xFF00]
    when the low byte of [P] is 0xFF, at [P + 1] otherwise.  With the pointer
    0x30FF, 0x80 at 0x30FF, 0x40 at 0x3000 (and 0x50 at 0x3100) the resolved
    address is 0x4080. *)
Theorem C3_indirect_wraps_within_page :
  (∀ (cpu : CPUState) (memory : Memory),
     wf_mem memory → in_memory (PC cpu) →
     ∃ pointerLow pointerHigh low high,
       mem_read memory (PC cpu) = Some pointerLow
       ∧ mem_read memory (Z.land (PC cpu + 1) 0xFFFF) = Some pointerHigh
       ∧ let pointer := pointerHigh * 256 + pointerLow in
         mem_read memory pointer = Some low
         ∧ mem_read memory (if Z.land pointer 0xFF =? 0xFF
                            then Z.land pointer 0xFF00 else pointer + 1) = Some high
         ∧ AM.IND cpu memory =
             Ok (set_PC (Z.land (PC cpu + 2) 0xFFFF) cpu, mkAddr (high * 256 + low) None))
  ∧ (let memory : Memory :=
       <[0x1001 := 0xFF]> (<[0x1002 := 0x30]> (<[0x30FF := 0x80]>
         (<[0x3000 := 0x40]> (<[0x3100 := 0x50]> createMemory)))) in
     AM.IND (set_PC 0x1001 initialCPUState) memory =
       Ok (set_PC 0x1003 initialCPUState, mkAddr 0x4080 None)).
Proof.
  split; [|vm_compute; reflexivity].
  intros cpu memory Hwf Hpc.
  destruct (mem_read memory (PC cpu)) as [pl|] eqn:Hpl;
    [|by rewrite mem_read_inside in Hpl].
  destruct (mem_read memory (Z.land (PC cpu + 1) 0xFFFF)) as [ph|] eqn:Hph;
    [|by rewrite mem_read_inside in Hph by apply in_memory_land_0xFFFF].
  pose proof (mem_read_byte _ _ _ Hwf Hpl) as Hbl.
  pose proof (mem_read_byte _ _ _ Hwf Hph) as Hbh.
  set (pointer := ph * 256 + pl).
  assert (word pointer) as Hw by (unfold word, byte, pointer in *; lia).
  set (second := if Z.land pointer 0xFF =? 0xFF then Z.land pointer 0xFF00 else pointer + 1).
  assert (in_memory second) as Hsecond.
  { unfold second. clearbody pointer.
    destruct (Z.eqb_spec (Z.land pointer 0xFF) 0xFF) as [Heq|Hne].
    - pose proof (land_le_l pointer 0xFF00 (proj1 Hw)). unfold in_memory, MEMORY_SIZE, word in *. lia.
    - assert (pointer ≠ 0xFFFF) by (by intros ->).
      unfold in_memory, MEMORY_SIZE, word in *. lia. }
  exists pl, ph, (default 0 (memory !! pointer)), (default 0 (memory !! second)).
  split; [done|]. split; [done|]. cbn zeta. fold pointer. fold second.
  split; [by apply mem_read_inside|]. split; [by apply mem_read_inside|].
  assert (byte (default 0 (memory !! pointer))) as Hb1
    by (eapply mem_read_byte; [done|by apply mem_read_inside]).
  assert (byte (default 0 (memory !! second))) as [??]
    by (eapply mem_read_byte; [done|by apply mem_read_inside]).
  unfold AM.IND. rewrite (fetchWord_spec cpu memory pl ph) by done. fold pointer.
  unfold second in *.
  destruct (Z.land pointer 255 =? 255);
    rewrite (mem_read_inside memory pointer), (mem_read_inside memory _ Hsecond) by done;
    cbn [js_int default]; by rewrite lor_shiftl_8_comm.
Qed.

Lemma C3_indirect_wraps_within_page_witness :
  let cpu := set_PC 0x0200 initialCPUState in
  let memory : Memory := <[0x0200 := 0x34]> (<[0x0201 := 0x12]> createMemory) in
  (wf_mem memory ∧ in_memory (PC cpu))
  ∧ ∃ pointerLow pointerHigh low high,
      mem_read memory (PC cpu) = Some pointerLow
      ∧ mem_read memory (Z.land (PC cpu + 1) 0xFFFF) = Some pointerHigh
      ∧ let pointer := pointerHigh * 256 + pointerLow in
        mem_read memory pointer = Some low
        ∧ mem_read memory (if Z.land pointer 0xFF =? 0xFF
                           then Z.land pointer 0xFF00 else pointer + 1) = Some high
        ∧ AM.IND cpu memory =
            Ok (set_PC (Z.land (PC cpu + 2) 0xFFFF) cpu, mkAddr (high * 256 + low) None).
Proof.
  intros cpu memory.
  assert (wf_mem memory) as Hwf.
  { repeat (apply map_Forall_insert_2; [unfold byte; lia|]). apply map_Forall_empty. }
  assert (in_memory (PC cpu)) as Hpc by (vm_compute; split; [discriminate|reflexivity]).
  split; [by split|].
  exact (proj1 C3_indirect_wraps_within_page cpu memory Hwf Hpc).
Defined.

(** ** Add and subtract with carry *)

Section arithmetic.

Lemma setZNC_bits cpu v carry k :
  0 <= k →
  Z.testbit (P (setZNC cpu v carry)) k =
    if k =? 0 then carry
    else if k =? 1 then js_is_zero v
    else if k =? 7 then Z.testbit (js_int v) 7
    else Z.testbit (P cpu) k.
Proof.
  intros Hk. unfold setZNC. cbn [P set_P].
  change Flag.C with (2 ^ 0). rewrite testbit_assign by lia.
  rewrite (Z.eqb_sym k 0). destruct (0 =? k); [done|]. by apply setZN_bits.
Qed.

Lemma setZNC_bit_C cpu v carry : Z.testbit (P (setZNC cpu v carry)) 0 = carry.
Proof. by rewrite setZNC_bits. Qed.

Lemma setZNC_bit_Z cpu v carry : Z.testbit (P (setZNC cpu v carry)) 1 = js_is_zero v.
Proof. by rewrite setZNC_bits. Qed.

Lemma setZNC_bit_N cpu v carry :
  Z.testbit (P (setZNC cpu v carry)) 7 = Z.testbit (js_int v) 7.
Proof. by rewrite setZNC_bits. Qed.

Lemma setZNC_bit_other cpu v carry k :
  0 <= k → k ≠ 0 → k ≠ 1 → k ≠ 7 →
  Z.testbit (P (setZNC cpu v carry)) k = Z.testbit (P cpu) k.
Proof.
  intros. rewrite setZNC_bits by done. by rewrite !(proj2 (Z.eqb_neq k _)).
Qed.

Lemma set_P_if (c : bool) p q cpu :
  (if c then set_P p cpu else set_P q cpu) = set_P (if c then p else q) cpu.
Proof. by destruct c. Qed.

Lemma carry_in_spec cpu :
  (if js_truthy (Z.land (P cpu) Flag.C) then 1 else 0) = carry_in cpu.
Proof. change Flag.C with (2 ^ 0). by rewrite truthy_land_pow2. Qed.

(** The state [ADC] leaves for an operand that was read from memory. *)
Lemma ADC_spec cpu (memory : Memory) address operand :
  mem_read memory address = Some operand →
  let result := A cpu + operand + carry_in cpu in
  ∃ cpu', ADC cpu memory address = Ok (cpu', memory)
    ∧ A cpu' = result mod 256
    ∧ Z.testbit (P cpu') 0 = (255 <? result)
    ∧ Z.testbit (P cpu') 6 = overflow (A cpu) operand result
    ∧ Z.testbit (P cpu') 1 = (result mod 256 =? 0)
    ∧ Z.testbit (P cpu') 7 = Z.testbit (result mod 256) 7
    ∧ (∀ k, 0 <= k → k ∉ [0; 1; 6; 7] → Z.testbit (P cpu') k = Z.testbit (P cpu) k)
    ∧ X cpu' = X cpu ∧ Y cpu' = Y cpu ∧ SP cpu' = SP cpu ∧ PC cpu' = PC cpu
    ∧ cycles cpu' = cycles cpu ∧ halted cpu' = halted cpu.
Proof.
  intros Hread result. unfold ADC. rewrite Hread, carry_in_spec.
  cbn [js_add js_int default js_gt]. fold result. unfold js_truthy.
  rewrite negb_involutive. fold (overflow (A cpu) operand result).
  rewrite set_P_if. change Flag.V with (2 ^ 6).
  eexists. split; [reflexivity|].
  cbn [A set_A]. rewrite land_0xFF.
  rewrite setZNC_bit_C, setZNC_bit_Z, setZNC_bit_N.
  split; [done|]. split; [done|].
  split; [rewrite setZNC_bit_other by lia; cbn [P set_P set_A];
          by rewrite testbit_assign|].
  split; [done|]. split; [done|]. split; [|done].
  intros k Hk Hnot.
  assert (k ≠ 0 ∧ k ≠ 1 ∧ k ≠ 6 ∧ k ≠ 7) as (?&?&?&?).
  { repeat split; intros ->; apply Hnot; set_solver. }
  rewrite setZNC_bit_other by done. cbn [P set_P set_A].
  rewrite testbit_assign by lia. by rewrite (proj2 (Z.eqb_neq 6 k)).
Qed.

(** [SBC] is [ADC] run on a memory whose operand cell holds the complement. *)
Lemma SBC_as_ADC cpu (memory : Memory) address operand :
  wf_mem memory →
  mem_read memory address = Some operand →
  let complemented := mem_write memory address (Z.lxor operand 0xFF) in
  ∃ cpu', SBC cpu memory address = Ok (cpu', memory)
    ∧ ADC cpu complemented address = Ok (cpu', complemented).
Proof.
  intros Hwf Hread complemented.
  assert (byte (Z.lxor operand 0xFF)) as Hb.
  { apply byte_lxor; [by eapply mem_read_byte|unfold byte; lia]. }
  assert (mem_read complemented address = Some (Z.lxor operand 0xFF)) as Hc.
  { apply mem_read_write_byte; [by eapply mem_read_Some|done]. }
  unfold SBC, ADC. rewrite Hread, Hc. cbn [js_int default js_add js_gt].
  eexists. split; reflexivity.
Qed.

End arithmetic.

Lemma lxor_0xFF_byte v : byte v → Z.lxor v 0xFF = 255 - v.
Proof.
  intros [H0 H1]. destruct (decide (v = 0)) as [->|Hne]; [done|].
  assert (Z.log2 v < 8) as Hlog by (apply Z.log2_lt_pow2; lia).
  change 0xFF with (Z.ones 8). change 255 with (Z.ones 8).
  rewrite <- Z.ldiff_ones_l_low by done.
  symmetry. apply Z.sub_nocarry_ldiff. by apply Z.ldiff_ones_r_low.
Qed.

(** C4: for an operand read from memory, ADC forms
    [result = A + operand + carry] with the incoming carry as 0 or 1 (the
    Decimal flag plays no part), stores [result mod 256] in A, sets Carry iff
    [result > 255], Overflow iff [!((A ^ operand) & 0x80) && ((A ^ result) & 0x80)],
    Zero and Negative from the new A, and keeps the other flags and
    registers.  SBC gives the state ADC gives when the operand cell holds the
    complement [operand ^ 0xFF]: A becomes [A - operand - (1 - carry)] modulo
    256 and Carry is set iff no borrow occurred.  0x7F + 1 with carry clear
    gives A = 0x80 with N and V set, C and Z clear; 0xFF + 1 with carry clear
    gives A = 0x00 with C and Z set, V and N clear. *)
Theorem C4_ADC_SBC_flags :
  (∀ (cpu : CPUState) (memory : Memory) (address operand : Z),
     mem_read memory address = Some operand →
     let result := A cpu + operand + carry_in cpu in
     ∃ cpu', ADC cpu memory address = Ok (cpu', memory)
       ∧ A cpu' = result mod 256
       ∧ Z.testbit (P cpu') 0 = (255 <? result)
       ∧ Z.testbit (P cpu') 6 = overflow (A cpu) operand result
       ∧ Z.testbit (P cpu') 1 = (result mod 256 =? 0)
       ∧ Z.testbit (P cpu') 7 = Z.testbit (result mod 256) 7
       ∧ (∀ k, 0 <= k → k ∉ [0; 1; 6; 7] → Z.testbit (P cpu') k = Z.testbit (P cpu) k)
       ∧ X cpu' = X cpu ∧ Y cpu' = Y cpu ∧ SP cpu' = SP cpu ∧ PC cpu' = PC cpu
       ∧ cycles cpu' = cycles cpu ∧ halted cpu' = halted cpu)
  ∧ (∀ (cpu : CPUState) (memory : Memory) (address operand : Z),
       wf_mem memory →
       mem_read memory address = Some operand →
       let complemented := mem_write memory address (Z.lxor operand 0xFF) in
       ∃ cpu', SBC cpu memory address = Ok (cpu', memory)
         ∧ ADC cpu complemented address = Ok (cpu', complemented)
         ∧ A cpu' = (A cpu - operand - (1 - carry_in cpu)) mod 256
         ∧ Z.testbit (P cpu') 0 = (operand + (1 - carry_in cpu) <=? A cpu))
  ∧ (let cpu := set_P Flag.U (set_A 0x7F initialCPUState) in
     let memory : Memory := <[0x00 := 0x01]> createMemory in
     ADC cpu memory 0x00 =
       Ok (set_P (Z.lor Flag.U (Z.lor Flag.N Flag.V)) (set_A 0x80 cpu), memory))
  ∧ (let cpu := set_P Flag.U (set_A 0xFF initialCPUState) in
     let memory : Memory := <[0x00 := 0x01]> createMemory in
     ADC cpu memory 0x00 =
       Ok (set_P (Z.lor Flag.U (Z.lor Flag.C Flag.Z)) (set_A 0x00 cpu), memory)).
Proof.
  split; [intros; by apply ADC_spec|].
  split; [|split; vm_compute; reflexivity].
  intros cpu memory address operand Hwf Hread complemented.
  destruct (SBC_as_ADC cpu memory address operand Hwf Hread) as (cpu' & Hsbc & Hadc).
  exists cpu'. split; [done|]. split; [done|].
  assert (byte operand) as Hb by (by eapply mem_read_byte).
  assert (mem_read complemented address = Some (255 - operand)) as Hc.
  { rewrite <- lxor_0xFF_byte by done. apply mem_read_write_byte.
    - by eapply mem_read_Some.
    - rewrite lxor_0xFF_byte by done. unfold byte in *. lia. }
  destruct (ADC_spec cpu complemented address _ Hc) as (cpu2 & Hadc2 & HA & HC & _).
  fold complemented in Hadc. rewrite Hadc in Hadc2. injection Hadc2 as <-.
  rewrite HA, HC. split.
  - replace (A cpu + (255 - operand) + carry_in cpu)
      with (A cpu - operand - (1 - carry_in cpu) + 1 * 256) by lia.
    apply Z_mod_plus_full.
  - destruct (Z.ltb_spec 255 (A cpu + (255 - operand) + carry_in cpu)),
      (Z.leb_spec (operand + (1 - carry_in cpu)) (A cpu)); (done || lia).
Qed.

Lemma C4_ADC_SBC_flags_witness :
  let cpu := set_P (Z.lor Flag.U Flag.C) (set_A 0x50 initialCPUState) in
  let memory : Memory := <[0x10 := 0x50]> createMemory in
  (wf_mem memory ∧ mem_read memory 0x10 = Some 0x50)
  ∧ (∃ cpu', ADC cpu memory 0x10 = Ok (cpu', memory)
       ∧ A cpu' = (0x50 + 0x50 + 1) mod 256
       ∧ Z.testbit (P cpu') 0 = false
       ∧ Z.testbit (P cpu') 6 = true)
  ∧ (∃ cpu', SBC cpu memory 0x10 = Ok (cpu', memory)
       ∧ A cpu' = 0
       ∧ Z.testbit (P cpu') 0 = true).
Proof.
  intros cpu memory.
  assert (wf_mem memory) as Hwf.
  { apply map_Forall_insert_2; [unfold byte; lia|apply map_Forall_empty]. }
  assert (mem_read memory 0x10 = Some 0x50) as Hread by (vm_compute; reflexivity).
  split; [by split|]. split.
  - destruct (proj1 C4_ADC_SBC_flags cpu memory 0x10 0x50 Hread)
      as (cpu' & Hadc & HA & HC & HV & _).
    exists cpu'. split; [exact Hadc|]. split; [exact HA|]. split; [exact HC|exact HV].
  - destruct (proj1 (proj2 C4_ADC_SBC_flags) cpu memory 0x10 0x50 Hwf Hread)
      as (cpu' & Hsbc & _ & HA & HC).
    exists cpu'. split; [exact Hsbc|]. split; [exact HA|exact HC].
Defined.

(** ** The stack *)

Section stack.

Lemma land_pred_succ_0xFF v : byte v → Z.land (Z.land (v - 1) 0xFF + 1) 0xFF = v.
Proof.
  intros Hv. rewrite !land_0xFF, Z.add_mod_idemp_l by lia.
  replace (v - 1 + 1) with v by lia. by apply Z.mod_small.
Qed.

Lemma land_pred_succ_0xFFFF v : word v → Z.land (Z.land (v - 1) 0xFFFF + 1) 0xFFFF = v.
Proof.
  intros Hv. rewrite !land_0xFFFF, Z.add_mod_idemp_l by lia.
  replace (v - 1 + 1) with v by lia. by apply Z.mod_small.
Qed.

Lemma land_pred_0xFF_ne v : byte v → Z.land (v - 1) 0xFF ≠ v.
Proof.
  intros [H0 H1]. rewrite land_0xFF.
  destruct (decide (v = 0)) as [->|]; [done|].
  rewrite Z.mod_small by lia. lia.
Qed.

(** A stack cell lies in memory whenever SP is a byte. *)
Lemma in_memory_stack sp : byte sp → in_memory (STACK_BASE + sp).
Proof. unfold byte, in_memory, STACK_BASE, MEMORY_SIZE. lia. Qed.

(** The two bytes of a word, as [pushWord] splits it. *)
Lemma word_high_byte v : word v → Z.land (Z.shiftr v 8) 0xFF = v / 256.
Proof.
  intros [H0 H1]. rewrite land_0xFF, Z.shiftr_div_pow2 by lia.
  change (2 ^ 8) with 256. apply Z.mod_small.
  split; [apply Z.div_pos; lia|apply Z.div_lt_upper_bound; lia].
Qed.

Lemma byte_div_256 v : word v → byte (v / 256).
Proof.
  intros [H0 H1]. split; [apply Z.div_pos; lia|apply Z.div_lt_upper_bound; lia].
Qed.

(** Pulling right after a push gives back the pushed byte and the stack
    pointer, whatever was written elsewhere in between. *)
Lemma pullByte_after_push cpu (memory : Memory) v :
  byte (SP cpu) →
  mem_read memory (STACK_BASE + SP cpu) = Some v →
  pullByte (set_SP (Z.land (SP cpu - 1) 0xFF) cpu) memory = (cpu, Some v).
Proof.
  intros Hsp Hread. unfold pullByte. cbn [SP set_SP].
  rewrite land_pred_succ_0xFF by done. rewrite Hread. by destruct cpu.
Qed.

(** What [pushWord] leaves: high byte at SP, low byte below it. *)
Lemma pushWord_spec cpu (memory : Memory) v :
  byte (SP cpu) → word v →
  ∃ memory',
    pushWord cpu memory v = (set_SP (Z.land (SP cpu - 2) 0xFF) cpu, memory')
    ∧ mem_read memory' (STACK_BASE + SP cpu) = Some (v / 256)
    ∧ mem_read memory' (STACK_BASE + Z.land (SP cpu - 1) 0xFF) = Some (v mod 256)
    ∧ (∀ other, other ≠ STACK_BASE + SP cpu →
         other ≠ STACK_BASE + Z.land (SP cpu - 1) 0xFF →
         mem_read memory' other = mem_read memory other)
    ∧ (wf_mem memory → wf_mem memory').
Proof.
  intros Hsp Hv. unfold pushWord, pushByte. cbn [SP set_SP].
  assert (Z.land (Z.land (SP cpu - 1) 0xFF - 1) 0xFF = Z.land (SP cpu - 2) 0xFF) as ->.
  { rewrite !land_0xFF, Zminus_mod_idemp_l. f_equal. lia. }
  eexists. split; [reflexivity|split; [|split; [|split]]].
  - rewrite mem_read_write_ne.
    + rewrite word_high_byte by done.
      apply mem_read_write_byte; [by apply in_memory_stack|by apply byte_div_256].
    + pose proof (land_pred_0xFF_ne _ Hsp). lia.
  - rewrite mem_read_write_eq by (apply in_memory_stack, byte_land_0xFF).
    rewrite (land_0xFF v). by rewrite Z.mod_mod.
  - intros other H1 H2. by rewrite !mem_read_write_ne.
  - intros Hwf. by do 2 apply wf_mem_write.
Qed.

(** What [pullWord] returns from a stack that holds a word. *)
Lemma pullWord_spec cpu (memory : Memory) sp high low :
  byte sp → byte high → byte low →
  SP cpu = Z.land (sp - 2) 0xFF →
  mem_read memory (STACK_BASE + sp) = Some high →
  mem_read memory (STACK_BASE + Z.land (sp - 1) 0xFF) = Some low →
  pullWord cpu memory = (set_SP sp cpu, high * 256 + low).
Proof.
  intros Hsp Hh Hl Hcpu Hrh Hrl. unfold pullWord, pullByte. cbn [SP set_SP]. rewrite Hcpu.
  assert (Z.land (Z.land (sp - 2) 0xFF + 1) 0xFF = Z.land (sp - 1) 0xFF) as ->.
  { rewrite !land_0xFF, Z.add_mod_idemp_l by lia. f_equal. lia. }
  rewrite land_pred_succ_0xFF by done. rewrite Hrh, Hrl. cbn [js_int default].
  rewrite lor_shiftl_8 by (done || apply Hh). by destruct cpu.
Qed.

End stack.

(** C5: on a state whose SP is a byte and whose PC is a 16-bit address, JSR
    to [target] pushes [PC - 1] (modulo 65536) high byte first, the high byte
    at [STACK_BASE + SP] and the low byte one cell below (with 8-bit wrap),
    leaves every other cell and register alone, takes 2 off SP modulo 256
    and sets PC to [target]; RTS from that state pulls the word, adds 1 and
    so gives back the very state JSR started from.  From PC = 0x1003 and
    SP = 0xFD, JSR to 0x2000 stores 0x10 at 0x01FD and 0x02 at 0x01FC and
    leaves SP = 0xFB; RTS then restores PC = 0x1003 and SP = 0xFD. *)
Theorem C5_JSR_RTS_round_trip :
  (∀ (cpu : CPUState) (memory : Memory) (target : Z),
     byte (SP cpu) → word (PC cpu) →
     ∃ memory',
       JSR cpu memory target =
         Ok (set_PC target (set_SP (Z.land (SP cpu - 2) 0xFF) cpu), memory')
       ∧ mem_read memory' (STACK_BASE + SP cpu) = Some (Z.land (PC cpu - 1) 0xFFFF / 256)
       ∧ mem_read memory' (STACK_BASE + Z.land (SP cpu - 1) 0xFF) =
           Some (Z.land (PC cpu - 1) 0xFFFF mod 256)
       ∧ (∀ other, other ≠ STACK_BASE + SP cpu →
            other ≠ STACK_BASE + Z.land (SP cpu - 1) 0xFF →
            mem_read memory' other = mem_read memory other)
       ∧ (∀ address,
            RTS (set_PC target (set_SP (Z.land (SP cpu - 2) 0xFF) cpu)) memory' address =
              Ok (cpu, memory')))
  ∧ (let cpu := set_SP 0xFD (set_PC 0x1003 initialCPUState) in
     let memory' : Memory := <[0x01FC := 0x02]> (<[0x01FD := 0x10]> createMemory) in
     JSR cpu createMemory 0x2000 = Ok (set_SP 0xFB (set_PC 0x2000 cpu), memory')
     ∧ RTS (set_SP 0xFB (set_PC 0x2000 cpu)) memory' 0 = Ok (cpu, memory')).
Proof.
  split; [|split; vm_compute; reflexivity].
  intros cpu memory target Hsp Hpc.
  pose proof (word_land_0xFFFF (PC cpu - 1)) as Hw.
  destruct (pushWord_spec cpu memory _ Hsp Hw) as (memory' & Hpush & Hhigh & Hlow & Hother & _).
  exists memory'. unfold JSR. rewrite Hpush.
  split; [done|]. split; [done|]. split; [done|]. split; [done|].
  intros address. unfold RTS.
  rewrite (pullWord_spec (set_PC target (set_SP (Z.land (SP cpu - 2) 0xFF) cpu))
             memory' (SP cpu) _ _ Hsp (byte_div_256 _ Hw) (byte_mod _) eq_refl Hhigh Hlow).
  rewrite Z.mul_comm, <- Z.div_mod by lia.
  rewrite land_pred_succ_0xFFFF by done. by destruct cpu.
Qed.

Lemma C5_JSR_RTS_round_trip_witness :
  let cpu := set_SP 0x00 (set_PC 0x0000 initialCPUState) in
  (byte (SP cpu) ∧ word (PC cpu))
  ∧ ∃ memory',
      JSR cpu createMemory 0x2000 = Ok (set_PC 0x2000 (set_SP 0xFE cpu), memory')
      ∧ mem_read memory' 0x0100 = Some 0xFF
      ∧ mem_read memory' 0x01FF = Some 0xFF
      ∧ RTS (set_PC 0x2000 (set_SP 0xFE cpu)) memory' 0 = Ok (cpu, memory').
Proof.
  intros cpu.
  assert (byte (SP cpu)) as Hsp by (vm_compute; split; [discriminate|reflexivity]).
  assert (word (PC cpu)) as Hpc by (vm_compute; split; [discriminate|reflexivity]).
  split; [by split|].
  destruct (proj1 C5_JSR_RTS_round_trip cpu createMemory 0x2000 Hsp Hpc)
    as (memory' & Hjsr & Hhigh & Hlow & _ & Hrts).
  exists memory'. split; [exact Hjsr|]. split; [exact Hhigh|]. split; [exact Hlow|].
  exact (Hrts 0).
Defined.

(** ** The status register on the stack *)

Section status.

Lemma pushed_status_bits p k :
  0 <= k < 8 →
  Z.testbit (pushed_status p) k = if (k =? 4) || (k =? 5) then true else Z.testbit p k.
Proof.
  intros Hk. unfold pushed_status. change 256 with (2 ^ 8).
  rewrite Z.mod_pow2_bits_low by lia.
  change Flag.B with (2 ^ 4). change Flag.U with (2 ^ 5).
  rewrite !testbit_set by lia. rewrite (Z.eqb_sym k 4), (Z.eqb_sym k 5).
  destruct (4 =? k), (5 =? k); by rewrite ?orb_true_r, ?orb_false_r.
Qed.

Lemma pulled_status_bits b k :
  0 <= k →
  Z.testbit (pulled_status b) k =
    if k =? 4 then false else if k =? 5 then true else Z.testbit b k.
Proof.
  intros Hk. unfold pulled_status.
  change Flag.B with (2 ^ 4). change Flag.U with (2 ^ 5).
  rewrite testbit_set, testbit_clear by lia. rewrite (Z.eqb_sym k 4), (Z.eqb_sym k 5).
  destruct (Z.eqb_spec 4 k) as [<-|H4]; [by rewrite andb_false_r|].
  destruct (5 =? k);
    by rewrite ?orb_true_r, ?orb_false_r, ?andb_true_r, ?andb_false_r.
Qed.

(** A pull always reads a cell of the stack page. *)
Lemma pullByte_reads cpu (memory : Memory) :
  ∃ pulled,
    mem_read memory (STACK_BASE + Z.land (SP cpu + 1) 0xFF) = Some pulled
    ∧ pullByte cpu memory = (set_SP (Z.land (SP cpu + 1) 0xFF) cpu, Some pulled).
Proof.
  unfold pullByte. cbn [SP set_SP].
  rewrite mem_read_inside by apply in_memory_stack, byte_land_0xFF.
  by eexists.
Qed.

Lemma PHP_spec cpu (memory : Memory) address :
  byte (SP cpu) →
  ∃ memory',
    PHP cpu memory address = Ok (set_SP (Z.land (SP cpu - 1) 0xFF) cpu, memory')
    ∧ mem_read memory' (STACK_BASE + SP cpu) = Some (pushed_status (P cpu)).
Proof.
  intros Hsp. unfold PHP, pushByte. eexists. split; [reflexivity|].
  by rewrite mem_read_write_eq by by apply in_memory_stack.
Qed.

Lemma BRK_spec cpu (memory : Memory) address :
  ∃ cpu' memory',
    BRK cpu memory address = Ok (cpu', memory')
    ∧ mem_read memory' (STACK_BASE + Z.land (SP cpu - 2) 0xFF) = Some (pushed_status (P cpu))
    ∧ SP cpu' = Z.land (SP cpu - 3) 0xFF
    ∧ P cpu' = Z.lor (P cpu) Flag.I
    ∧ halted cpu' = true.
Proof.
  unfold BRK, AM.fetchByte, pushWord, pushByte. cbn [SP set_SP PC set_PC P set_P].
  assert (Z.land (Z.land (SP cpu - 1) 0xFF - 1) 0xFF = Z.land (SP cpu - 2) 0xFF) as ->.
  { rewrite !land_0xFF, Zminus_mod_idemp_l. f_equal. lia. }
  assert (Z.land (Z.land (SP cpu - 2) 0xFF - 1) 0xFF = Z.land (SP cpu - 3) 0xFF) as ->.
  { rewrite !land_0xFF, Zminus_mod_idemp_l. f_equal. lia. }
  do 2 eexists. split; [reflexivity|].
  split; [|done].
  by rewrite mem_read_write_eq by apply in_memory_stack, byte_land_0xFF.
Qed.

Lemma PLP_spec cpu (memory : Memory) address :
  ∃ pulled,
    mem_read memory (STACK_BASE + Z.land (SP cpu + 1) 0xFF) = Some pulled
    ∧ PLP cpu memory address =
        Ok (set_P (pulled_status pulled) (set_SP (Z.land (SP cpu + 1) 0xFF) cpu), memory).
Proof.
  destruct (pullByte_reads cpu memory) as (pulled & Hread & Hpull).
  exists pulled. split; [done|]. unfold PLP. by rewrite Hpull.
Qed.

Lemma RTI_spec cpu (memory : Memory) address :
  ∃ pulled cpu',
    mem_read memory (STACK_BASE + Z.land (SP cpu + 1) 0xFF) = Some pulled
    ∧ RTI cpu memory address = Ok (cpu', memory)
    ∧ P cpu' = pulled_status pulled
    ∧ SP cpu' = Z.land (SP cpu + 3) 0xFF.
Proof.
  destruct (pullByte_reads cpu memory) as (pulled & Hread & Hpull).
  exists pulled. unfold RTI. rewrite Hpull.
  unfold pullWord, pullByte. cbn [SP set_SP P set_P].
  eexists. split; [done|]. split; [reflexivity|]. split; [done|].
  cbn [SP set_SP set_PC]. rewrite !land_0xFF, Z.add_mod_idemp_l by lia.
  rewrite <- Z.add_assoc, Z.add_mod_idemp_l by lia. f_equal. lia.
Qed.

End status.

(** C9: PHP, and BRK for its status push, store [P | Flag.B | Flag.U]: the
    stored byte has the Break and unused bits set and the other six bits of
    P.  PLP, and RTI for its status pull, load [(byte & ~Flag.B) | Flag.U]:
    the Break bit of the new P is clear and the unused bit is set whatever
    byte the stack holds, the other bits are those of that byte. *)
Theorem C9_status_push_pull_bits (cpu : CPUState) (memory : Memory) (address : Z) :
  (byte (SP cpu) →
   ∃ memory' stored,
     PHP cpu memory address = Ok (set_SP (Z.land (SP cpu - 1) 0xFF) cpu, memory')
     ∧ mem_read memory' (STACK_BASE + SP cpu) = Some stored
     ∧ Z.testbit stored 4 = true ∧ Z.testbit stored 5 = true
     ∧ (∀ k, 0 <= k < 8 → k ≠ 4 → k ≠ 5 → Z.testbit stored k = Z.testbit (P cpu) k))
  ∧ (∃ cpu' memory' stored,
       BRK cpu memory address = Ok (cpu', memory')
       ∧ mem_read memory' (STACK_BASE + Z.land (SP cpu - 2) 0xFF) = Some stored
       ∧ Z.testbit stored 4 = true ∧ Z.testbit stored 5 = true
       ∧ (∀ k, 0 <= k < 8 → k ≠ 4 → k ≠ 5 → Z.testbit stored k = Z.testbit (P cpu) k))
  ∧ (∃ pulled cpu',
       mem_read memory (STACK_BASE + Z.land (SP cpu + 1) 0xFF) = Some pulled
       ∧ PLP cpu memory address = Ok (cpu', memory)
       ∧ Z.testbit (P cpu') 4 = false ∧ Z.testbit (P cpu') 5 = true
       ∧ (∀ k, 0 <= k → k ≠ 4 → k ≠ 5 → Z.testbit (P cpu') k = Z.testbit pulled k))
  ∧ (∃ pulled cpu',
       mem_read memory (STACK_BASE + Z.land (SP cpu + 1) 0xFF) = Some pulled
       ∧ RTI cpu memory address = Ok (cpu', memory)
       ∧ Z.testbit (P cpu') 4 = false ∧ Z.testbit (P cpu') 5 = true
       ∧ (∀ k, 0 <= k → k ≠ 4 → k ≠ 5 → Z.testbit (P cpu') k = Z.testbit pulled k)).
Proof.
  assert (∀ p, Z.testbit (pushed_status p) 4 = true ∧ Z.testbit (pushed_status p) 5 = true
    ∧ (∀ k, 0 <= k < 8 → k ≠ 4 → k ≠ 5 → Z.testbit (pushed_status p) k = Z.testbit p k))
    as Hpushed.
  { intros p. rewrite !pushed_status_bits by lia. split; [done|]. split; [done|].
    intros k Hk H4 H5. rewrite pushed_status_bits by done.
    by rewrite (proj2 (Z.eqb_neq k 4)), (proj2 (Z.eqb_neq k 5)). }
  assert (∀ b, Z.testbit (pulled_status b) 4 = false ∧ Z.testbit (pulled_status b) 5 = true
    ∧ (∀ k, 0 <= k → k ≠ 4 → k ≠ 5 → Z.testbit (pulled_status b) k = Z.testbit b k))
    as Hpulled.
  { intros b. rewrite !pulled_status_bits by lia. split; [done|]. split; [done|].
    intros k Hk H4 H5. rewrite pulled_status_bits by done.
    by rewrite (proj2 (Z.eqb_neq k 4)), (proj2 (Z.eqb_neq k 5)). }
  split; [|split; [|split]].
  - intros Hsp. destruct (PHP_spec cpu memory address Hsp) as (memory' & Hphp & Hread).
    exists memory', (pushed_status (P cpu)). split; [done|]. split; [done|]. apply Hpushed.
  - destruct (BRK_spec cpu memory address) as (cpu' & memory' & Hbrk & Hread & _).
    exists cpu', memory', (pushed_status (P cpu)). split; [done|]. split; [done|]. apply Hpushed.
  - destruct (PLP_spec cpu memory address) as (pulled & Hread & Hplp).
    exists pulled. eexists. split; [done|]. split; [done|]. apply Hpulled.
  - destruct (RTI_spec cpu memory address) as (pulled & cpu' & Hread & Hrti & HP & _).
    exists pulled, cpu'. split; [done|]. split; [done|]. rewrite HP. apply Hpulled.
Qed.

Lemma C9_status_push_pull_bits_witness :
  let cpu := set_P 0x00 initialCPUState in
  byte (SP cpu)
  ∧ ∃ memory' stored,
      PHP cpu createMemory 0 = Ok (set_SP 0xFC cpu, memory')
      ∧ mem_read memory' 0x01FD = Some stored
      ∧ Z.testbit stored 4 = true ∧ Z.testbit stored 5 = true.
Proof.
  intros cpu.
  assert (byte (SP cpu)) as Hsp by (vm_compute; split; [discriminate|reflexivity]).
  split; [exact Hsp|].
  destruct (proj1 (C9_status_push_pull_bits cpu createMemory 0) Hsp)
    as (memory' & stored & Hphp & Hread & H4 & H5 & _).
  exists memory', stored. split; [exact Hphp|]. split; [exact Hread|].
  split; [exact H4|exact H5].
Defined.

(** ** Branches *)

(** What a taken branch does: the value added to PC is the memory cell whose
    index is the resolved offset ([undefined] when the offset is negative,
    and then PC becomes 0), not the offset. *)
Lemma genericBranch_taken cpu (memory : Memory) offset :
  PC (genericBranch cpu memory offset true) =
    Z.land (js_int (js_add (Some (PC cpu)) (mem_read memory offset))) 0xFFFF.
Proof.
  unfold genericBranch. cbn [PC set_PC set_cycles cycles].
  by destruct (negb _).
Qed.

Lemma genericBranch_not_taken cpu (memory : Memory) offset :
  genericBranch cpu memory offset false = cpu.
Proof. done. Qed.

(** C1: BEQ run as the test suite runs it, with Zero set, PC = 0x10F0, the
    resolved offset +0x20 and a zeroed memory, leaves PC at 0x10F0 and adds
    one cycle: the effect function reads the memory cell 0x0020 and adds its
    content, 0, where PC = 0x1110 and two cycles are expected.  The same
    happens through [step] for the program F0 20 at 0x10EE (PC = 0x10F0 and
    2 + 1 cycles), and a backward branch, whose offset is negative, sends PC
    to 0.  A branch whose condition fails leaves the state alone: BNE with
    Zero set keeps PC and adds no cycle. *)
Theorem C1_branch_adds_memory_cell_not_offset :
  (let cpu := set_P (Z.lor Flag.U Flag.Z) (set_PC 0x10F0 initialCPUState) in
   BEQ cpu createMemory 0x20 = Ok (set_cycles 1 cpu, createMemory)
   ∧ BEQ cpu createMemory (-16) = Ok (set_cycles 2 (set_PC 0 cpu), createMemory)
   ∧ BNE cpu createMemory 0x20 = Ok (cpu, createMemory))
  ∧ (let cpu := set_P (Z.lor Flag.U Flag.Z) (set_PC 0x10EE initialCPUState) in
     let memory : Memory := <[0x10EE := 0xF0]> (<[0x10EF := 0x20]> createMemory) in
     step cpu memory = Ok (set_cycles 3 (set_PC 0x10F0 cpu), memory, []))
  ∧ (∀ (cpu : CPUState) (memory : Memory) (offset : Z),
       PC (genericBranch cpu memory offset true) =
         Z.land (js_int (js_add (Some (PC cpu)) (mem_read memory offset))) 0xFFFF
       ∧ genericBranch cpu memory offset false = cpu).
Proof.
  split; [repeat split; vm_compute; reflexivity|].
  split; [vm_compute; reflexivity|].
  intros. split; [apply genericBranch_taken|apply genericBranch_not_taken].
Qed.

(** ** Reset *)

Lemma resetCPU_spec (memory : Memory) loadAddress :
  (resetCPU memory loadAddress).1 =
    {| A := 0; X := 0; Y := 0;
       PC := match loadAddress with
             | Some a => if a =? 0 then reset_vector memory else a
             | None => reset_vector memory
             end;
       SP := 0xFD; P := Z.lor Flag.U Flag.I; cycles := 0; halted := false |}.
Proof.
  unfold resetCPU, reset_vector.
  rewrite !mem_read_inside by (unfold in_memory, RESET_VECTOR_ADDRESS, MEMORY_SIZE; lia).
  cbn [js_int default fst]. by destruct loadAddress as [a|]; cbn [js_not default];
    [destruct (a =? 0)|].
Qed.

(** C7: [resetCPU] called with the load address 0 on a memory whose reset
    vector holds 0x8000 sets PC to 0x8000, not to the override 0: the test
    [!loadAddress] takes 0 for a missing argument.  In general reset gives
    A = X = Y = 0, SP = 0xFD, P = U | I, cycles 0, halted false, and PC is the
    override when one is given and is not 0, the reset-vector word
    otherwise. *)
Theorem C7_reset_override_zero_reads_vector :
  (let memory : Memory := <[0xFFFC := 0x00]> (<[0xFFFD := 0x80]> createMemory) in
   PC (resetCPU memory (Some 0)).1 = 0x8000
   ∧ PC (resetCPU memory (Some 0x0200)).1 = 0x0200
   ∧ PC (resetCPU memory None).1 = 0x8000)
  ∧ (∀ (memory : Memory) (loadAddress : option Z),
       (resetCPU memory loadAddress).1 =
         {| A := 0; X := 0; Y := 0;
            PC := match loadAddress with
                  | Some a => if a =? 0 then reset_vector memory else a
                  | None => reset_vector memory
                  end;
            SP := 0xFD; P := Z.lor Flag.U Flag.I; cycles := 0; halted := false |}).
Proof.
  split; [repeat split; vm_compute; reflexivity|apply resetCPU_spec].
Qed.

(** ** Disassembly *)

Section disassembly.

Context (memory memory' : Memory).
Hypothesis same_cells : ∀ address, mem_read memory address = mem_read memory' address.

Lemma operandBytes_ext currentAddress j n :
  operandBytes memory currentAddress j n = operandBytes memory' currentAddress j n.
Proof.
  revert j. induction n as [|n IH]; intros j; [done|].
  cbn [operandBytes]. by rewrite same_cells, IH.
Qed.

Lemma disassembleAt_ext currentAddress :
  disassembleAt memory currentAddress = disassembleAt memory' currentAddress.
Proof.
  unfold disassembleAt, operandStr2, operandStr3.
  rewrite !same_cells. destruct (_ ≫= getInstructionDefinition); [|done].
  by rewrite operandBytes_ext.
Qed.

Lemma disassembleFrom_ext n currentAddress :
  disassembleFrom memory n currentAddress = disassembleFrom memory' n currentAddress.
Proof.
  revert currentAddress. induction n as [|n IH]; intros currentAddress; [done|].
  cbn [disassembleFrom]. rewrite disassembleAt_ext.
  case_decide; [|done]. destruct (disassembleAt memory' currentAddress) as [[i len]| |]; [|done..].
  cbn [mbind outcome_bind]. by rewrite IH.
Qed.

End disassembly.

(** The record of an address whose opcode has no table entry, and the one
    byte the walk skips. *)
Lemma disassembleAt_unknown (memory : Memory) currentAddress op :
  mem_read memory currentAddress = Some op →
  getInstructionDefinition op = None →
  disassembleAt memory currentAddress =
    Ok (mkInfo currentAddress op "???" "" [op]
               ("DB $" +:+ padStart 2 "0" (toString16 op)), 1).
Proof.
  intros Hread Hdef. unfold disassembleAt. rewrite Hread. cbn [mbind option_bind].
  by rewrite Hdef.
Qed.

(** ** The masking invariant *)

Section invariant.

Lemma byte_flag_C : byte Flag.C. Proof. by vm_compute. Qed.
Lemma byte_flag_Z : byte Flag.Z. Proof. by vm_compute. Qed.
Lemma byte_flag_I : byte Flag.I. Proof. by vm_compute. Qed.
Lemma byte_flag_D : byte Flag.D. Proof. by vm_compute. Qed.
Lemma byte_flag_B : byte Flag.B. Proof. by vm_compute. Qed.
Lemma byte_flag_U : byte Flag.U. Proof. by vm_compute. Qed.
Lemma byte_flag_V : byte Flag.V. Proof. by vm_compute. Qed.
Lemma byte_flag_N : byte Flag.N. Proof. by vm_compute. Qed.

Lemma byte_if (c : bool) a b : byte a → byte b → byte (if c then a else b).
Proof. by destruct c. Qed.

Lemma byte_0 : byte 0. Proof. by vm_compute. Qed.
Lemma byte_0x80 : byte 0x80. Proof. by vm_compute. Qed.
Lemma byte_1 : byte 1. Proof. by vm_compute. Qed.

Lemma wf_set_A v cpu : byte v → wf_cpu cpu → wf_cpu (set_A v cpu).
Proof. intros ? []. by constructor. Qed.
Lemma wf_set_X v cpu : byte v → wf_cpu cpu → wf_cpu (set_X v cpu).
Proof. intros ? []. by constructor. Qed.
Lemma wf_set_Y v cpu : byte v → wf_cpu cpu → wf_cpu (set_Y v cpu).
Proof. intros ? []. by constructor. Qed.
Lemma wf_set_SP v cpu : byte v → wf_cpu cpu → wf_cpu (set_SP v cpu).
Proof. intros ? []. by constructor. Qed.
Lemma wf_set_P v cpu : byte v → wf_cpu cpu → wf_cpu (set_P v cpu).
Proof. intros ? []. by constructor. Qed.
Lemma wf_set_PC v cpu : word v → wf_cpu cpu → wf_cpu (set_PC v cpu).
Proof. intros ? []. by constructor. Qed.
Lemma wf_set_cycles v cpu : wf_cpu cpu → wf_cpu (set_cycles v cpu).
Proof. intros []. by constructor. Qed.
Lemma wf_set_halted v cpu : wf_cpu cpu → wf_cpu (set_halted v cpu).
Proof. intros []. by constructor. Qed.

Lemma wf_if (c : bool) cpu1 cpu2 :
  wf_cpu cpu1 → wf_cpu cpu2 → wf_cpu (if c then cpu1 else cpu2).
Proof. by destruct c. Qed.

Lemma wf_initial : wf_cpu initialCPUState.
Proof. constructor; by vm_compute. Qed.

End invariant.

(** A flag mask is a byte. *)
Ltac solve_flag :=
  first [ apply byte_flag_C | apply byte_flag_Z | apply byte_flag_I | apply byte_flag_D
        | apply byte_flag_B | apply byte_flag_U | apply byte_flag_V | apply byte_flag_N ].

(** Range goals are solved by following the shape of the value. *)
Ltac solve_byte :=
  lazymatch goal with
  | |- byte (Z.land _ 0xFF) => apply byte_land_0xFF
  | |- byte (_ mod 256) => apply byte_mod
  | |- byte (if _ then _ else _) => apply byte_if; solve_byte
  | |- byte (Z.lor _ _) => apply byte_lor; solve_byte
  | |- byte (Z.lxor _ _) => apply byte_lxor; solve_byte
  | |- byte (Z.shiftr _ 1) => apply byte_shiftr; solve_byte
  | |- byte (Z.land _ _) => apply byte_land_l; solve_byte
  | |- byte (js_int (mem_read _ _)) => by apply js_int_read_byte
  | |- byte (A _) => by apply wf_A
  | |- byte (X _) => by apply wf_X
  | |- byte (Y _) => by apply wf_Y
  | |- byte (SP _) => by apply wf_SP
  | |- byte (P _) => by apply wf_P
  | |- byte _ => first [assumption | solve_flag | (unfold byte; lia)]
  end.

Ltac solve_word :=
  lazymatch goal with
  | |- word (Z.land _ 0xFFFF) => apply word_land_0xFFFF
  | |- word (Z.lor (Z.shiftl _ 8) _) => apply word_lor_shiftl_8; solve_byte
  | |- word (PC _) => by apply wf_PC
  | |- word _ => first [assumption | (unfold word; lia)]
  end.

Ltac solve_wf_mem :=
  lazymatch goal with
  | |- wf_mem (mem_write _ _ _) => apply wf_mem_write; solve_wf_mem
  | |- wf_mem _ => assumption
  end.

Section invariant_effects.

Lemma wf_setZN cpu v : wf_cpu cpu → wf_cpu (setZN cpu v).
Proof.
  intros H. unfold setZN. cbn [P set_P].
  do 2 (apply wf_set_P; [solve_byte|]). done.
Qed.

Lemma wf_setZNC cpu v c : wf_cpu cpu → wf_cpu (setZNC cpu v c).
Proof.
  intros H. unfold setZNC. pose proof (wf_setZN cpu v H).
  apply wf_set_P; [solve_byte|done].
Qed.

Lemma wf_genericBranch cpu (memory : Memory) offset c :
  wf_cpu cpu → wf_cpu (genericBranch cpu memory offset c).
Proof.
  intros H. unfold genericBranch.
  repeat first [apply wf_if | apply wf_set_cycles | apply wf_set_PC; [solve_word|] | done].
Qed.

End invariant_effects.

(** A processor state built from a well-formed one by the setters. *)
Ltac solve_wf_cpu :=
  lazymatch goal with
  | |- wf_cpu (set_A _ _) => apply wf_set_A; [solve_byte|solve_wf_cpu]
  | |- wf_cpu (set_X _ _) => apply wf_set_X; [solve_byte|solve_wf_cpu]
  | |- wf_cpu (set_Y _ _) => apply wf_set_Y; [solve_byte|solve_wf_cpu]
  | |- wf_cpu (set_SP _ _) => apply wf_set_SP; [solve_byte|solve_wf_cpu]
  | |- wf_cpu (set_P _ _) => apply wf_set_P; [solve_byte|solve_wf_cpu]
  | |- wf_cpu (set_PC _ _) => apply wf_set_PC; [solve_word|solve_wf_cpu]
  | |- wf_cpu (set_cycles _ _) => apply wf_set_cycles; solve_wf_cpu
  | |- wf_cpu (set_halted _ _) => apply wf_set_halted; solve_wf_cpu
  | |- wf_cpu (setZN _ _) => apply wf_setZN; solve_wf_cpu
  | |- wf_cpu (setZNC _ _ _) => apply wf_setZNC; solve_wf_cpu
  | |- wf_cpu (genericBranch _ _ _ _) => apply wf_genericBranch; solve_wf_cpu
  | |- wf_cpu (if _ then _ else _) => apply wf_if; solve_wf_cpu
  | |- wf_cpu _ => assumption
  end.

Lemma word_of_byte v : byte v → word v.
Proof. unfold byte, word. lia. Qed.

Lemma word_if (c : bool) a b : word a → word b → word (if c then a else b).
Proof. by destruct c. Qed.

(** Ranges, well-formed states and well-formed memories, by the shape of the goal. *)
Ltac solve_range :=
  lazymatch goal with
  | |- byte (Z.land _ 0xFF) => apply byte_land_0xFF
  | |- byte (_ mod 256) => apply byte_mod
  | |- byte (if _ then _ else _) => apply byte_if; solve_range
  | |- byte (Z.lor _ _) => apply byte_lor; solve_range
  | |- byte (Z.lxor _ _) => apply byte_lxor; solve_range
  | |- byte (Z.shiftr _ 1) => apply byte_shiftr; solve_range
  | |- byte (Z.land _ _) => apply byte_land_l; solve_range
  | |- byte (js_int (mem_read _ _)) => apply js_int_read_byte; solve_range
  | |- byte (js_int (Some ?v)) => change (byte v); solve_range
  | |- byte (default 0 (_ !! _)) => apply byte_cell; solve_range
  | |- byte (A _) => apply wf_A; solve_range
  | |- byte (X _) => apply wf_X; solve_range
  | |- byte (Y _) => apply wf_Y; solve_range
  | |- byte (SP _) => apply wf_SP; solve_range
  | |- byte (P _) => apply wf_P; solve_range
  | |- byte _ => first [assumption | solve_flag | (unfold byte; lia)]
  | |- word (Z.land _ 0xFFFF) => apply word_land_0xFFFF
  | |- word (Z.lor (Z.shiftl _ 8) _) => apply word_lor_shiftl_8; solve_range
  | |- word (Z.lor _ (Z.shiftl _ 8)) =>
      rewrite Z.lor_comm; apply word_lor_shiftl_8; solve_range
  | |- word (PC _) => apply wf_PC; solve_range
  | |- word (Z.land _ 0xFF) => apply word_of_byte; solve_range
  | |- word (default 0 (_ !! _)) => apply word_of_byte; solve_range
  | |- word (if _ then _ else _) => apply word_if; solve_range
  | |- word _ => first [assumption | (unfold word; lia)]
  | |- in_memory _ => change in_memory with word; solve_range
  | |- wf_cpu (set_A _ _) => apply wf_set_A; solve_range
  | |- wf_cpu (set_X _ _) => apply wf_set_X; solve_range
  | |- wf_cpu (set_Y _ _) => apply wf_set_Y; solve_range
  | |- wf_cpu (set_SP _ _) => apply wf_set_SP; solve_range
  | |- wf_cpu (set_P _ _) => apply wf_set_P; solve_range
  | |- wf_cpu (set_PC _ _) => apply wf_set_PC; solve_range
  | |- wf_cpu (set_cycles _ _) => apply wf_set_cycles; solve_range
  | |- wf_cpu (set_halted _ _) => apply wf_set_halted; solve_range
  | |- wf_cpu (setZN _ _) => apply wf_setZN; solve_range
  | |- wf_cpu (setZNC _ _ _) => apply wf_setZNC; solve_range
  | |- wf_cpu (genericBranch _ _ _ _) => apply wf_genericBranch; solve_range
  | |- wf_cpu (if _ then _ else _) => apply wf_if; solve_range
  | |- wf_cpu _ => assumption
  | |- wf_mem (mem_write _ _ _) => apply wf_mem_write; solve_range
  | |- wf_mem _ => assumption
  end.

Section invariant_step.

(** Every effect function returns, and keeps registers and memory in range. *)
Lemma run_wf op cpu (memory : Memory) address :
  wf_cpu cpu → wf_mem memory →
  (needs_address op = true → in_memory address) →
  ∃ cpu' memory',
    run op cpu memory address = Ok (cpu', memory') ∧ wf_cpu cpu' ∧ wf_mem memory'.
Proof.
  intros Hcpu Hmem Haddr.
  destruct op; cbn [needs_address] in Haddr; try specialize (Haddr eq_refl);
    cbv beta iota zeta delta
      [run LDA LDX LDY STA STX STY ADC SBC BEQ BNE BCS BCC BMI BPL BVS BVC
       JMP JSR RTS RTI INC INX INY DEC DEX DEY CMP CPX CPY AND ORA EOR BIT
       ASL_A ASL_M LSR_A LSR_M ROL_A ROL_M ROR_A ROR_M PHA PHP PLA PLP
       TAX TXA TAY TYA TSX TXS CLC SEC CLI SEI CLD SED CLV NOP BRK
       pushWord pushByte pullWord pullByte AM.fetchByte];
    rewrite ?(mem_read_inside memory address) by done;
    try (rewrite (mem_read_inside memory (STACK_BASE + _))
           by (apply in_memory_stack; cbn [SP set_SP]; solve_range));
    cbn [numeric mbind outcome_bind];
    (do 2 eexists; split; [reflexivity|]; split; solve_range).
Qed.

End invariant_step.

Section invariant_modes.


Lemma table_relative_only_on_branches :
  map_Forall (λ _ d, relative_only_on_branches d = true) instructionSet.
Proof.
  refine (bool_decide_unpack _ _).
  vm_compute. exact I.
Qed.

End invariant_modes.

Section invariant_run.




End invariant_run.



(** INX on X = 0xFF, PHA on SP = 0x00 and a NOP at 0xFFFF: X, SP and PC wrap. *)
Example steps_wrap_around :
  let cpu := set_X 0xFF (set_SP 0x00 (set_PC 0xFFFD initialCPUState)) in
  let memory : Memory :=
    <[0xFFFD := 0xE8]> (<[0xFFFE := 0x48]> (<[0xFFFF := 0xEA]> createMemory)) in
  ∃ cpu' memory',
    steps 3 cpu memory = Ok (cpu', memory')
    ∧ X cpu' = 0x00 ∧ SP cpu' = 0xFF ∧ PC cpu' = 0x0000.
Proof. do 2 eexists. split; [vm_compute; reflexivity|done]. Qed.


(** * Further properties of the code *)

(** ** Addressing modes *)

Section addressing.

(** The page of a 16-bit address, as [& 0xFF00] selects it. *)
Lemma land_0xFF00 v : word v → Z.land v 0xFF00 = 256 * (v / 256).
Proof.
  intros [H0 H1].
  assert (Z.land v 0xFFFF = v) as Hv by (rewrite land_0xFFFF; apply Z.mod_small; lia).
  assert (Z.land (Z.land v 0xFF00) (Z.land v 0xFF) = 0) as Hdisj.
  { rewrite Z.land_assoc, (Z.land_comm (Z.land v 0xFF00) v), Z.land_assoc, Z.land_diag.
    rewrite <- Z.land_assoc. change (Z.land 0xFF00 0xFF) with 0. apply Z.land_0_r. }
  change 0xFFFF with (Z.lor 0xFF00 0xFF) in Hv.
  rewrite Z.land_lor_distr_r in Hv.
  rewrite <- Z.lxor_lor, <- Z.add_nocarry_lxor in Hv by done.
  rewrite land_0xFF in Hv. pose proof (Z.div_mod v 256). lia.
Qed.

(** Indexing crosses a page exactly when the low byte of the base plus the
    index overflows a byte. *)
Lemma page_crossed_iff base index :
  word base → byte index →
  negb (Z.land base 0xFF00 =? Z.land (Z.land (base + index) 0xFFFF) 0xFF00)
  = (256 <=? base mod 256 + index).
Proof.
  intros Hb Hi. rewrite !land_0xFF00 by (done || apply word_land_0xFFFF).
  rewrite land_0xFFFF. destruct Hb as [Hb0 Hb1], Hi as [Hi0 Hi1].
  pose proof (Z.div_mod base 256 ltac:(lia)) as Hbase.
  pose proof (Z.mod_pos_bound base 256 ltac:(lia)) as Hl.
  assert (0 <= base / 256 < 256) as Hh
    by (split; [apply Z.div_pos; lia|apply Z.div_lt_upper_bound; lia]).
  set (h := base / 256) in *. set (l := base mod 256) in *.
  destruct (Z.leb_spec 256 (l + index)) as [Hc|Hc].
  - apply negb_true_iff, Z.eqb_neq.
    destruct (decide (h = 255)) as [Hh255|Hh255].
    + assert ((base + index) mod 65536 = l + index - 256) as ->.
      { symmetry. apply (Z.mod_unique_pos _ _ 1); lia. }
      rewrite (Z.div_small (l + index - 256)) by lia. lia.
    + rewrite (Z.mod_small (base + index)) by lia.
      assert ((base + index) / 256 = h + 1) as ->.
      { symmetry. apply (Z.div_unique_pos _ _ _ (l + index - 256)); lia. }
      lia.
  - apply negb_false_iff, Z.eqb_eq.
    rewrite (Z.mod_small (base + index)) by lia.
    assert ((base + index) / 256 = h) as ->.
    { symmetry. apply (Z.div_unique_pos _ _ _ (l + index)); lia. }
    done.
Qed.

Lemma js_int_Some v : js_int (Some v) = v.
Proof. done. Qed.

(** [fetchByte] on a program counter inside memory. *)
Lemma fetchByte_spec cpu (memory : Memory) operand :
  mem_read memory (PC cpu) = Some operand →
  AM.fetchByte cpu memory = (set_PC (Z.land (PC cpu + 1) 0xFFFF) cpu, Some operand).
Proof. intros H. unfold AM.fetchByte. by rewrite H. Qed.

End addressing.

(** X1: the zero-page indexed modes wrap inside page 0.  With the operand
    byte at PC, Zero Page,X and Zero Page,Y resolve
    [(operand + index) mod 256], an address below 256, and advance PC by
    one; Indexed Indirect and Indirect Indexed fetch the high byte of their
    pointer at [(pointer + 1) mod 256], in page 0 too, so a pointer at 0xFF
    takes its high byte from 0x00. *)
Theorem X1_zero_page_modes_wrap (cpu : CPUState) (memory : Memory) (operand : Z) :
  wf_mem memory →
  mem_read memory (PC cpu) = Some operand →
  let next := set_PC (Z.land (PC cpu + 1) 0xFFFF) cpu in
  (AM.ZPX cpu memory = Ok (next, mkAddr ((operand + X cpu) mod 256) None)
   ∧ AM.ZPY cpu memory = Ok (next, mkAddr ((operand + Y cpu) mod 256) None)
   ∧ byte ((operand + X cpu) mod 256) ∧ byte ((operand + Y cpu) mod 256))
  ∧ (∃ low high,
       let pointer := (operand + X cpu) mod 256 in
       mem_read memory pointer = Some low
       ∧ mem_read memory ((pointer + 1) mod 256) = Some high
       ∧ AM.IZX cpu memory = Ok (next, mkAddr (high * 256 + low) None))
  ∧ (∃ low high,
       mem_read memory operand = Some low
       ∧ mem_read memory ((operand + 1) mod 256) = Some high
       ∧ AM.IZY cpu memory =
           Ok (next, mkAddr ((high * 256 + low + Y cpu) mod 65536)
                            (Some (negb (Z.land (high * 256 + low) 0xFF00
                                         =? Z.land ((high * 256 + low + Y cpu) mod 65536) 0xFF00))))).
Proof.
  intros Hwf Hread next.
  assert (∀ v, in_memory (v mod 256)) as Hin.
  { intros v. change in_memory with word. apply word_of_byte, byte_mod. }
  assert (byte operand) as Hop by (by eapply mem_read_byte).
  split; [|split].
  - unfold AM.ZPX, AM.ZPY. rewrite (fetchByte_spec _ _ _ Hread).
    cbn [js_add X Y set_PC]. rewrite !js_int_Some, !land_0xFF.
    repeat split; apply byte_mod.
  - exists (default 0 (memory !! ((operand + X cpu) mod 256))),
      (default 0 (memory !! (((operand + X cpu) mod 256 + 1) mod 256))).
    cbn zeta. split; [by apply mem_read_inside|]. split; [by apply mem_read_inside|].
    unfold AM.IZX. rewrite (fetchByte_spec _ _ _ Hread).
    cbn [js_add X set_PC]. rewrite !js_int_Some, !land_0xFF.
    rewrite !mem_read_inside by done. rewrite !js_int_Some.
    rewrite lor_shiftl_8;
      [done|apply (proj1 (byte_cell _ _ Hwf))|by apply byte_cell].
  - exists (default 0 (memory !! operand)), (default 0 (memory !! ((operand + 1) mod 256))).
    assert (in_memory operand) as Hino by (by apply word_of_byte).
    split; [by apply mem_read_inside|]. split; [by apply mem_read_inside|].
    unfold AM.IZY. rewrite (fetchByte_spec _ _ _ Hread).
    cbn [numeric mbind outcome_bind Y set_PC]. rewrite !land_0xFF, !land_0xFFFF.
    rewrite !mem_read_inside by done. rewrite !js_int_Some.
    rewrite lor_shiftl_8_comm;
      [by subst next; rewrite land_0xFFFF
      |apply (proj1 (byte_cell _ _ Hwf))|by apply byte_cell].
Qed.

Lemma X1_zero_page_modes_wrap_witness :
  let cpu := set_X 0x10 (set_PC 0x0200 initialCPUState) in
  let memory : Memory := <[0x0200 := 0xF8]> createMemory in
  (wf_mem memory ∧ mem_read memory (PC cpu) = Some 0xF8)
  ∧ AM.ZPX cpu memory = Ok (set_PC 0x0201 cpu, mkAddr 0x08 None).
Proof.
  intros cpu memory.
  assert (wf_mem memory) as Hwf.
  { apply map_Forall_insert_2; [unfold byte; lia|apply map_Forall_empty]. }
  assert (mem_read memory (PC cpu) = Some 0xF8) as Hread by (vm_compute; reflexivity).
  split; [by split|].
  exact (proj1 (proj1 (X1_zero_page_modes_wrap cpu memory 0xF8 Hwf Hread))).
Defined.

(** X2: the indexed absolute modes add the index register to the 16-bit
    operand modulo 65536, advance PC by two, and report a page crossing
    exactly when the low byte of the operand plus the index exceeds 255;
    Indirect Indexed reports it for its base and Y by the same rule. *)
Theorem X2_indexed_page_crossing (cpu : CPUState) (memory : Memory) (low high : Z) :
  wf_mem memory → wf_cpu cpu →
  mem_read memory (PC cpu) = Some low →
  mem_read memory (Z.land (PC cpu + 1) 0xFFFF) = Some high →
  let base := high * 256 + low in
  let next := set_PC (Z.land (PC cpu + 2) 0xFFFF) cpu in
  AM.ABSX cpu memory =
    Ok (next, mkAddr ((base + X cpu) mod 65536) (Some (256 <=? low + X cpu)))
  ∧ AM.ABSY cpu memory =
      Ok (next, mkAddr ((base + Y cpu) mod 65536) (Some (256 <=? low + Y cpu)))
  ∧ (∀ index, byte index →
       negb (Z.land base 0xFF00 =? Z.land ((base + index) mod 65536) 0xFF00)
       = (256 <=? low + index)).
Proof.
  intros Hwf Hcpu Hl Hh base next.
  pose proof (mem_read_byte _ _ _ Hwf Hl) as Hbl.
  pose proof (mem_read_byte _ _ _ Hwf Hh) as Hbh.
  assert (word base) as Hbase by (unfold word, byte, base in *; lia).
  assert (base mod 256 = low) as Hlow.
  { unfold base. rewrite Z.add_comm, Z.mod_add by lia. apply Z.mod_small, Hbl. }
  assert (∀ index, byte index →
            negb (Z.land base 0xFF00 =? Z.land ((base + index) mod 65536) 0xFF00)
            = (256 <=? low + index)) as Hcross.
  { intros index Hi. rewrite <- land_0xFFFF, <- Hlow. by apply page_crossed_iff. }
  split; [|split; [|done]].
  - unfold AM.ABSX. rewrite (fetchWord_spec cpu memory low high) by done.
    fold base. cbn [X set_PC]. by rewrite (land_0xFFFF (base + X cpu)), Hcross by apply Hcpu.
  - unfold AM.ABSY. rewrite (fetchWord_spec cpu memory low high) by done.
    fold base. cbn [Y set_PC]. by rewrite (land_0xFFFF (base + Y cpu)), Hcross by apply Hcpu.
Qed.

Lemma X2_indexed_page_crossing_witness :
  let cpu := set_X 0x01 (set_PC 0x0200 initialCPUState) in
  let memory : Memory := <[0x0200 := 0xFF]> (<[0x0201 := 0xFF]> createMemory) in
  (wf_mem memory ∧ wf_cpu cpu ∧ mem_read memory (PC cpu) = Some 0xFF
   ∧ mem_read memory (Z.land (PC cpu + 1) 0xFFFF) = Some 0xFF)
  ∧ AM.ABSX cpu memory = Ok (set_PC 0x0202 cpu, mkAddr 0x0000 (Some true)).
Proof.
  intros cpu memory.
  assert (wf_mem memory) as Hwf.
  { repeat (apply map_Forall_insert_2; [unfold byte; lia|]). apply map_Forall_empty. }
  assert (wf_cpu cpu) as Hcpu
    by (constructor; vm_compute; (split; [discriminate|reflexivity])).
  assert (mem_read memory (PC cpu) = Some 0xFF) as Hl by (vm_compute; reflexivity).
  assert (mem_read memory (Z.land (PC cpu + 1) 0xFFFF) = Some 0xFF) as Hh
    by (vm_compute; reflexivity).
  split; [exact (conj Hwf (conj Hcpu (conj Hl Hh)))|].
  exact (proj1 (X2_indexed_page_crossing cpu memory 0xFF 0xFF Hwf Hcpu Hl Hh)).
Defined.

(** X3: the Relative mode decodes the operand byte as a two's-complement
    number: the result lies in [-128, 127] and is congruent to the operand
    modulo 256; PC advances by one. *)
Theorem X3_relative_offset_signed (cpu : CPUState) (memory : Memory) (operand : Z) :
  wf_mem memory →
  mem_read memory (PC cpu) = Some operand →
  ∃ offset,
    AM.REL cpu memory = Ok (set_PC (Z.land (PC cpu + 1) 0xFFFF) cpu, mkAddr offset None)
    ∧ -128 <= offset < 128
    ∧ offset mod 256 = operand.
Proof.
  intros Hwf Hread. pose proof (mem_read_byte _ _ _ Hwf Hread) as [H0 H1].
  unfold AM.REL. rewrite (fetchByte_spec _ _ _ Hread). cbn [numeric mbind outcome_bind].
  eexists. split; [reflexivity|].
  destruct (Z.ltb_spec 127 operand).
  - split; [lia|]. replace (operand - 256) with (operand + (-1) * 256) by lia.
    rewrite Z.mod_add by lia. apply Z.mod_small; lia.
  - split; [lia|]. apply Z.mod_small; lia.
Qed.

Lemma X3_relative_offset_signed_witness :
  let cpu := set_PC 0x0200 initialCPUState in
  let memory : Memory := <[0x0200 := 0xF0]> createMemory in
  (wf_mem memory ∧ mem_read memory (PC cpu) = Some 0xF0)
  ∧ ∃ offset,
      AM.REL cpu memory = Ok (set_PC (Z.land (PC cpu + 1) 0xFFFF) cpu, mkAddr offset None)
      ∧ -128 <= offset < 128
      ∧ offset mod 256 = 0xF0.
Proof.
  intros cpu memory.
  assert (wf_mem memory) as Hwf.
  { apply map_Forall_insert_2; [unfold byte; lia|apply map_Forall_empty]. }
  assert (mem_read memory (PC cpu) = Some 0xF0) as Hread by (vm_compute; reflexivity).
  split; [by split|].
  exact (X3_relative_offset_signed cpu memory 0xF0 Hwf Hread).
Defined.

(** ** Stack round trips *)

Section stack_round_trips.

Lemma mod_shift_ne a d : 0 < d < 256 → (a - d) mod 256 ≠ a mod 256.
Proof.
  intros Hd Heq.
  assert ((a mod 256 - (a - d) mod 256) mod 256 = d) as H.
  { rewrite <- Zminus_mod. replace (a - (a - d)) with d by lia. apply Z.mod_small. lia. }
  rewrite Heq, Z.sub_diag in H. rewrite Z.mod_0_l in H; lia.
Qed.

Lemma land_0xFF_byte v : byte v → Z.land v 0xFF = v.
Proof. intros. rewrite land_0xFF. by apply Z.mod_small. Qed.

(** [PHA] and what it leaves on the stack. *)
Lemma PHA_spec cpu (memory : Memory) address :
  byte (SP cpu) → byte (A cpu) →
  ∃ memory',
    PHA cpu memory address = Ok (set_SP (Z.land (SP cpu - 1) 0xFF) cpu, memory')
    ∧ mem_read memory' (STACK_BASE + SP cpu) = Some (A cpu)
    ∧ (∀ other, other ≠ STACK_BASE + SP cpu → mem_read memory' other = mem_read memory other).
Proof.
  intros Hsp Ha. unfold PHA, pushByte. eexists. split; [reflexivity|]. split.
  - by apply mem_read_write_byte; [apply in_memory_stack|].
  - intros other Hne. by apply mem_read_write_ne.
Qed.

End stack_round_trips.

(** X4: PHA followed by PLA gives the accumulator back.  On a state whose SP
    and A are bytes, PHA stores A at [STACK_BASE + SP], touches no other
    cell and lowers SP by one modulo 256; PLA from there, whatever the
    accumulator holds by then, restores A and SP and sets Zero and Negative
    from A. *)
Theorem X4_PHA_PLA_round_trip (cpu : CPUState) (memory : Memory) (address : Z) :
  byte (SP cpu) → byte (A cpu) →
  ∃ memory',
    PHA cpu memory address = Ok (set_SP (Z.land (SP cpu - 1) 0xFF) cpu, memory')
    ∧ mem_read memory' (STACK_BASE + SP cpu) = Some (A cpu)
    ∧ (∀ other, other ≠ STACK_BASE + SP cpu → mem_read memory' other = mem_read memory other)
    ∧ (∀ a address',
         PLA (set_A a (set_SP (Z.land (SP cpu - 1) 0xFF) cpu)) memory' address' =
           Ok (setZN cpu (Some (A cpu)), memory')).
Proof.
  intros Hsp Ha.
  destruct (PHA_spec cpu memory address Hsp Ha) as (memory' & Hpha & Hread & Hother).
  exists memory'. split; [done|]. split; [done|]. split; [done|].
  intros a address'. unfold PLA.
  assert (pullByte (set_A a (set_SP (Z.land (SP cpu - 1) 0xFF) cpu)) memory'
          = (set_A a cpu, Some (A cpu))) as ->
    by exact (pullByte_after_push (set_A a cpu) memory' (A cpu) Hsp Hread).
  by destruct cpu.
Qed.

Lemma X4_PHA_PLA_round_trip_witness :
  let cpu := set_A 0x80 (set_SP 0x00 initialCPUState) in
  (byte (SP cpu) ∧ byte (A cpu))
  ∧ ∃ memory',
      PHA cpu createMemory 0 = Ok (set_SP 0xFF cpu, memory')
      ∧ mem_read memory' 0x0100 = Some 0x80
      ∧ PLA (set_A 0x00 (set_SP 0xFF cpu)) memory' 0 = Ok (setZN cpu (Some 0x80), memory').
Proof.
  intros cpu.
  assert (byte (SP cpu)) as Hsp by (vm_compute; split; [discriminate|reflexivity]).
  assert (byte (A cpu)) as Ha by (vm_compute; split; [discriminate|reflexivity]).
  split; [by split|].
  destruct (X4_PHA_PLA_round_trip cpu createMemory 0 Hsp Ha)
    as (memory' & Hpha & Hread & _ & Hpla).
  exists memory'. split; [exact Hpha|]. split; [exact Hread|]. exact (Hpla 0x00 0).
Defined.

(** X5: PHP followed by PLP gives the status register back but for the
    Break bit, which comes back clear, and the unused bit, which comes back
    set; SP is restored. *)
Theorem X5_PHP_PLP_round_trip (cpu : CPUState) (memory : Memory) (address : Z) :
  byte (SP cpu) → byte (P cpu) →
  ∃ cpu1 memory1 cpu2,
    PHP cpu memory address = Ok (cpu1, memory1)
    ∧ (∀ p address', PLP (set_P p cpu1) memory1 address' = Ok (cpu2, memory1))
    ∧ SP cpu2 = SP cpu
    ∧ Z.testbit (P cpu2) 4 = false ∧ Z.testbit (P cpu2) 5 = true
    ∧ (∀ k, 0 <= k → k ≠ 4 → k ≠ 5 → Z.testbit (P cpu2) k = Z.testbit (P cpu) k)
    ∧ A cpu2 = A cpu ∧ X cpu2 = X cpu ∧ Y cpu2 = Y cpu ∧ PC cpu2 = PC cpu.
Proof.
  intros Hsp Hp.
  destruct (PHP_spec cpu memory address Hsp) as (memory1 & Hphp & Hread).
  exists (set_SP (Z.land (SP cpu - 1) 0xFF) cpu), memory1,
    (set_P (pulled_status (pushed_status (P cpu))) cpu).
  split; [done|]. split.
  - intros p address'. unfold PLP.
    assert (pullByte (set_P p (set_SP (Z.land (SP cpu - 1) 0xFF) cpu)) memory1
            = (set_P p cpu, Some (pushed_status (P cpu)))) as ->
      by exact (pullByte_after_push (set_P p cpu) memory1 _ Hsp Hread).
    by destruct cpu.
  - cbn [SP P A X Y PC set_P]. split; [done|].
    rewrite !pulled_status_bits by lia. split; [done|]. split; [done|].
    split; [|done]. intros k Hk H4 H5. rewrite pulled_status_bits by done.
    rewrite (proj2 (Z.eqb_neq k 4)), (proj2 (Z.eqb_neq k 5)) by done.
    destruct (decide (k < 8)).
    + rewrite pushed_status_bits by lia.
      by rewrite (proj2 (Z.eqb_neq k 4)), (proj2 (Z.eqb_neq k 5)).
    + unfold pushed_status. change 256 with (2 ^ 8).
      rewrite Z.mod_pow2_bits_high by lia.
      destruct (decide (P cpu = 0)) as [->|]; [by rewrite Z.bits_0|].
      symmetry. apply Z.bits_above_log2; [apply Hp|].
      assert (Z.log2 (P cpu) < 8) by (apply Z.log2_lt_pow2; unfold byte in Hp; lia). lia.
Qed.

Lemma X5_PHP_PLP_round_trip_witness :
  let cpu := set_P 0xFF initialCPUState in
  (byte (SP cpu) ∧ byte (P cpu))
  ∧ ∃ cpu1 memory1 cpu2,
      PHP cpu createMemory 0 = Ok (cpu1, memory1)
      ∧ PLP (set_P 0x00 cpu1) memory1 0 = Ok (cpu2, memory1)
      ∧ SP cpu2 = SP cpu
      ∧ Z.testbit (P cpu2) 4 = false ∧ Z.testbit (P cpu2) 5 = true.
Proof.
  intros cpu.
  assert (byte (SP cpu)) as Hsp by (vm_compute; split; [discriminate|reflexivity]).
  assert (byte (P cpu)) as Hp by (vm_compute; split; [discriminate|reflexivity]).
  split; [by split|].
  destruct (X5_PHP_PLP_round_trip cpu createMemory 0 Hsp Hp)
    as (cpu1 & memory1 & cpu2 & Hphp & Hplp & Hsp2 & H4 & H5 & _).
  exists cpu1, memory1, cpu2. split; [exact Hphp|]. split; [exact (Hplp 0x00 0)|].
  split; [exact Hsp2|]. split; [exact H4|exact H5].
Defined.

(** X6: RTI undoes the pushes of BRK.  BRK skips its padding byte, pushes
    that program counter and the status, sets Interrupt-Disable and halts
    with SP lowered by three; RTI from there restores SP, returns to the
    address after the padding byte and reloads the status BRK found, Break
    clear and unused set, and leaves the processor halted. *)
Theorem X6_BRK_RTI_round_trip (cpu : CPUState) (memory : Memory) (address address' : Z) :
  byte (SP cpu) → byte (P cpu) →
  ∃ cpu1 memory1 cpu2,
    BRK cpu memory address = Ok (cpu1, memory1)
    ∧ halted cpu1 = true
    ∧ P cpu1 = Z.lor (P cpu) Flag.I
    ∧ SP cpu1 = Z.land (SP cpu - 3) 0xFF
    ∧ PC cpu1 = Z.land (PC cpu + 1) 0xFFFF
    ∧ RTI cpu1 memory1 address' = Ok (cpu2, memory1)
    ∧ PC cpu2 = Z.land (PC cpu + 1) 0xFFFF
    ∧ SP cpu2 = SP cpu
    ∧ P cpu2 = pulled_status (pushed_status (P cpu))
    ∧ halted cpu2 = true.
Proof.
  intros Hsp Hp.
  set (cpuF := set_PC (Z.land (PC cpu + 1) 0xFFFF) cpu).
  assert (word (PC cpuF)) as Hw by apply word_land_0xFFFF.
  destruct (pushWord_spec cpuF memory (PC cpuF) Hsp Hw)
    as (memoryW & Hpush & Hhigh & Hlow & _).
  cbn [SP cpuF set_PC] in Hpush, Hhigh, Hlow.
  set (sp2 := Z.land (SP cpu - 2) 0xFF) in *.
  assert (byte sp2) as Hsp2 by apply byte_land_0xFF.
  set (memory1 := mem_write memoryW (STACK_BASE + sp2) (Z.lor (Z.lor (P cpu) Flag.B) Flag.U)).
  set (cpu1 := set_halted true (set_P (Z.lor (P cpu) Flag.I)
                 (set_SP (Z.land (sp2 - 1) 0xFF) cpuF))).
  assert (BRK cpu memory address = Ok (cpu1, memory1)) as Hbrk.
  { unfold BRK, AM.fetchByte. fold cpuF. rewrite Hpush. reflexivity. }
  assert (sp2 ≠ SP cpu ∧ sp2 ≠ Z.land (SP cpu - 1) 0xFF) as [Hne1 Hne2].
  { unfold sp2. rewrite !land_0xFF. split.
    - rewrite <- (Z.mod_small (SP cpu) 256) at 2 by apply Hsp. apply mod_shift_ne. lia.
    - replace (SP cpu - 2) with (SP cpu - 1 - 1) by lia. apply mod_shift_ne. lia. }
  assert (mem_read memory1 (STACK_BASE + sp2) = Some (pushed_status (P cpu))) as Hstatus.
  { unfold memory1. by rewrite mem_read_write_eq by by apply in_memory_stack. }
  assert (pullByte cpu1 memory1
          = (set_halted true (set_P (Z.lor (P cpu) Flag.I) (set_SP sp2 cpuF)),
             Some (pushed_status (P cpu)))) as Hpull.
  { exact (pullByte_after_push
             (set_halted true (set_P (Z.lor (P cpu) Flag.I) (set_SP sp2 cpuF)))
             memory1 _ Hsp2 Hstatus). }
  set (cpuP := set_P (pulled_status (pushed_status (P cpu)))
                 (set_halted true (set_P (Z.lor (P cpu) Flag.I) (set_SP sp2 cpuF)))).
  assert (pullWord cpuP memory1
          = (set_SP (SP cpu) cpuP, PC cpuF / 256 * 256 + PC cpuF mod 256)) as Hword.
  { apply (pullWord_spec cpuP memory1 (SP cpu)); [done|by apply byte_div_256|apply byte_mod|done|..].
    - unfold memory1. rewrite mem_read_write_ne by lia. exact Hhigh.
    - unfold memory1. rewrite mem_read_write_ne by lia. exact Hlow. }
  exists cpu1, memory1, (set_PC (PC cpuF) (set_SP (SP cpu) cpuP)).
  split; [done|]. split; [done|]. split; [done|].
  split. { cbn [SP cpu1 set_halted set_P set_SP]. unfold sp2.
           rewrite !land_0xFF, Zminus_mod_idemp_l. f_equal. lia. }
  split; [done|]. split; [|done].
  unfold RTI. rewrite Hpull.
  change (pullWord _ memory1) with (pullWord cpuP memory1). rewrite Hword.
  rewrite Z.mul_comm, <- Z.div_mod by lia. done.
Qed.

Lemma X6_BRK_RTI_round_trip_witness :
  let cpu := set_PC 0x0201 initialCPUState in
  (byte (SP cpu) ∧ byte (P cpu))
  ∧ ∃ cpu1 memory1 cpu2,
      BRK cpu createMemory 0 = Ok (cpu1, memory1)
      ∧ halted cpu1 = true
      ∧ RTI cpu1 memory1 0 = Ok (cpu2, memory1)
      ∧ PC cpu2 = Z.land (PC cpu + 1) 0xFFFF
      ∧ SP cpu2 = SP cpu.
Proof.
  intros cpu.
  assert (byte (SP cpu)) as Hsp by (vm_compute; split; [discriminate|reflexivity]).
  assert (byte (P cpu)) as Hp by (vm_compute; split; [discriminate|reflexivity]).
  split; [by split|].
  destruct (X6_BRK_RTI_round_trip cpu createMemory 0 0 Hsp Hp)
    as (cpu1 & memory1 & cpu2 & Hbrk & Hh & _ & _ & _ & Hrti & Hpc & Hsp2 & _).
  exists cpu1, memory1, cpu2. split; [exact Hbrk|]. split; [exact Hh|].
  split; [exact Hrti|]. split; [exact Hpc|exact Hsp2].
Defined.

(** ** Compare, increment and decrement *)

Section compare.

Lemma sub_mod_256_eqb_0 r m : byte r → byte m → ((r - m) mod 256 =? 0) = (r =? m).
Proof.
  intros [Hr0 Hr1] [Hm0 Hm1]. destruct (Z.eqb_spec r m) as [->|Hne].
  - by rewrite Z.sub_diag.
  - apply Z.eqb_neq. destruct (decide (m < r)).
    + rewrite Z.mod_small; lia.
    + replace (r - m) with (r - m + 256 + (-1) * 256) by lia.
      rewrite Z.mod_add, Z.mod_small; lia.
Qed.

Lemma compared_spec cpu r m :
  byte r → byte m →
  compared (P cpu) r m
    (if js_ge r (Some m)
     then Z.lor (P (setZN cpu (Some (Z.land (js_int (js_sub (Some r) (Some m))) 0xFF)))) Flag.C
     else Z.land (P (setZN cpu (Some (Z.land (js_int (js_sub (Some r) (Some m))) 0xFF))))
                 (Z.lnot Flag.C)).
Proof.
  intros Hr Hm. cbn [js_ge js_sub]. rewrite js_int_Some, land_0xFF.
  change Flag.C with (2 ^ 0). unfold compared.
  rewrite !testbit_assign, !setZN_bits by lia.
  cbn [js_is_zero js_int default]. rewrite sub_mod_256_eqb_0 by done.
  split; [done|]. split; [done|]. split; [done|].
  intros k Hk Hnot.
  assert (k ≠ 0 ∧ k ≠ 1 ∧ k ≠ 7) as (?&?&?).
  { repeat split; intros ->; apply Hnot; set_solver. }
  rewrite testbit_assign, setZN_bits by lia.
  by rewrite (proj2 (Z.eqb_neq 0 k)), (proj2 (Z.eqb_neq k 1)), (proj2 (Z.eqb_neq k 7)).
Qed.

End compare.

(** X7: CMP, CPX and CPY compare their register with an operand read from
    memory without changing any register or the memory: Carry is set iff the
    register is greater than or equal to the operand, Zero iff the two are
    equal, Negative is bit 7 of their difference modulo 256, and the other
    flags are kept. *)
Theorem X7_compare_flags (cpu : CPUState) (memory : Memory) (address m : Z) :
  wf_cpu cpu → wf_mem memory →
  mem_read memory address = Some m →
  (∃ p', CMP cpu memory address = Ok (set_P p' cpu, memory)
         ∧ compared (P cpu) (A cpu) m p')
  ∧ (∃ p', CPX cpu memory address = Ok (set_P p' cpu, memory)
           ∧ compared (P cpu) (X cpu) m p')
  ∧ (∃ p', CPY cpu memory address = Ok (set_P p' cpu, memory)
           ∧ compared (P cpu) (Y cpu) m p').
Proof.
  intros Hcpu Hmem Hread. pose proof (mem_read_byte _ _ _ Hmem Hread) as Hm.
  split; [|split]; eexists; (split; [|apply compared_spec; [apply Hcpu|exact Hm]]).
  - unfold CMP. rewrite Hread. by destruct cpu.
  - unfold CPX. rewrite Hread. by destruct cpu.
  - unfold CPY. rewrite Hread. by destruct cpu.
Qed.

Lemma X7_compare_flags_witness :
  let cpu := set_A 0x10 initialCPUState in
  let memory : Memory := <[0x20 := 0x11]> createMemory in
  (wf_cpu cpu ∧ wf_mem memory ∧ mem_read memory 0x20 = Some 0x11)
  ∧ ∃ p', CMP cpu memory 0x20 = Ok (set_P p' cpu, memory)
          ∧ Z.testbit p' 0 = false ∧ Z.testbit p' 1 = false
          ∧ Z.testbit p' 7 = true.
Proof.
  intros cpu memory.
  assert (wf_cpu cpu) as Hcpu
    by (constructor; vm_compute; (split; [discriminate|reflexivity])).
  assert (wf_mem memory) as Hmem.
  { apply map_Forall_insert_2; [unfold byte; lia|apply map_Forall_empty]. }
  assert (mem_read memory 0x20 = Some 0x11) as Hread by (vm_compute; reflexivity).
  split; [exact (conj Hcpu (conj Hmem Hread))|].
  destruct (proj1 (X7_compare_flags cpu memory 0x20 0x11 Hcpu Hmem Hread))
    as (p' & Hcmp & HC & HZ & HN & _).
  exists p'. split; [exact Hcmp|]. split; [exact HC|]. split; [exact HZ|exact HN].
Defined.

(** X8: DEC undoes INC and INC undoes DEC on a memory cell, with wrap-around
    between 0xFF and 0x00.  For a cell inside memory holding [v], INC stores
    [(v + 1) mod 256] and DEC [(v - 1) mod 256], touching no other cell and
    no register but P; the opposite instruction then stores [v] again and
    leaves Zero and Negative computed from [v].  DEX undoes INX and DEY
    undoes INY on a byte register in the same way. *)
Theorem X8_INC_DEC_round_trip (cpu : CPUState) (memory : Memory) (address v : Z) :
  wf_mem memory →
  mem_read memory address = Some v →
  (∃ cpu1 memory1,
     INC cpu memory address = Ok (cpu1, memory1)
     ∧ mem_read memory1 address = Some ((v + 1) mod 256)
     ∧ (∀ other, other ≠ address → mem_read memory1 other = mem_read memory other)
     ∧ ∃ memory2,
         DEC cpu1 memory1 address = Ok (setZN cpu (Some v), memory2)
         ∧ mem_read memory2 address = Some v
         ∧ (∀ other, other ≠ address → mem_read memory2 other = mem_read memory other))
  ∧ (∃ cpu1 memory1,
       DEC cpu memory address = Ok (cpu1, memory1)
       ∧ mem_read memory1 address = Some ((v - 1) mod 256)
       ∧ ∃ memory2,
           INC cpu1 memory1 address = Ok (setZN cpu (Some v), memory2)
           ∧ mem_read memory2 address = Some v)
  ∧ (byte (X cpu) → ∀ a a',
       (INX cpu memory a ≫= λ '(cpu1, memory1), DEX cpu1 memory1 a')
       = Ok (setZN cpu (Some (X cpu)), memory))
  ∧ (byte (Y cpu) → ∀ a a',
       (INY cpu memory a ≫= λ '(cpu1, memory1), DEY cpu1 memory1 a')
       = Ok (setZN cpu (Some (Y cpu)), memory)).
Proof.
  intros Hmem Hread.
  pose proof (mem_read_byte _ _ _ Hmem Hread) as Hv.
  pose proof (mem_read_Some _ _ _ Hread) as Hin.
  assert (∀ d, (d = 1 ∨ d = -1) → ((v + d) mod 256 - d) mod 256 = v) as Hback.
  { intros d Hd. rewrite Zminus_mod_idemp_l. replace (v + d - d) with v by lia.
    by apply Z.mod_small. }
  assert (∀ cpu1 cpu2 : CPUState, P cpu1 = P cpu2 → A cpu1 = A cpu2 → X cpu1 = X cpu2 →
            Y cpu1 = Y cpu2 → SP cpu1 = SP cpu2 → PC cpu1 = PC cpu2 →
            cycles cpu1 = cycles cpu2 → halted cpu1 = halted cpu2 → cpu1 = cpu2) as Hext.
  { intros [] []; cbn; congruence. }
  assert (∀ w w', P (setZN (setZN cpu w') w) = P (setZN cpu w)) as HP.
  { intros w w'. apply Z.bits_inj'. intros k Hk. rewrite !setZN_bits by done.
    repeat case_match; done. }
  split; [|split; [|split]].
  - do 2 eexists. split; [reflexivity|]. rewrite Hread. cbn [js_add]. rewrite js_int_Some, land_0xFF.
    split; [by rewrite mem_read_write_eq, Z.mod_mod by done|].
    split; [intros; by apply mem_read_write_ne|].
    eexists. split.
    + unfold DEC. rewrite mem_read_write_eq, Z.mod_mod by done. cbn [js_sub].
      rewrite js_int_Some, land_0xFF. replace ((v + 1) mod 256 - 1) with ((v + 1) mod 256 - 1) by done.
      rewrite (Hback 1) by auto. f_equal. f_equal. by apply Hext; rewrite ?HP.
    + split; [by apply mem_read_write_byte|].
      intros other Hne. by rewrite !mem_read_write_ne.
  - do 2 eexists. split; [reflexivity|]. rewrite Hread. cbn [js_sub]. rewrite js_int_Some, land_0xFF.
    split; [by rewrite mem_read_write_eq, Z.mod_mod by done|].
    eexists. split.
    + unfold INC. rewrite mem_read_write_eq, Z.mod_mod by done. cbn [js_add].
      rewrite js_int_Some, land_0xFF.
      replace ((v - 1) mod 256 + 1) with ((v + -1) mod 256 - -1) by (f_equal; lia).
      rewrite (Hback (-1)) by auto. f_equal. f_equal. by apply Hext; rewrite ?HP.
    + by apply mem_read_write_byte.
  - intros Hx a a'. unfold INX, DEX. cbn [mbind outcome_bind X set_X].
    assert (X (setZN (set_X (Z.land (X cpu + 1) 0xFF) cpu) (Some (Z.land (X cpu + 1) 0xFF)))
            = Z.land (X cpu + 1) 0xFF) as -> by done.
    rewrite !land_0xFF, Zminus_mod_idemp_l. replace (X cpu + 1 - 1) with (X cpu) by lia.
    rewrite (Z.mod_small (X cpu)) by apply Hx. f_equal. f_equal.
    apply Hext; try done. cbn [X set_X]. 
    apply Z.bits_inj'. intros k Hk. rewrite !setZN_bits by done. cbn [P set_X].
    rewrite !setZN_bits by done. repeat case_match; done.
  - intros Hy a a'. unfold INY, DEY. cbn [mbind outcome_bind Y set_Y].
    assert (Y (setZN (set_Y (Z.land (Y cpu + 1) 0xFF) cpu) (Some (Z.land (Y cpu + 1) 0xFF)))
            = Z.land (Y cpu + 1) 0xFF) as -> by done.
    rewrite !land_0xFF, Zminus_mod_idemp_l. replace (Y cpu + 1 - 1) with (Y cpu) by lia.
    rewrite (Z.mod_small (Y cpu)) by apply Hy. f_equal. f_equal.
    apply Hext; try done. cbn [Y set_Y].
    apply Z.bits_inj'. intros k Hk. rewrite !setZN_bits by done. cbn [P set_Y].
    rewrite !setZN_bits by done. repeat case_match; done.
Qed.

Lemma X8_INC_DEC_round_trip_witness :
  let memory : Memory := <[0x10 := 0xFF]> createMemory in
  (wf_mem memory ∧ mem_read memory 0x10 = Some 0xFF)
  ∧ ∃ cpu1 memory1,
      INC initialCPUState memory 0x10 = Ok (cpu1, memory1)
      ∧ mem_read memory1 0x10 = Some 0
      ∧ ∃ memory2,
          DEC cpu1 memory1 0x10 = Ok (setZN initialCPUState (Some 0xFF), memory2)
          ∧ mem_read memory2 0x10 = Some 0xFF.
Proof.
  intros memory.
  assert (wf_mem memory) as Hmem.
  { apply map_Forall_insert_2; [unfold byte; lia|apply map_Forall_empty]. }
  assert (mem_read memory 0x10 = Some 0xFF) as Hread by (vm_compute; reflexivity).
  split; [exact (conj Hmem Hread)|].
  destruct (proj1 (X8_INC_DEC_round_trip initialCPUState memory 0x10 0xFF Hmem Hread))
    as (cpu1 & memory1 & Hinc & Hcell & _ & memory2 & Hdec & Hback & _).
  exists cpu1, memory1. split; [exact Hinc|]. split; [exact Hcell|].
  exists memory2. split; [exact Hdec|exact Hback].
Defined.

(** ** Shifts and rotates *)

Section shifts.

Lemma byte_forallb (f : Z → bool) :
  forallb f (seqZ 0 256) = true → ∀ v, byte v → f v = true.
Proof.
  intros Hall v Hv. rewrite forallb_forall in Hall. apply Hall.
  apply list_elem_of_In, elem_of_seqZ. unfold byte in Hv. lia.
Qed.

Lemma cpu_ext (cpu1 cpu2 : CPUState) :
  A cpu1 = A cpu2 → X cpu1 = X cpu2 → Y cpu1 = Y cpu2 → PC cpu1 = PC cpu2 →
  SP cpu1 = SP cpu2 → P cpu1 = P cpu2 → cycles cpu1 = cycles cpu2 →
  halted cpu1 = halted cpu2 → cpu1 = cpu2.
Proof. destruct cpu1, cpu2; cbn; congruence. Qed.

Lemma rol_byte a (b : bool) :
  byte a →
  let v := Z.land (Z.lor (Z.shiftl a 1) (bit b)) 0xFF in
  let c := negb (Z.land a 0x80 =? 0) in
  v = (2 * a + bit b) mod 256 ∧ bit c = a / 128
  ∧ Z.lor (Z.shiftr v 1) (if c then 0x80 else 0) = a
  ∧ negb (Z.land v 0x01 =? 0) = b.
Proof.
  intros Ha.
  pose proof (byte_forallb (λ a, rol_check a true && rol_check a false)
                eq_refl a Ha) as Hall.
  apply andb_prop in Hall as [Ht Hf].
  assert (rol_check a b = true) as Hb by (by destruct b). clear Ht Hf.
  unfold rol_check in Hb.
  apply andb_prop in Hb as [Hb H4]. apply andb_prop in Hb as [Hb H3].
  apply andb_prop in Hb as [H1 H2].
  apply Z.eqb_eq in H1, H2, H3. apply eqb_prop in H4. done.
Qed.

Lemma ror_byte a (b : bool) :
  byte a →
  let v := Z.lor (Z.shiftr a 1) (if b then 0x80 else 0) in
  let c := negb (Z.land a 0x01 =? 0) in
  v = a / 2 + 128 * bit b ∧ bit c = a mod 2
  ∧ Z.land (Z.lor (Z.shiftl v 1) (bit c)) 0xFF = a
  ∧ negb (Z.land v 0x80 =? 0) = b.
Proof.
  intros Ha.
  pose proof (byte_forallb (λ a, ror_check a true && ror_check a false)
                eq_refl a Ha) as Hall.
  apply andb_prop in Hall as [Ht Hf].
  assert (ror_check a b = true) as Hb by (by destruct b). clear Ht Hf.
  unfold ror_check in Hb.
  apply andb_prop in Hb as [Hb H4]. apply andb_prop in Hb as [Hb H3].
  apply andb_prop in Hb as [H1 H2].
  apply Z.eqb_eq in H1, H2, H3. apply eqb_prop in H4. done.
Qed.

Lemma truthy_carry p : js_truthy (Z.land p Flag.C) = Z.testbit p 0.
Proof. change Flag.C with (2 ^ 0). by apply truthy_land_pow2. Qed.

Lemma carry_in_bit cpu : carry_in cpu = bit (Z.testbit (P cpu) 0).
Proof. done. Qed.

Lemma setZNC_restores cpu v1 c1 :
  setZNC (set_A (A cpu) (setZNC (set_A v1 cpu) (Some v1) c1))
         (Some (A cpu)) (Z.testbit (P cpu) 0)
  = setZN cpu (Some (A cpu)).
Proof.
  apply cpu_ext; try done.
  apply Z.bits_inj'. intros k Hk.
  rewrite setZNC_bits, setZN_bits by done. cbn [P set_A].
  rewrite setZNC_bits by done. cbn [P set_A].
  destruct (Z.eqb_spec k 0) as [->|]; [done|].
  by repeat case_match.
Qed.

End shifts.

Section rotates.

Lemma ROL_A_spec cpu memory a :
  let v := Z.land (Z.lor (Z.shiftl (A cpu) 1) (bit (Z.testbit (P cpu) 0))) 0xFF in
  ROL_A cpu memory a
  = Ok (setZNC (set_A v cpu) (Some v) (negb (Z.land (A cpu) 0x80 =? 0)), memory).
Proof. unfold ROL_A. by rewrite truthy_carry. Qed.

Lemma ROR_A_spec cpu memory a :
  let v := Z.lor (Z.shiftr (A cpu) 1) (if Z.testbit (P cpu) 0 then 0x80 else 0) in
  ROR_A cpu memory a
  = Ok (setZNC (set_A v cpu) (Some v) (negb (Z.land (A cpu) 0x01 =? 0)), memory).
Proof. unfold ROR_A. by rewrite truthy_carry. Qed.

End rotates.

(** X9: ROL A and ROR A rotate the nine bits made of Carry and the
    accumulator, and each undoes the other.  For a byte accumulator, ROL
    leaves [(2 * A + carry) mod 256] in A and the old bit 7 in Carry; ROR
    leaves [A / 2 + 128 * carry] in A and the old bit 0 in Carry; applying
    the opposite rotate next restores A and Carry, with Zero and Negative
    computed from the restored A.  Memory is never touched. *)
Theorem X9_ROL_ROR_round_trip (cpu : CPUState) (memory : Memory) (a a' : Z) :
  byte (A cpu) →
  (∃ cpu1, ROL_A cpu memory a = Ok (cpu1, memory)
           ∧ A cpu1 = (2 * A cpu + carry_in cpu) mod 256
           ∧ carry_in cpu1 = A cpu / 128
           ∧ ROR_A cpu1 memory a' = Ok (setZN cpu (Some (A cpu)), memory))
  ∧ (∃ cpu1, ROR_A cpu memory a = Ok (cpu1, memory)
             ∧ A cpu1 = A cpu / 2 + 128 * carry_in cpu
             ∧ carry_in cpu1 = A cpu mod 2
             ∧ ROL_A cpu1 memory a' = Ok (setZN cpu (Some (A cpu)), memory)).
Proof.
  intros HA. split.
  - destruct (rol_byte (A cpu) (Z.testbit (P cpu) 0) HA) as (Hv & Hc & Hback & Hcarry).
    eexists. split; [apply ROL_A_spec|].
    set (v := Z.land _ 0xFF) in *. set (c := negb _) in Hc, Hback |- *.
    set (cpu1 := setZNC (set_A v cpu) (Some v) c).
    assert (A cpu1 = v) as HA1 by done.
    assert (Z.testbit (P cpu1) 0 = c) as HC1 by apply setZNC_bit_C.
    split; [by rewrite HA1, carry_in_bit|].
    split; [by rewrite carry_in_bit, HC1|].
    rewrite ROR_A_spec, HA1, HC1, Hback, Hcarry. f_equal. f_equal.
    exact (setZNC_restores cpu v c).
  - destruct (ror_byte (A cpu) (Z.testbit (P cpu) 0) HA) as (Hv & Hc & Hback & Hcarry).
    eexists. split; [apply ROR_A_spec|].
    set (v := Z.lor _ _) in *. set (c := negb _) in Hc, Hback |- *.
    set (cpu1 := setZNC (set_A v cpu) (Some v) c).
    assert (A cpu1 = v) as HA1 by done.
    assert (Z.testbit (P cpu1) 0 = c) as HC1 by apply setZNC_bit_C.
    split; [by rewrite HA1, carry_in_bit|].
    split; [by rewrite carry_in_bit, HC1|].
    rewrite ROL_A_spec, HA1, HC1, Hback, Hcarry. f_equal. f_equal.
    exact (setZNC_restores cpu v c).
Qed.

Lemma X9_ROL_ROR_round_trip_witness :
  let cpu := set_A 0x81 initialCPUState in
  byte (A cpu)
  ∧ ∃ cpu1, ROL_A cpu createMemory 0 = Ok (cpu1, createMemory)
            ∧ A cpu1 = 0x02 ∧ carry_in cpu1 = 1
            ∧ ROR_A cpu1 createMemory 0 = Ok (setZN cpu (Some 0x81), createMemory).
Proof.
  intros cpu.
  assert (byte (A cpu)) as HA by (unfold byte; cbn; lia).
  split; [exact HA|].
  destruct (proj1 (X9_ROL_ROR_round_trip cpu createMemory 0 0 HA))
    as (cpu1 & Hrol & HA1 & HC1 & Hror).
  exists cpu1. split; [exact Hrol|]. split; [exact HA1|]. split; [exact HC1|exact Hror].
Defined.

Section shift_values.

Lemma shift_byte a :
  byte a →
  Z.land (Z.shiftl a 1) 0xFF + 256 * bit (negb (Z.land a 0x80 =? 0)) = 2 * a
  ∧ 2 * Z.shiftr a 1 + bit (negb (Z.land a 0x01 =? 0)) = a.
Proof.
  intros Ha. pose proof (byte_forallb shift_check eq_refl a Ha) as Hall.
  apply andb_prop in Hall as [H1 H2]. by apply Z.eqb_eq in H1, H2.
Qed.

Lemma carry_in_setZNC cpu v c : carry_in (setZNC cpu v c) = bit c.
Proof. by rewrite carry_in_bit, setZNC_bit_C. Qed.

End shift_values.

(** X10: the shifts lose no bit.  ASL leaves a byte [r] and a Carry with
    [r + 256 * carry = 2 * v], LSR a byte [r] and a Carry with
    [2 * r + carry = v], where [v] is the byte shifted: the accumulator for
    ASL A and LSR A (memory untouched), the addressed cell for the memory
    forms (accumulator and all other cells untouched). *)
Theorem X10_shifts_lose_no_bit (cpu : CPUState) (memory : Memory) (address v : Z) :
  wf_mem memory → byte (A cpu) →
  mem_read memory address = Some v →
  (∃ cpu1, ASL_A cpu memory address = Ok (cpu1, memory)
           ∧ byte (A cpu1) ∧ A cpu1 + 256 * carry_in cpu1 = 2 * A cpu)
  ∧ (∃ cpu1, LSR_A cpu memory address = Ok (cpu1, memory)
             ∧ byte (A cpu1) ∧ 2 * A cpu1 + carry_in cpu1 = A cpu)
  ∧ (∃ cpu1 memory1 r,
       ASL_M cpu memory address = Ok (cpu1, memory1)
       ∧ mem_read memory1 address = Some r
       ∧ byte r ∧ r + 256 * carry_in cpu1 = 2 * v
       ∧ A cpu1 = A cpu
       ∧ ∀ other, other ≠ address → mem_read memory1 other = mem_read memory other)
  ∧ (∃ cpu1 memory1 r,
       LSR_M cpu memory address = Ok (cpu1, memory1)
       ∧ mem_read memory1 address = Some r
       ∧ byte r ∧ 2 * r + carry_in cpu1 = v
       ∧ A cpu1 = A cpu
       ∧ ∀ other, other ≠ address → mem_read memory1 other = mem_read memory other).
Proof.
  intros Hmem HA Hread.
  pose proof (mem_read_byte _ _ _ Hmem Hread) as Hv.
  pose proof (mem_read_Some _ _ _ Hread) as Hin.
  destruct (shift_byte (A cpu) HA) as [HaslA HlsrA].
  destruct (shift_byte v Hv) as [HaslM HlsrM].
  split; [|split; [|split]].
  - eexists. split; [reflexivity|]. rewrite carry_in_setZNC.
    split; [apply byte_land_0xFF|exact HaslA].
  - eexists. split; [reflexivity|]. rewrite carry_in_setZNC.
    split; [by apply byte_shiftr|exact HlsrA].
  - do 3 eexists. split; [reflexivity|]. rewrite carry_in_setZNC, Hread.
    split; [apply mem_read_write_byte; [done|apply byte_land_0xFF]|].
    split; [apply byte_land_0xFF|]. split; [exact HaslM|].
    split; [done|]. intros other Hne. by apply mem_read_write_ne.
  - do 3 eexists. split; [reflexivity|]. rewrite carry_in_setZNC, Hread.
    split; [apply mem_read_write_byte; [done|by apply byte_shiftr]|].
    split; [by apply byte_shiftr|]. split; [exact HlsrM|].
    split; [done|]. intros other Hne. by apply mem_read_write_ne.
Qed.

Lemma X10_shifts_lose_no_bit_witness :
  let cpu := set_A 0xC1 initialCPUState in
  let memory : Memory := <[0x10 := 0x03]> createMemory in
  (wf_mem memory ∧ byte (A cpu) ∧ mem_read memory 0x10 = Some 0x03)
  ∧ (∃ cpu1, ASL_A cpu memory 0x10 = Ok (cpu1, memory)
             ∧ A cpu1 + 256 * carry_in cpu1 = 0x182)
  ∧ (∃ cpu1 memory1 r, LSR_M cpu memory 0x10 = Ok (cpu1, memory1)
                       ∧ mem_read memory1 0x10 = Some r
                       ∧ 2 * r + carry_in cpu1 = 3).
Proof.
  intros cpu memory.
  assert (wf_mem memory) as Hmem.
  { apply map_Forall_insert_2; [unfold byte; lia|apply map_Forall_empty]. }
  assert (byte (A cpu)) as HA by (unfold byte; cbn; lia).
  assert (mem_read memory 0x10 = Some 0x03) as Hread by (vm_compute; reflexivity).
  split; [exact (conj Hmem (conj HA Hread))|].
  destruct (X10_shifts_lose_no_bit cpu memory 0x10 0x03 Hmem HA Hread)
    as ((cpu1 & Hasl & _ & Hsum) & _ & _ & (cpu2 & memory2 & r & Hlsr & Hcell & _ & Hsum2 & _)).
  split.
  - exists cpu1. split; [exact Hasl|exact Hsum].
  - exists cpu2, memory2, r. split; [exact Hlsr|]. split; [exact Hcell|exact Hsum2].
Defined.

(** ** One step, instruction by instruction *)

Section step_frame.

Lemma table_entries_consistent :
  map_Forall (λ code d, entry_consistent code d = true) instructionSet.
Proof.
  refine (bool_decide_unpack _ _).
  vm_compute. exact I.
Qed.

End step_frame.

Section run_frame_sec.

Lemma genericBranch_frame cpu (memory : Memory) offset c :
  ∃ cpu', genericBranch cpu memory offset c = cpu'
  ∧ halted cpu' = halted cpu ∧ A cpu' = A cpu ∧ X cpu' = X cpu ∧ Y cpu' = Y cpu
  ∧ SP cpu' = SP cpu ∧ P cpu' = P cpu
  ∧ cycles cpu <= cycles cpu' <= cycles cpu + 2
  ∧ (c = false → cpu' = cpu)
  ∧ (c = true → cycles cpu + 1 <= cycles cpu').
Proof.
  eexists. split; [reflexivity|].
  unfold genericBranch. destruct c; [|repeat split; (done || lia)].
  cbn [PC set_PC set_cycles cycles].
  destruct (negb _); cbn [halted A X Y SP P cycles set_PC set_cycles];
    (repeat split; try done; intros; lia).
Qed.

Lemma run_frame op cpu (memory : Memory) address :
  wf_cpu cpu → wf_mem memory →
  (needs_address op = true → in_memory address) →
  ∃ cpu' memory',
    run op cpu memory address = Ok (cpu', memory')
    ∧ halted cpu' = (is_BRK op || halted cpu)
    ∧ (writes_memory op = false → memory' = memory)
    ∧ (control_flow op = false → PC cpu' = PC cpu)
    ∧ (is_branch op = false → cycles cpu' = cycles cpu)
    ∧ cycles cpu <= cycles cpu' <= cycles cpu + 2.
Proof.
  intros Hcpu Hmem Haddr.
  destruct op; cbn [needs_address] in Haddr; try specialize (Haddr eq_refl);
    cbv beta iota zeta delta
      [run LDA LDX LDY STA STX STY ADC SBC BEQ BNE BCS BCC BMI BPL BVS BVC
       JMP JSR RTS RTI INC INX INY DEC DEX DEY CMP CPX CPY AND ORA EOR BIT
       ASL_A ASL_M LSR_A LSR_M ROL_A ROL_M ROR_A ROR_M PHA PHP PLA PLP
       TAX TXA TAY TYA TSX TXS CLC SEC CLI SEI CLD SED CLV NOP BRK
       pushWord pushByte pullWord pullByte AM.fetchByte
       is_BRK writes_memory control_flow is_branch orb];
    rewrite ?(mem_read_inside memory address) by done;
    try (rewrite (mem_read_inside memory (STACK_BASE + _))
           by (apply in_memory_stack; cbn [SP set_SP]; solve_range));
    cbn [numeric mbind outcome_bind];
    (do 2 eexists; split; [reflexivity|]);
    try (match goal with
         | |- context [genericBranch ?a ?b ?c ?d] =>
             destruct (genericBranch_frame a b c d) as (? & -> & ? & _ & _ & _ & _ & _ & ? & _)
         end);
    repeat (rewrite ?set_P_if;
            cbn [halted cycles PC set_A set_X set_Y set_SP set_P set_PC set_cycles
                 set_halted setZN setZNC]);
    repeat split; (done || lia).
Qed.

Lemma resolve_frame mode cpu (memory : Memory) :
  wf_cpu cpu → wf_mem memory →
  ∃ result,
    resolve mode cpu memory
    = Ok (set_PC (Z.land (PC cpu + operand_size (Some mode)) 0xFFFF) cpu, result)
    ∧ (mode ≠ Mode.REL → in_memory (address result))
    ∧ (mode = Mode.REL → pageCrossed result = None).
Proof.
  intros Hcpu Hmem.
  assert (in_memory (PC cpu)) as Hpc by solve_range.
  destruct mode;
    cbv beta iota zeta delta
      [resolve AM.IMM AM.ZP AM.ZPX AM.ZPY AM.ABS AM.ABSX AM.ABSY AM.IND AM.IZX
       AM.IZY AM.REL AM.fetchWord AM.fetchByte operand_size];
    rewrite ?(mem_read_inside memory (PC cpu)) by done;
    cbn [numeric mbind outcome_bind PC set_PC];
    rewrite ?land_succ_0xFFFF;
    (eexists; split; [reflexivity|]; split;
     [try done; intros _; cbn [address]; solve_range|done]).
Qed.

(** A running step on a well-formed state, cut at the call of the effect
    function: the operand has been fetched, so PC has advanced by the
    length of the instruction. *)
Lemma step_running cpu (memory : Memory) d :
  wf_cpu cpu → wf_mem memory → halted cpu = false →
  getInstructionDefinition (default 0 (memory !! PC cpu)) = Some d →
  ∃ operandAddress crossed cpu2 memory2,
    run (execute d) (set_PC (Z.land (PC cpu + bytes d) 0xFFFF) cpu) memory operandAddress
    = Ok (cpu2, memory2)
    ∧ wf_cpu cpu2 ∧ wf_mem memory2
    ∧ halted cpu2 = is_BRK (execute d)
    ∧ (writes_memory (execute d) = false → memory2 = memory)
    ∧ (control_flow (execute d) = false → PC cpu2 = Z.land (PC cpu + bytes d) 0xFFFF)
    ∧ (is_branch (execute d) = false → cycles cpu2 = cycles cpu)
    ∧ cycles cpu <= cycles cpu2 <= cycles cpu + 2
    ∧ (is_branch (execute d) = true → crossed = false)
    ∧ step cpu memory
      = Ok (set_cycles (cycles cpu2 + baseCycles d + bit (pageCrossCycle d && crossed)) cpu2,
            memory2, []).
Proof.
  intros Hcpu Hmem Hrun Hd. unfold step. rewrite Hrun.
  rewrite (mem_read_inside memory (PC cpu)) by solve_range.
  cbn [mbind option_bind]. rewrite Hd.
  pose proof (table_entries_consistent _ _ Hd) as Hcons.
  unfold entry_consistent in Hcons.
  repeat (apply andb_prop in Hcons as [Hcons ?]).
  match goal with H : (bytes d =? _) = true |- _ => apply Z.eqb_eq in H; rename H into Hbytes end.
  match goal with H : Bool.eqb (is_branch _) _ = true |- _ =>
    apply eqb_prop in H; rename H into Hbranch end.
  pose proof (table_relative_only_on_branches _ _ Hd) as Hrel.
  unfold relative_only_on_branches in Hrel.
  set (newCpu := set_PC (Z.land (PC cpu + 1) 0xFFFF) cpu).
  set (cpu1 := set_PC (Z.land (PC cpu + bytes d) 0xFFFF) cpu).
  assert (wf_cpu cpu1) as Hcpu1 by (unfold cpu1; solve_range).
  assert (wf_cpu newCpu) as Hnew by (unfold newCpu; solve_range).
  assert (∃ operandAddress crossed,
             match addressingMode d with
             | Some mode =>
                 '(newCpu, addrResult) ← resolve mode newCpu memory;
                 Ok (newCpu, address addrResult, default false (pageCrossed addrResult))
             | None => Ok (newCpu, 0, false)
             end = Ok (cpu1, operandAddress, crossed)
             ∧ (needs_address (execute d) = true → in_memory operandAddress)
             ∧ (is_branch (execute d) = true → crossed = false))
    as (operandAddress & crossed & -> & Haddr & Hcrossed).
  { unfold cpu1. rewrite Hbytes.
    destruct (addressingMode d) as [mode|].
    - destruct (resolve_frame mode newCpu memory Hnew Hmem) as (r & -> & Hin & Hnone).
      exists (address r), (default false (pageCrossed r)).
      cbn [mbind outcome_bind]. split; [|split].
      + do 2 f_equal.
        assert (Z.land (Z.land (PC cpu + 1) 0xFFFF + operand_size (Some mode)) 0xFFFF
                = Z.land (PC cpu + (1 + operand_size (Some mode))) 0xFFFF) as Heq.
        { rewrite !land_0xFFFF, Z.add_mod_idemp_l by lia. f_equal. lia. }
        unfold newCpu. cbn [PC set_PC]. by rewrite Heq.
      + intros Hneeds. apply Hin. intros ->.
        rewrite Hneeds in Hrel. by rewrite bool_decide_eq_true_2 in Hrel.
      + intros Hb. rewrite Hb in Hbranch. symmetry in Hbranch.
        apply bool_decide_eq_true_1 in Hbranch. injection Hbranch as ->.
        by rewrite Hnone.
    - exists 0, false. split; [|split; [intros _; solve_range|done]].
      cbn [operand_size]. by rewrite Z.add_0_r. }
  cbn [mbind outcome_bind].
  destruct (run_wf (execute d) cpu1 memory operandAddress Hcpu1 Hmem Haddr)
    as (cpu2 & memory2 & Hok & Hcpu2 & Hmem2).
  destruct (run_frame (execute d) cpu1 memory operandAddress Hcpu1 Hmem Haddr)
    as (cpu2' & memory2' & Hok' & Hhalt & Hframe & Hpc & Hcyc & Hbound).
  rewrite Hok in Hok'. injection Hok' as <- <-.
  exists operandAddress, crossed, cpu2, memory2. rewrite Hok.
  split; [done|]. split; [done|]. split; [done|].
  split; [by rewrite Hhalt, orb_comm; unfold cpu1; cbn [halted set_PC]; rewrite Hrun, orb_false_l|].
  split; [done|]. split; [done|]. split; [done|]. split; [done|]. split; [done|].
  cbn [mbind outcome_bind]. do 3 f_equal.
  destruct (pageCrossCycle d && crossed); cbn [bit cycles set_cycles]; [done|].
  by rewrite Z.add_0_r.
Qed.

End run_frame_sec.

Section step_properties.

Lemma opcode_at cpu (memory : Memory) op :
  wf_cpu cpu → mem_read memory (PC cpu) = Some op →
  op = default 0 (memory !! PC cpu).
Proof.
  intros Hcpu. rewrite (mem_read_inside memory (PC cpu)) by solve_range. congruence.
Qed.

Lemma step_halted cpu (memory : Memory) :
  halted cpu = true → step cpu memory = Ok (cpu, memory, []).
Proof. intros H. unfold step. by rewrite H. Qed.

Lemma steps_halted n cpu (memory : Memory) :
  halted cpu = true → steps n cpu memory = Ok (cpu, memory).
Proof.
  intros H. induction n as [|n IH]; [done|].
  cbn [steps]. by rewrite step_halted.
Qed.

End step_properties.

(** X11: an instruction that is not a branch, jump, call, return or BRK
    leaves PC just past itself.  On a well-formed running state whose
    opcode has the table entry [d], [step] returns with
    [PC = (PC + bytes d) mod 65536] and logs nothing: the [bytes] column of
    the table agrees with what the addressing modes fetch. *)
Theorem X11_step_advances_PC (cpu : CPUState) (memory : Memory)
    (op : Z) (d : InstructionDefinition) :
  wf_cpu cpu → wf_mem memory → halted cpu = false →
  mem_read memory (PC cpu) = Some op →
  getInstructionDefinition op = Some d →
  control_flow (execute d) = false →
  ∃ cpu' memory',
    step cpu memory = Ok (cpu', memory', [])
    ∧ PC cpu' = (PC cpu + bytes d) mod 65536.
Proof.
  intros Hcpu Hmem Hrun Hop Hd Hflow.
  rewrite (opcode_at _ _ _ Hcpu Hop) in Hd.
  destruct (step_running cpu memory d Hcpu Hmem Hrun Hd)
    as (a & crossed & cpu2 & memory2 & _ & _ & _ & _ & _ & Hpc & _ & _ & _ & ->).
  do 2 eexists. split; [reflexivity|].
  cbn [PC set_cycles]. by rewrite Hpc, land_0xFFFF.
Qed.

Lemma X11_step_advances_PC_witness :
  let cpu := initialCPUState in
  let memory : Memory := <[0x0200 := 0xBD]> createMemory in
  let d := mkInstruction 0xBD "LDA" (Some Mode.ABSX) Op.LDA 3 4 true false in
  (wf_cpu cpu ∧ wf_mem memory ∧ halted cpu = false
   ∧ mem_read memory (PC cpu) = Some 0xBD
   ∧ getInstructionDefinition 0xBD = Some d
   ∧ control_flow (execute d) = false)
  ∧ ∃ cpu' memory', step cpu memory = Ok (cpu', memory', []) ∧ PC cpu' = 0x0203.
Proof.
  intros cpu memory d.
  assert (wf_mem memory) as Hmem.
  { apply map_Forall_insert_2; [unfold byte; lia|apply map_Forall_empty]. }
  assert (mem_read memory (PC cpu) = Some 0xBD) as Hop by (vm_compute; reflexivity).
  assert (getInstructionDefinition 0xBD = Some d) as Hd by (vm_compute; reflexivity).
  split; [exact (conj wf_initial (conj Hmem (conj eq_refl (conj Hop (conj Hd eq_refl)))))|].
  exact (X11_step_advances_PC cpu memory 0xBD d wf_initial Hmem eq_refl Hop Hd eq_refl).
Defined.

(** X12: only stores, read-modify-write instructions on memory, pushes, JSR
    and BRK change memory.  On a well-formed running state, a step of any
    other instruction returns the memory it was given. *)
Theorem X12_step_keeps_memory (cpu : CPUState) (memory : Memory)
    (op : Z) (d : InstructionDefinition) :
  wf_cpu cpu → wf_mem memory → halted cpu = false →
  mem_read memory (PC cpu) = Some op →
  getInstructionDefinition op = Some d →
  writes_memory (execute d) = false →
  ∃ cpu', step cpu memory = Ok (cpu', memory, []).
Proof.
  intros Hcpu Hmem Hrun Hop Hd Hw.
  rewrite (opcode_at _ _ _ Hcpu Hop) in Hd.
  destruct (step_running cpu memory d Hcpu Hmem Hrun Hd)
    as (a & crossed & cpu2 & memory2 & _ & _ & _ & _ & Hframe & _ & _ & _ & _ & ->).
  rewrite (Hframe Hw). by eexists.
Qed.

Lemma X12_step_keeps_memory_witness :
  let cpu := initialCPUState in
  let memory : Memory := <[0x0200 := 0xBD]> createMemory in
  let d := mkInstruction 0xBD "LDA" (Some Mode.ABSX) Op.LDA 3 4 true false in
  (wf_cpu cpu ∧ wf_mem memory ∧ halted cpu = false
   ∧ mem_read memory (PC cpu) = Some 0xBD
   ∧ getInstructionDefinition 0xBD = Some d
   ∧ writes_memory (execute d) = false)
  ∧ ∃ cpu', step cpu memory = Ok (cpu', memory, []).
Proof.
  intros cpu memory d.
  assert (wf_mem memory) as Hmem.
  { apply map_Forall_insert_2; [unfold byte; lia|apply map_Forall_empty]. }
  assert (mem_read memory (PC cpu) = Some 0xBD) as Hop by (vm_compute; reflexivity).
  assert (getInstructionDefinition 0xBD = Some d) as Hd by (vm_compute; reflexivity).
  split; [exact (conj wf_initial (conj Hmem (conj eq_refl (conj Hop (conj Hd eq_refl)))))|].
  exact (X12_step_keeps_memory cpu memory 0xBD d wf_initial Hmem eq_refl Hop Hd eq_refl).
Defined.

(** X13: a running processor halts in a step exactly when the byte at PC is
    0x00 (BRK) or has no table entry.  On a well-formed running state
    [step] returns, and the state it returns is halted iff the opcode is 0
    or unknown; every other instruction leaves the processor running. *)
Theorem X13_halts_only_on_BRK_or_unknown (cpu : CPUState) (memory : Memory) (op : Z) :
  wf_cpu cpu → wf_mem memory → halted cpu = false →
  mem_read memory (PC cpu) = Some op →
  ∃ cpu' memory' log,
    step cpu memory = Ok (cpu', memory', log)
    ∧ (halted cpu' = true ↔ op = 0 ∨ getInstructionDefinition op = None).
Proof.
  intros Hcpu Hmem Hrun Hop.
  destruct (getInstructionDefinition op) as [d|] eqn:Hd.
  - pose proof (table_entries_consistent _ _ Hd) as Hcons.
    unfold entry_consistent in Hcons.
    repeat (apply andb_prop in Hcons as [Hcons ?]).
    match goal with H : Bool.eqb (is_BRK _) _ = true |- _ =>
      apply eqb_prop in H; rename H into Hbrk end.
    rewrite (opcode_at _ _ _ Hcpu Hop) in Hd.
    destruct (step_running cpu memory d Hcpu Hmem Hrun Hd)
      as (a & crossed & cpu2 & memory2 & _ & _ & _ & Hhalt & _ & _ & _ & _ & _ & ->).
    do 3 eexists. split; [reflexivity|].
    cbn [halted set_cycles]. rewrite Hhalt, Hbrk. split.
    + intros Hz. left. by apply Z.eqb_eq.
    + intros [->|]; done.
  - unfold step. rewrite Hrun, Hop. cbn [mbind option_bind]. rewrite Hd.
    cbn [toString16_of mbind outcome_bind].
    do 3 eexists. split; [reflexivity|]. split; [by right|done].
Qed.

Lemma X13_halts_only_on_BRK_or_unknown_witness :
  let cpu := initialCPUState in
  let memory : Memory := <[0x0200 := 0xEA]> createMemory in
  (wf_cpu cpu ∧ wf_mem memory ∧ halted cpu = false
   ∧ mem_read memory (PC cpu) = Some 0xEA)
  ∧ ∃ cpu' memory' log,
      step cpu memory = Ok (cpu', memory', log)
      ∧ (halted cpu' = true ↔ 0xEA = 0 ∨ getInstructionDefinition 0xEA = None).
Proof.
  intros cpu memory.
  assert (wf_mem memory) as Hmem.
  { apply map_Forall_insert_2; [unfold byte; lia|apply map_Forall_empty]. }
  assert (mem_read memory (PC cpu) = Some 0xEA) as Hop by (vm_compute; reflexivity).
  split; [exact (conj wf_initial (conj Hmem (conj eq_refl Hop)))|].
  exact (X13_halts_only_on_BRK_or_unknown cpu memory 0xEA wf_initial Hmem eq_refl Hop).
Defined.

(** X14: what a step costs, while the cycle counter is in the range where
    the sums of the source are exact (within [2 ^ 53], with room for the 9
    cycles a step can add).  A step that executes the table entry [d] adds
    at least [baseCycles d] (itself between 2 and 7) and at most two more
    to the cycle counter; an instruction that is not a branch adds at most
    one more, and exactly [baseCycles d] when its entry has no page-cross
    cycle; the counter is still in the exact range afterwards. *)
Theorem X14_step_cycles (cpu : CPUState) (memory : Memory)
    (op : Z) (d : InstructionDefinition) :
  wf_cpu cpu → wf_mem memory → halted cpu = false →
  cycles_exact cpu 9 →
  mem_read memory (PC cpu) = Some op →
  getInstructionDefinition op = Some d →
  ∃ cpu' memory',
    step cpu memory = Ok (cpu', memory', [])
    ∧ 2 <= baseCycles d <= 7
    ∧ cycles cpu + baseCycles d <= cycles cpu' <= cycles cpu + baseCycles d + 2
    ∧ (is_branch (execute d) = false →
       cycles cpu' <= cycles cpu + baseCycles d + 1
       ∧ (pageCrossCycle d = false → cycles cpu' = cycles cpu + baseCycles d))
    ∧ cycles_exact cpu' 0.
Proof.
  intros Hcpu Hmem Hrun [Hlow Hhigh] Hop Hd.
  pose proof (table_entries_consistent _ _ Hd) as Hcons.
  unfold entry_consistent in Hcons.
  repeat (apply andb_prop in Hcons as [Hcons ?]).
  assert (2 <= baseCycles d <= 7) as Hbase by lia.
  rewrite (opcode_at _ _ _ Hcpu Hop) in Hd.
  destruct (step_running cpu memory d Hcpu Hmem Hrun Hd)
    as (a & crossed & cpu2 & memory2 & _ & _ & _ & _ & _ & _ & Hcyc & Hbound & Hcross & ->).
  do 2 eexists. split; [reflexivity|]. split; [exact Hbase|].
  cbn [cycles set_cycles].
  assert (0 <= bit (pageCrossCycle d && crossed) <= 1) as Hbit
    by (destruct (pageCrossCycle d && crossed); cbn; lia).
  assert (cycles cpu + baseCycles d
          <= cycles cpu2 + baseCycles d + bit (pageCrossCycle d && crossed)
          <= cycles cpu + baseCycles d + 2) as Hsum.
  { destruct (is_branch (execute d)) eqn:Hb.
    - rewrite (Hcross eq_refl), andb_false_r. cbn [bit]. lia.
    - rewrite (Hcyc eq_refl). lia. }
  split; [exact Hsum|]. split.
  - intros Hb. rewrite (Hcyc Hb). split; [lia|].
    intros ->. cbn [andb bit]. lia.
  - unfold cycles_exact. cbn [cycles set_cycles]. lia.
Qed.

Lemma X14_step_cycles_witness :
  let cpu := initialCPUState in
  let memory : Memory := <[0x0200 := 0xBD]> createMemory in
  let d := mkInstruction 0xBD "LDA" (Some Mode.ABSX) Op.LDA 3 4 true false in
  (wf_cpu cpu ∧ wf_mem memory ∧ halted cpu = false
   ∧ cycles_exact cpu 9
   ∧ mem_read memory (PC cpu) = Some 0xBD
   ∧ getInstructionDefinition 0xBD = Some d)
  ∧ ∃ cpu' memory',
      step cpu memory = Ok (cpu', memory', [])
      ∧ cycles cpu + 4 <= cycles cpu' <= cycles cpu + 4 + 2.
Proof.
  intros cpu memory d.
  assert (wf_mem memory) as Hmem.
  { apply map_Forall_insert_2; [unfold byte; lia|apply map_Forall_empty]. }
  assert (cycles_exact cpu 9) as Hexact by (unfold cycles_exact; cbn; lia).
  assert (mem_read memory (PC cpu) = Some 0xBD) as Hop by (vm_compute; reflexivity).
  assert (getInstructionDefinition 0xBD = Some d) as Hd by (vm_compute; reflexivity).
  split; [exact (conj wf_initial (conj Hmem (conj eq_refl (conj Hexact (conj Hop Hd)))))|].
  destruct (X14_step_cycles cpu memory 0xBD d wf_initial Hmem eq_refl Hexact Hop Hd)
    as (cpu' & memory' & Hstep & _ & Hbound & _).
  exists cpu', memory'. split; [exact Hstep|exact Hbound].
Defined.

Section run_properties.

Lemma step_cycles_grow cpu (memory : Memory) :
  wf_cpu cpu → wf_mem memory →
  ∃ cpu' memory' log,
    step cpu memory = Ok (cpu', memory', log)
    ∧ wf_cpu cpu' ∧ wf_mem memory'
    ∧ cycles cpu <= cycles cpu' <= cycles cpu + 9
    ∧ (halted cpu' = false → halted cpu = false ∧ cycles cpu + 2 <= cycles cpu').
Proof.
  intros Hcpu Hmem. destruct (halted cpu) eqn:Hrun.
  { exists cpu, memory, []. rewrite step_halted by done.
    split; [done|]. split; [done|]. split; [done|]. split; [lia|congruence]. }
  destruct (getInstructionDefinition (default 0 (memory !! PC cpu))) as [d|] eqn:Hd.
  - pose proof (table_entries_consistent _ _ Hd) as Hcons.
    unfold entry_consistent in Hcons.
    repeat (apply andb_prop in Hcons as [Hcons ?]).
    destruct (step_running cpu memory d Hcpu Hmem Hrun Hd)
      as (a & crossed & cpu2 & memory2 & _ & Hcpu2 & Hmem2 & _ & _ & _ & Hcyc & Hbound
          & Hcross & ->).
    do 3 eexists. split; [reflexivity|].
    split; [by apply wf_set_cycles|]. split; [done|].
    cbn [cycles set_cycles].
    assert (0 <= bit (pageCrossCycle d && crossed) <= 1) as Hbit
      by (destruct (pageCrossCycle d && crossed); cbn; lia).
    assert (cycles cpu2 + bit (pageCrossCycle d && crossed) <= cycles cpu + 2) as Hextra.
    { destruct (is_branch (execute d)) eqn:Hb.
      - rewrite (Hcross eq_refl), andb_false_r. cbn [bit]. lia.
      - rewrite (Hcyc eq_refl). lia. }
    split; [lia|]. intros _. split; [done|lia].
  - unfold step. rewrite Hrun.
    rewrite (mem_read_inside memory (PC cpu)) by solve_range.
    cbn [mbind option_bind]. rewrite Hd.
    cbn [toString16_of mbind outcome_bind].
    do 3 eexists. split; [reflexivity|].
    split; [solve_range|]. split; [done|]. split; [cbn; lia|done].
Qed.

End run_properties.

(** X15: a run of [n] steps from a well-formed state whose cycle counter
    has room for them in the range where the sums of the source are exact
    (within [2 ^ 53], each step adding at most 9).  The run returns; the
    cycle counter never goes down, grows by at most [9 * n] and so stays in
    the exact range; a halted processor stays exactly as it is, with its
    memory; and if the processor is still running after the [n] steps,
    every one of them executed an instruction, so at least [2 * n] cycles
    have been counted. *)
Theorem X15_steps_halt_latches_cycles_grow (n : nat) (cpu : CPUState) (memory : Memory) :
  wf_cpu cpu → wf_mem memory →
  cycles_exact cpu (9 * Z.of_nat n) →
  ∃ cpu' memory',
    steps n cpu memory = Ok (cpu', memory')
    ∧ cycles cpu <= cycles cpu' <= cycles cpu + 9 * Z.of_nat n
    ∧ cycles_exact cpu' 0
    ∧ (halted cpu = true → cpu' = cpu ∧ memory' = memory)
    ∧ (halted cpu' = false → halted cpu = false ∧ cycles cpu + 2 * Z.of_nat n <= cycles cpu').
Proof.
  revert cpu memory. induction n as [|n IH]; intros cpu memory Hcpu Hmem [Hlow Hhigh].
  - exists cpu, memory. split; [done|]. split; [lia|].
    split; [unfold cycles_exact; lia|]. split; [done|].
    intros ?. split; [done|lia].
  - destruct (step_cycles_grow cpu memory Hcpu Hmem)
      as (cpu1 & memory1 & log & Hstep & Hcpu1 & Hmem1 & Hle & Hrun1).
    destruct (IH cpu1 memory1 Hcpu1 Hmem1)
      as (cpu' & memory' & Hsteps & Hle' & Hexact' & Hlatch & Hrun');
      [unfold cycles_exact; lia|].
    exists cpu', memory'. cbn [steps]. rewrite Hstep. cbn [mbind outcome_bind].
    split; [done|]. split; [lia|]. split; [done|]. split.
    + intros Hh. rewrite step_halted in Hstep by done. injection Hstep as <- <- _.
      by apply Hlatch.
    + intros Hh. destruct (Hrun' Hh) as [Hh1 ?]. destruct (Hrun1 Hh1) as [? ?].
      split; [done|lia].
Qed.

Lemma X15_steps_halt_latches_cycles_grow_witness :
  let memory : Memory := <[0x0200 := 0xEA]> (<[0x0201 := 0xEA]> createMemory) in
  (wf_cpu initialCPUState ∧ wf_mem memory
   ∧ cycles_exact initialCPUState (9 * Z.of_nat 2))
  ∧ ∃ cpu' memory',
      steps 2 initialCPUState memory = Ok (cpu', memory')
      ∧ cycles initialCPUState <= cycles cpu' <= cycles initialCPUState + 9 * Z.of_nat 2.
Proof.
  intros memory.
  assert (wf_mem memory) as Hmem.
  { repeat (apply map_Forall_insert_2; [unfold byte; lia|]). apply map_Forall_empty. }
  assert (cycles_exact initialCPUState (9 * Z.of_nat 2)) as Hexact
    by (unfold cycles_exact; cbn; lia).
  split; [exact (conj wf_initial (conj Hmem Hexact))|].
  destruct (X15_steps_halt_latches_cycles_grow 2 initialCPUState memory wf_initial Hmem
              Hexact) as (cpu' & memory' & Hsteps & Hle & _).
  exists cpu', memory'. split; [exact Hsteps|exact Hle].
Defined.

(** ** The disassembler *)

Section disassembler.

Lemma operandBytes_length (memory : Memory) currentAddress j n l :
  operandBytes memory currentAddress j n = Ok l → List.length l = n.
Proof.
  revert j l. induction n as [|n IH]; intros j l; cbn [operandBytes].
  - by intros [= <-].
  - destruct (if decide _ then _ else _) as [b| |]; [|done..].
    cbn [mbind outcome_bind].
    destruct (operandBytes memory currentAddress (j + 1) n) as [rest| |] eqn:Hrest; [|done..].
    cbn [mbind outcome_bind]. intros [= <-]. cbn [List.length]. f_equal. by eapply IH.
Qed.

Lemma operandBytes_total (memory : Memory) currentAddress j n :
  0 <= currentAddress + j →
  ∃ l, operandBytes memory currentAddress j n = Ok l.
Proof.
  revert j. induction n as [|n IH]; intros j Hj; cbn [operandBytes]; [by eexists|].
  destruct (IH (j + 1)) as [rest ->]; [lia|].
  case_decide.
  - rewrite mem_read_inside by (unfold in_memory; lia). by eexists.
  - by eexists.
Qed.

Lemma table_bytes d code :
  instructionSet !! code = Some d →
  bytes d = 1 + operand_size (addressingMode d) ∧ 1 <= bytes d <= 3.
Proof.
  intros Hd. pose proof (table_entries_consistent _ _ Hd) as Hcons.
  unfold entry_consistent in Hcons.
  repeat (apply andb_prop in Hcons as [Hcons ?]).
  assert (bytes d = 1 + operand_size (addressingMode d)) as Hb by lia.
  split; [done|]. rewrite Hb. unfold operand_size. repeat case_match; lia.
Qed.

Lemma disassembleAt_Ok (memory : Memory) currentAddress record len :
  disassembleAt memory currentAddress = Ok (record, len) →
  info_address record = currentAddress
  ∧ in_memory currentAddress
  ∧ mem_read memory currentAddress = Some (info_opCode record)
  ∧ head (info_bytes record) = Some (info_opCode record)
  ∧ (1 <= List.length (info_bytes record) <= 3)%nat
  ∧ len = Z.of_nat (List.length (info_bytes record)).
Proof.
  unfold disassembleAt.
  destruct (mem_read memory currentAddress) as [op|] eqn:Hop; [|done].
  pose proof (mem_read_Some _ _ _ Hop) as Hin.
  cbn [mbind option_bind numeric outcome_bind].
  destruct (getInstructionDefinition op) as [d|] eqn:Hd.
  - destruct (table_bytes _ _ Hd) as [_ Hb].
    destruct (operandBytes _ _ _ _) as [operands| |] eqn:Hoperands; [|done..].
    apply operandBytes_length in Hoperands.
    cbn [mbind outcome_bind].
    destruct (if bytes d =? 2 then _ else _) as [operandStr| |]; [|done..].
    cbn [mbind outcome_bind]. intros [= <- <-].
    cbn [info_address info_opCode info_bytes head List.length].
    rewrite Hoperands. do 4 (split; [done|]). lia.
  - cbn [hexOperand toString16_of mbind outcome_bind]. intros [= <- <-].
    cbn [info_address info_opCode info_bytes head List.length].
    do 4 (split; [done|]). lia.
Qed.

Lemma hexOperand_Some len v : hexOperand len (Some v) = Ok ("$" +:+ padStart len "0" (toString16 v)).
Proof. done. Qed.

(** Away from the last two cells, the body of the loop returns. *)
Lemma disassembleAt_total (memory : Memory) currentAddress :
  0 <= currentAddress → currentAddress + 2 < MEMORY_SIZE →
  ∃ record len, disassembleAt memory currentAddress = Ok (record, len).
Proof.
  intros H0 H2. unfold disassembleAt.
  rewrite (mem_read_inside memory currentAddress) by (unfold in_memory; lia).
  cbn [mbind option_bind numeric outcome_bind].
  destruct (getInstructionDefinition _) as [d|] eqn:Hd.
  - destruct (operandBytes_total memory currentAddress 1 (Z.to_nat (bytes d - 1)))
      as [operands ->]; [lia|].
    cbn [mbind outcome_bind].
    assert (∃ s, (if bytes d =? 2
                  then operandStr2 memory currentAddress (addressingMode d)
                  else if bytes d =? 3
                  then operandStr3 memory currentAddress (addressingMode d)
                  else Ok EmptyString) = Ok s) as [s ->].
    { unfold operandStr2, operandStr3.
      rewrite (mem_read_inside memory (currentAddress + 1)) by (unfold in_memory; lia).
      destruct (bytes d =? 2); [|destruct (bytes d =? 3)];
        [| |by eexists];
        destruct (addressingMode d) as [[]|];
        rewrite ?hexOperand_Some; cbn [mbind outcome_bind]; by eexists. }
    cbn [mbind outcome_bind]. by do 2 eexists.
  - cbn [hexOperand toString16_of mbind outcome_bind]. by do 2 eexists.
Qed.

Lemma disassembleFrom_tiles (memory : Memory) n currentAddress records :
  disassembleFrom memory n currentAddress = Ok records →
  (List.length records <= n)%nat ∧ tiles memory currentAddress records.
Proof.
  revert currentAddress records.
  induction n as [|n IH]; intros currentAddress records; cbn [disassembleFrom].
  - intros [= <-]. by cbn.
  - case_decide; [|intros [= <-]; cbn; split; [lia|done]].
    destruct (disassembleAt memory currentAddress) as [[record len]| |] eqn:Hat; [|done..].
    cbn [mbind outcome_bind].
    destruct (disassembleFrom memory n (currentAddress + len)) as [rest| |] eqn:Hrest; [|done..].
    cbn [mbind outcome_bind]. intros [= <-].
    destruct (disassembleAt_Ok _ _ _ _ Hat) as (? & ? & ? & ? & ? & Hlen).
    destruct (IH _ _ Hrest) as [? Htiles]. rewrite Hlen in Htiles.
    cbn [List.length tiles]. split; [lia|]. done.
Qed.

Lemma disassembleFrom_total (memory : Memory) n currentAddress :
  0 <= currentAddress → currentAddress + 3 * Z.of_nat n <= MEMORY_SIZE →
  ∃ records,
    disassembleFrom memory n currentAddress = Ok records ∧ List.length records = n.
Proof.
  revert currentAddress.
  induction n as [|n IH]; intros currentAddress H0 Hroom; cbn [disassembleFrom].
  - by exists [].
  - rewrite decide_True by lia.
    destruct (disassembleAt_total memory currentAddress) as (record & len & Hat); [lia..|].
    rewrite Hat. cbn [mbind outcome_bind].
    destruct (disassembleAt_Ok _ _ _ _ Hat) as (_ & _ & _ & _ & ? & Hlen).
    destruct (IH (currentAddress + len)) as (rest & -> & ?); [lia..|].
    cbn [mbind outcome_bind]. eexists. split; [done|]. cbn [List.length]. lia.
Qed.

End disassembler.

(** X16: the records [disassemble] returns tile the memory from the start
    address on.  There are at most [count] of them; the first one is at
    [startAddress]; each one lies inside memory, starts with the opcode
    found at its address, holds one to three bytes and is followed by a
    record at its address plus the number of its bytes. *)
Theorem X16_disassemble_tiles (memory : Memory) (startAddress count : Z)
    (records : list InstructionInfo) :
  disassemble memory startAddress count = Ok records →
  Z.of_nat (List.length records) <= Z.max 0 count
  ∧ tiles memory startAddress records.
Proof.
  unfold disassemble. intros H. apply disassembleFrom_tiles in H as [? ?].
  split; [lia|done].
Qed.

Lemma X16_disassemble_tiles_witness :
  let memory : Memory := <[0x0200 := 0xA9]> (<[0x0202 := 0x8D]> createMemory) in
  let records :=
    [mkInfo 0x0200 0xA9 "LDA" "#$00" [0xA9; 0] "LDA #$00";
     mkInfo 0x0202 0x8D "STA" "$0000" [0x8D; 0; 0] "STA $0000";
     mkInfo 0x0205 0x00 "BRK" "" [0] "BRK "] in
  disassemble memory 0x0200 3 = Ok records
  ∧ Z.of_nat (List.length records) <= Z.max 0 3
  ∧ tiles memory 0x0200 records.
Proof.
  intros memory records.
  assert (disassemble memory 0x0200 3 = Ok records) as H by (vm_compute; reflexivity).
  split; [exact H|].
  exact (X16_disassemble_tiles memory 0x0200 3 records H).
Defined.

(** X17: when [disassemble] returns and when it throws.  With a start
    address that is not negative and room for [count] three-byte
    instructions below the end of memory, it returns exactly [count]
    records (none for a count of zero or less); past the end of memory it
    returns no record; at a negative address, and at the last cell 0xFFFF
    when it holds a two-byte opcode whose mode is not Relative, formatting
    the missing operand throws. *)
Theorem X17_disassemble_returns_or_throws (memory : Memory) (startAddress count : Z) :
  (0 <= startAddress → startAddress + 3 * Z.max 0 count <= MEMORY_SIZE →
   ∃ records, disassemble memory startAddress count = Ok records
              ∧ Z.of_nat (List.length records) = Z.max 0 count)
  ∧ (MEMORY_SIZE <= startAddress → disassemble memory startAddress count = Ok [])
  ∧ (0 < count → startAddress < 0 → disassemble memory startAddress count = Throws)
  ∧ (0 < count → startAddress = 0xFFFF →
     ∀ op d, mem_read memory 0xFFFF = Some op →
             getInstructionDefinition op = Some d →
             bytes d = 2 → addressingMode d ≠ Some Mode.REL →
             disassemble memory startAddress count = Throws).
Proof.
  unfold disassemble. split; [|split; [|split]].
  - intros H0 Hroom.
    destruct (disassembleFrom_total memory (Z.to_nat count) startAddress) as (records & -> & ?);
      [lia..|].
    exists records. split; [done|lia].
  - intros Hpast. destruct (Z.to_nat count); cbn [disassembleFrom]; [done|].
    by rewrite decide_False by lia.
  - intros Hcount Hneg.
    replace (Z.to_nat count) with (S (Z.to_nat (count - 1))) by lia.
    cbn [disassembleFrom]. rewrite decide_True by (unfold MEMORY_SIZE; lia).
    unfold disassembleAt.
    rewrite mem_read_outside by (unfold in_memory; lia). done.
  - intros Hcount -> op d Hop Hd Hbytes Hmode.
    replace (Z.to_nat count) with (S (Z.to_nat (count - 1))) by lia.
    cbn [disassembleFrom]. rewrite decide_True by done.
    unfold disassembleAt. rewrite Hop. cbn [mbind option_bind]. rewrite Hd.
    cbn [numeric mbind outcome_bind]. rewrite Hbytes.
    change (Z.to_nat (2 - 1)) with 1%nat. cbn [operandBytes].
    rewrite decide_False by done. cbn [mbind outcome_bind Z.eqb Pos.eqb].
    unfold operandStr2.
    rewrite (mem_read_outside memory (0xFFFF + 1)) by (unfold in_memory, MEMORY_SIZE; lia).
    destruct (addressingMode d) as [[]|]; done.
Qed.

Lemma X17_disassemble_returns_or_throws_witness :
  let memory : Memory := <[0xFFFF := 0xA9]> createMemory in
  let d := mkInstruction 0xA9 "LDA" (Some Mode.IMM) Op.LDA 2 2 false false in
  (0 < 1 ∧ 0xFFFF = 0xFFFF ∧ mem_read memory 0xFFFF = Some 0xA9
   ∧ getInstructionDefinition 0xA9 = Some d ∧ bytes d = 2
   ∧ addressingMode d ≠ Some Mode.REL)
  ∧ disassemble memory 0xFFFF 1 = Throws.
Proof.
  intros memory d.
  assert (mem_read memory 0xFFFF = Some 0xA9) as Hop by (vm_compute; reflexivity).
  assert (getInstructionDefinition 0xA9 = Some d) as Hd by (vm_compute; reflexivity).
  assert (addressingMode d ≠ Some Mode.REL) as Hmode by discriminate.
  split; [exact (conj eq_refl (conj eq_refl (conj Hop (conj Hd (conj eq_refl Hmode)))))|].
  exact (proj2 (proj2 (proj2 (X17_disassemble_returns_or_throws memory 0xFFFF 1)))
           eq_refl eq_refl 0xA9 d Hop Hd eq_refl Hmode).
Defined.

(** ** The disassembler as a callback of the hook *)

Section hook_disassembler.

Context (session : Session).

Lemma operandBytes_on_session currentAddress j n :
  Hook.operandBytes currentAddress j n session
  = Hook.lift (operandBytes (s_memory session) currentAddress j n) session.
Proof.
  revert j. induction n as [|n IH]; intros j; [done|].
  cbn [Hook.operandBytes operandBytes]. unfold mbind at 1 2, Hook.M_bind.
  case_decide.
  - unfold mbind at 1, Hook.M_bind, Hook.readMemory at 1.
    destruct (mem_read (s_memory session) (currentAddress + j)) as [cell|]; [|done].
    cbn [numeric Hook.lift]. rewrite IH.
    by destruct (operandBytes (s_memory session) currentAddress (j + 1) n).
  - unfold mret at 1, Hook.M_ret. rewrite IH.
    by destruct (operandBytes (s_memory session) currentAddress (j + 1) n).
Qed.

Lemma operandStr2_on_session currentAddress mode :
  Hook.operandStr2 currentAddress mode session
  = Hook.lift (operandStr2 (s_memory session) currentAddress mode) session.
Proof.
  unfold Hook.operandStr2, operandStr2. unfold mbind at 1, Hook.M_bind, Hook.readMemory at 1.
  destruct mode as [[]|]; try done;
    unfold mbind at 1, Hook.M_bind;
    by destruct (hexOperand 2 (mem_read (s_memory session) (currentAddress + 1))).
Qed.

Lemma operandStr3_on_session currentAddress mode :
  Hook.operandStr3 currentAddress mode session
  = Hook.lift (operandStr3 (s_memory session) currentAddress mode) session.
Proof.
  unfold Hook.operandStr3, operandStr3.
  unfold mbind at 1 2, Hook.M_bind, Hook.readMemory at 1 2.
  destruct mode as [[]|]; done.
Qed.

Lemma disassembleAt_on_session currentAddress :
  Hook.disassembleAt currentAddress session
  = Hook.lift (disassembleAt (s_memory session) currentAddress) session.
Proof.
  unfold Hook.disassembleAt, disassembleAt.
  unfold mbind at 1, Hook.M_bind, Hook.readMemory at 1.
  destruct (mem_read (s_memory session) currentAddress ≫= getInstructionDefinition)
    as [d|].
  - unfold mbind at 1, Hook.M_bind.
    destruct (numeric (mem_read (s_memory session) currentAddress)) as [op| |]; [|done..].
    cbn [Hook.lift]. unfold mbind at 1, Hook.M_bind. rewrite operandBytes_on_session.
    destruct (operandBytes _ _ _ _) as [operands| |]; [|done..].
    cbn [Hook.lift mbind outcome_bind]. unfold mbind at 1, Hook.M_bind.
    assert ((if bytes d =? 2
             then Hook.operandStr2 currentAddress (addressingMode d)
             else if bytes d =? 3
             then Hook.operandStr3 currentAddress (addressingMode d)
             else mret EmptyString) session
            = Hook.lift (if bytes d =? 2
                         then operandStr2 (s_memory session) currentAddress (addressingMode d)
                         else if bytes d =? 3
                         then operandStr3 (s_memory session) currentAddress (addressingMode d)
                         else Ok EmptyString) session) as ->.
    { destruct (bytes d =? 2); [apply operandStr2_on_session|].
      destruct (bytes d =? 3); [apply operandStr3_on_session|done]. }
    by destruct (if bytes d =? 2 then _ else _).
  - unfold mbind at 1, Hook.M_bind.
    destruct (hexOperand 2 (mem_read (s_memory session) currentAddress)) as [text| |];
      [|done..].
    cbn [Hook.lift mbind outcome_bind]. unfold mbind at 1, Hook.M_bind.
    by destruct (numeric (mem_read (s_memory session) currentAddress)).
Qed.

End hook_disassembler.

Section hook_disassemble.

(** The callback returns what the walk over the cells of the memory gives,
    and the state as it found it. *)
Lemma disassembleFrom_on_session session n currentAddress :
  Hook.disassembleFrom n currentAddress session
  = Hook.lift (disassembleFrom (s_memory session) n currentAddress) session.
Proof.
  revert currentAddress. induction n as [|n IH]; intros currentAddress; [done|].
  cbn [Hook.disassembleFrom disassembleFrom]. case_decide; [|done].
  unfold mbind at 1, Hook.M_bind. rewrite disassembleAt_on_session.
  destruct (disassembleAt (s_memory session) currentAddress) as [[record len]| |]; [|done..].
  cbn [Hook.lift mbind outcome_bind]. unfold mbind at 1, Hook.M_bind. rewrite IH.
  by destruct (disassembleFrom (s_memory session) n (currentAddress + len)).
Qed.

Lemma disassemble_on_session session startAddress count :
  Hook.disassemble startAddress count session
  = Hook.lift (disassemble (s_memory session) startAddress count) session.
Proof. apply disassembleFrom_on_session. Qed.

End hook_disassemble.

(** C8: [disassemble], run as a callback on the state of the hook, has no
    side effect and is idempotent.  Whenever it returns, the state it
    leaves (processor, memory and log) is the state it found.  A second
    call right after the first gives the same records and the same state
    again.  Its records depend on the cells of the memory and on the two
    arguments only: on two states whose memories hold the same cells the
    outputs are the same, whatever the processor states and logs are.  It
    does return: with a start address that is not negative and room for
    [count] three-byte instructions below the end of memory it gives
    exactly [count] records.  When the walk is at an address whose opcode
    has no table entry, the record is the data placeholder [DB $xx] with
    mnemonic [???], no operand and the one byte, and the walk goes on one
    byte further. *)
Theorem C8_disassemble_pure_and_data_byte :
  (∀ (session session' : Session) (startAddress count : Z) records,
     Hook.disassemble startAddress count session = Ok (records, session') →
     session' = session)
  ∧ (∀ (session : Session) (startAddress count : Z),
       (first ← Hook.disassemble startAddress count;
        second ← Hook.disassemble startAddress count;
        mret (first, second)) session
       = (records ← Hook.disassemble startAddress count;
          mret (records, records)) session)
  ∧ (∀ (session1 session2 : Session) (startAddress count : Z),
       (∀ address,
          mem_read (s_memory session1) address = mem_read (s_memory session2) address) →
       fst <$> Hook.disassemble startAddress count session1
       = fst <$> Hook.disassemble startAddress count session2)
  ∧ (∀ (session : Session) (startAddress count : Z),
       0 <= startAddress →
       startAddress + 3 * Z.max 0 count <= MEMORY_SIZE →
       ∃ records,
         Hook.disassemble startAddress count session = Ok (records, session)
         ∧ Z.of_nat (List.length records) = Z.max 0 count)
  ∧ (∀ (session : Session) (startAddress count op : Z),
       0 < count →
       mem_read (s_memory session) startAddress = Some op →
       getInstructionDefinition op = None →
       let record :=
         mkInfo startAddress op "???" "" [op]
                ("DB $" +:+ padStart 2 "0" (toString16 op)) in
       Hook.disassemble startAddress 1 session = Ok ([record], session)
       ∧ Hook.disassemble startAddress count session
         = (rest ← Hook.disassemble (startAddress + 1) (count - 1);
            mret (record :: rest)) session
       ∧ (startAddress + 1 + 3 * (count - 1) <= MEMORY_SIZE →
          ∃ rest,
            Hook.disassemble (startAddress + 1) (count - 1) session = Ok (rest, session)
            ∧ Hook.disassemble startAddress count session = Ok (record :: rest, session)
            ∧ Z.of_nat (List.length rest) = count - 1)).
Proof.
  assert (∀ session startAddress count op,
            0 < count →
            mem_read (s_memory session) startAddress = Some op →
            getInstructionDefinition op = None →
            disassemble (s_memory session) startAddress count
            = (rest ← disassemble (s_memory session) (startAddress + 1) (count - 1);
               Ok (mkInfo startAddress op "???" "" [op]
                          ("DB $" +:+ padStart 2 "0" (toString16 op)) :: rest)))
    as Hdata.
  { intros session startAddress count op Hcount Hread Hdef. unfold disassemble.
    replace (Z.to_nat count) with (S (Z.to_nat (count - 1))) by lia.
    cbn [disassembleFrom].
    rewrite decide_True by (apply mem_read_Some in Hread; apply Hread).
    by rewrite (disassembleAt_unknown _ _ _ Hread Hdef). }
  split; [|split; [|split; [|split]]].
  - intros session session' startAddress count records.
    rewrite disassemble_on_session.
    destruct (disassemble (s_memory session) startAddress count); [|done..].
    cbn [Hook.lift]. by intros [= _ <-].
  - intros session startAddress count. unfold mbind at 1 3, Hook.M_bind.
    rewrite disassemble_on_session.
    destruct (disassemble (s_memory session) startAddress count) as [records| |] eqn:Hfirst;
      [|done..].
    cbn [Hook.lift]. unfold mbind at 1, Hook.M_bind.
    by rewrite disassemble_on_session, Hfirst.
  - intros session1 session2 startAddress count Hsame.
    rewrite !disassemble_on_session. unfold disassemble.
    rewrite (disassembleFrom_ext _ _ Hsame).
    by destruct (disassembleFrom (s_memory session2) _ _).
  - intros session startAddress count Hstart Hroom.
    rewrite disassemble_on_session. unfold disassemble.
    destruct (disassembleFrom_total (s_memory session) (Z.to_nat count) startAddress)
      as (records & -> & Hlen); [lia..|].
    exists records. split; [done|lia].
  - intros session startAddress count op Hcount Hread Hdef record.
    pose proof (mem_read_Some _ _ _ Hread) as [Hstart Hend].
    split; [|split].
    + rewrite disassemble_on_session, (Hdata _ _ 1 op) by (done || lia). done.
    + unfold mbind at 1, Hook.M_bind.
      rewrite !disassemble_on_session, (Hdata _ _ count op) by done.
      by destruct (disassemble (s_memory session) (startAddress + 1) (count - 1)).
    + intros Hroom.
      rewrite !disassemble_on_session, (Hdata _ _ count op) by done. unfold disassemble.
      destruct (disassembleFrom_total (s_memory session) (Z.to_nat (count - 1))
                  (startAddress + 1)) as (rest & -> & Hlen); [lia..|].
      exists rest. split; [done|]. split; [done|lia].
Qed.

Lemma C8_disassemble_pure_and_data_byte_witness :
  let memory : Memory := <[0x0200 := 0xFF]> (<[0x0201 := 0xEA]> createMemory) in
  let session := mkSession initialCPUState memory [] in
  let session' := mkSession (set_A 1 initialCPUState) (<[0x0202 := 0x00]> memory)
                            [mkLog "CPU Reset." info] in
  let records := [mkInfo 0x0200 0xFF "???" "" [0xFF] "DB $ff";
                  mkInfo 0x0201 0xEA "NOP" "" [0xEA] "NOP "] in
  ((∀ address, mem_read (s_memory session) address = mem_read (s_memory session') address)
   ∧ 0 < 2 ∧ mem_read (s_memory session) 0x0200 = Some 0xFF
   ∧ getInstructionDefinition 0xFF = None
   ∧ 0x0200 + 1 + 3 * (2 - 1) <= MEMORY_SIZE)
  ∧ Hook.disassemble 0x0200 2 session = Ok (records, session)
  ∧ fst <$> Hook.disassemble 0x0200 2 session' = Ok records.
Proof.
  intros memory session session' records.
  assert (∀ address, mem_read (s_memory session) address
                     = mem_read (s_memory session') address) as Hsame.
  { intros address. unfold session, session', s_memory, mem_read.
    case_decide; [|reflexivity].
    destruct (decide (address = 0x0202)) as [->|Hne]; [vm_compute; reflexivity|].
    rewrite lookup_insert_ne by (intros Heq; apply Hne; symmetry; exact Heq).
    reflexivity. }
  assert (0 < 2) as Hcount by reflexivity.
  assert (mem_read (s_memory session) 0x0200 = Some 0xFF) as Hread
    by (vm_compute; reflexivity).
  assert (getInstructionDefinition 0xFF = None) as Hdef by (vm_compute; reflexivity).
  assert (0x0200 + 1 + 3 * (2 - 1) <= MEMORY_SIZE) as Hroom by (vm_compute; discriminate).
  split; [exact (conj Hsame (conj Hcount (conj Hread (conj Hdef Hroom))))|].
  destruct C8_disassemble_pure_and_data_byte as (_ & _ & Hcells & _ & Hdata).
  destruct (Hdata session 0x0200 2 0xFF Hcount Hread Hdef) as (_ & _ & Hrest).
  destruct (Hrest Hroom) as (rest & Hwalk & Hall & _).
  assert (Hook.disassemble 0x0200 2 session = Ok (records, session)) as Hrecords.
  { rewrite Hall. vm_compute in Hwalk. injection Hwalk as <-. reflexivity. }
  split; [exact Hrecords|].
  rewrite <- (Hcells session session' 0x0200 2 Hsame), Hrecords. reflexivity.
Defined.

(** ** The memory accessors *)

(** X18: [readMemoryByte] and [writeMemoryByte] address the memory modulo
    65536 and store modulo 256.  A read always gives a number; after a
    write, a read at an address congruent to the written one gives the
    value modulo 256, and a read anywhere else gives what it gave before;
    a memory of bytes stays a memory of bytes. *)
Theorem X18_memory_accessors (memory : Memory) (address value other : Z) :
  readMemoryByte (writeMemoryByte memory address value) other
  = (if decide (other mod 65536 = address mod 65536) then Some (value mod 256)
     else readMemoryByte memory other)
  ∧ is_Some (readMemoryByte memory other)
  ∧ (wf_mem memory → wf_mem (writeMemoryByte memory address value)).
Proof.
  unfold readMemoryByte, writeMemoryByte. rewrite !land_0xFFFF, land_0xFF.
  assert (∀ a, in_memory (a mod 65536)) as Hin
    by (intros a; apply (Z.mod_pos_bound a 65536); lia).
  split; [|split].
  - case_decide as Heq.
    + by rewrite Heq, mem_read_write_eq, Z.mod_mod.
    + by rewrite mem_read_write_ne.
  - rewrite mem_read_inside by done. by eexists.
  - intros Hmem. by apply wf_mem_write.
Qed.

(** ** Loading a program *)

Section loader.

Lemma hexByte_spec upper b :
  byte b →
  (∃ x y, hexByte upper b = String x (String y EmptyString))
  ∧ parseInt16 (hexByte upper b) = Some b.
Proof.
  intros Hb.
  assert (forallb (λ b, forallb (λ u,
            match hexByte u b with
            | String _ (String _ EmptyString) => true
            | _ => false
            end && bool_decide (parseInt16 (hexByte u b) = Some b)) [true; false])
          (seqZ 0 256) = true) as Hall by (vm_compute; reflexivity).
  pose proof (byte_forallb _ Hall b Hb) as Hcheck. cbn [forallb] in Hcheck.
  assert (match hexByte upper b with
          | String _ (String _ EmptyString) => true
          | _ => false
          end && bool_decide (parseInt16 (hexByte upper b) = Some b) = true) as Hu.
  { destruct upper; [by apply andb_prop in Hcheck as [? _]|].
    apply andb_prop in Hcheck as [_ Hcheck]. by apply andb_prop in Hcheck as [? _]. }
  apply andb_prop in Hu as [Hshape Hparse]. apply bool_decide_eq_true_1 in Hparse.
  split; [|done].
  destruct (hexByte upper b) as [|x [|y [|]]]; try done. by exists x, y.
Qed.

Lemma substring_pair_0 x y rest :
  substring 0 2 (String x (String y rest)) = String x (String y EmptyString).
Proof. cbn. by destruct rest. Qed.

Lemma substring_pair_S x y rest i :
  substring (S i * 2) 2 (String x (String y rest)) = substring (i * 2) 2 rest.
Proof. done. Qed.

Lemma parseBytes_pair x y rest :
  parseBytes (String x (String y rest))
  = parseInt16 (String x (String y EmptyString)) :: parseBytes rest.
Proof.
  unfold parseBytes. cbn [String.length].
  change (S (S (String.length rest))) with (1 * 2 + String.length rest)%nat.
  rewrite Nat.div_add_l by done. cbn [Nat.add seq fmap list_fmap].
  rewrite substring_pair_0. f_equal.
  rewrite <- fmap_S_seq, <- !list_fmap_compose.
  apply list_fmap_ext. intros i n _. cbn [compose]. by rewrite substring_pair_S.
Qed.

Lemma parseBytes_hexDump upper bs :
  Forall byte bs → parseBytes (hexDump upper bs) = Some <$> bs.
Proof.
  induction 1 as [|b bs Hb _ IH]; [done|].
  cbn [hexDump foldr]. destruct (hexByte_spec upper b Hb) as [(x & y & Hxy) Hparse].
  rewrite Hxy in Hparse |- *.
  change (parseBytes (String x (String y (hexDump upper bs))) = Some <$> b :: bs).
  rewrite parseBytes_pair, Hparse. cbn [fmap list_fmap]. f_equal. exact IH.
Qed.

Lemma storeBytes_snoc loadAddr bytes b (memory : Memory) :
  storeBytes loadAddr (bytes ++ [b]) memory
  = if decide (loadAddr + Z.of_nat (List.length bytes) < MEMORY_SIZE)
    then mem_write (storeBytes loadAddr bytes memory)
                   (loadAddr + Z.of_nat (List.length bytes)) (js_int b)
    else storeBytes loadAddr bytes memory.
Proof.
  unfold storeBytes. rewrite imap_app, foldl_app. cbn [imap foldl].
  by rewrite Nat.add_0_r.
Qed.

Lemma storeBytes_outside loadAddr bytes (memory : Memory) address :
  ¬ (loadAddr <= address < loadAddr + Z.of_nat (List.length bytes)) →
  mem_read (storeBytes loadAddr bytes memory) address = mem_read memory address.
Proof.
  induction bytes as [|b bytes IH] using rev_ind; [done|].
  rewrite length_app, storeBytes_snoc. cbn [List.length]. intros Hout.
  case_decide; [rewrite mem_read_write_ne by lia|]; apply IH; lia.
Qed.

Lemma storeBytes_inside loadAddr bytes (memory : Memory) (i : nat) b :
  bytes !! i = Some b →
  in_memory (loadAddr + Z.of_nat i) →
  mem_read (storeBytes loadAddr bytes memory) (loadAddr + Z.of_nat i)
  = Some (js_int b mod 256).
Proof.
  revert i b. induction bytes as [|b' bytes IH] using rev_ind; [done|].
  intros i b Hi Hin. rewrite storeBytes_snoc.
  destruct (decide (i < List.length bytes)%nat) as [Hlt|Hge].
  - rewrite lookup_app_l in Hi by done.
    case_decide; [rewrite mem_read_write_ne by lia|]; by apply IH.
  - pose proof (lookup_lt_Some _ _ _ Hi) as Hlen.
    rewrite length_app in Hlen. cbn [List.length] in Hlen.
    assert (i = List.length bytes) as -> by lia.
    rewrite lookup_app_r, Nat.sub_diag in Hi by done. injection Hi as ->.
    rewrite decide_True by apply Hin. by apply mem_read_write_eq.
Qed.

Lemma storeBytes_wf loadAddr bytes (memory : Memory) :
  wf_mem memory → wf_mem (storeBytes loadAddr bytes memory).
Proof.
  intros Hmem. induction bytes as [|b bytes IH] using rev_ind; [done|].
  rewrite storeBytes_snoc. case_decide; [by apply wf_mem_write|done].
Qed.

Lemma existsb_NaN_Forall (bytes : list (option Z)) :
  existsb (λ byte, negb (bool_decide (is_Some byte))) bytes = false
  ↔ Forall is_Some bytes.
Proof.
  induction bytes as [|b bytes IH]; cbn [existsb]; [done|].
  rewrite orb_false_iff, IH, Forall_cons, negb_false_iff, bool_decide_eq_true. done.
Qed.

Lemma addLog_twice logs m1 t1 m2 t2 :
  addLog (addLog logs m1 t1) m2 t2 = mkLog m2 t2 :: mkLog m1 t1 :: take 98 logs.
Proof. unfold addLog. cbn [take]. by rewrite take_take. Qed.

(** What [loadProgram] does once every pair has parsed. *)
Lemma loadProgram_accepted session hexString loadAddr :
  Forall is_Some (parseBytes (removeWhiteSpace hexString)) →
  ∃ e1 e2,
    loadProgram session hexString loadAddr
    = mkSession (resetCPU (s_memory session)
                   (Some (default DEFAULT_PROGRAM_LOAD_ADDRESS loadAddr))).1
                (storeBytes (default DEFAULT_PROGRAM_LOAD_ADDRESS loadAddr)
                   (parseBytes (removeWhiteSpace hexString)) createMemory)
                (e1 :: e2 :: take 98 (s_logs session))
    ∧ type e1 = success ∧ type e2 = info.
Proof.
  intros Hall. unfold loadProgram.
  rewrite (proj2 (existsb_NaN_Forall _) Hall).
  destruct (resetCPU _ _) as [cpu entry] eqn:Hreset.
  rewrite addLog_twice. do 2 eexists. split; [reflexivity|]. split; [done|].
  unfold resetCPU in Hreset. by injection Hreset as _ <-.
Qed.

End loader.

(** X19: loading a hex dump puts the bytes back.  When the text, white
    space removed, is the two-digit dump of the bytes [bs] (in either
    case), [loadProgram] stores byte [i] at [loadAddr + i] wherever that
    lies inside memory, leaves 0 in every other cell, resets the processor
    with PC at the load address (for the load address 0: at the reset
    vector of the memory being replaced), and logs the reset and then the
    success. *)
Theorem X19_loadProgram_round_trip (session : Session) (hexString : string)
    (loadAddr : Z) (upper : bool) (bs : list Z) :
  Forall byte bs →
  removeWhiteSpace hexString = hexDump upper bs →
  let session' := loadProgram session hexString (Some loadAddr) in
  (∀ (i : nat) b, bs !! i = Some b → in_memory (loadAddr + Z.of_nat i) →
                  mem_read (s_memory session') (loadAddr + Z.of_nat i) = Some b)
  ∧ (∀ address, in_memory address →
                ¬ (loadAddr <= address < loadAddr + Z.of_nat (List.length bs)) →
                mem_read (s_memory session') address = Some 0)
  ∧ wf_mem (s_memory session')
  ∧ s_cpu session'
    = set_PC (if loadAddr =? 0 then reset_vector (s_memory session) else loadAddr)
             initialCPUState
  ∧ ∃ e1 e2, s_logs session' = e1 :: e2 :: take 98 (s_logs session)
             ∧ type e1 = success ∧ type e2 = info.
Proof.
  intros Hbs Hdump session'.
  assert (parseBytes (removeWhiteSpace hexString) = Some <$> bs) as Hparse
    by (rewrite Hdump; by apply parseBytes_hexDump).
  destruct (loadProgram_accepted session hexString (Some loadAddr))
    as (e1 & e2 & Hload & He1 & He2).
  { rewrite Hparse. apply Forall_fmap, Forall_true. intros b. by eexists. }
  subst session'. rewrite Hload, Hparse.
  cbn [s_memory s_cpu s_logs default].
  split; [|split; [|split; [|split]]].
  - intros i b Hi Hin.
    rewrite (storeBytes_inside loadAddr (Some <$> bs) createMemory i (Some b)); [|by rewrite list_lookup_fmap, Hi|done].
    cbn [js_int default]. f_equal. apply Z.mod_small.
    exact (proj1 (Forall_lookup _ _) Hbs i b Hi).
  - intros address Hin Hout.
    rewrite storeBytes_outside by (by rewrite length_fmap).
    by rewrite mem_read_inside.
  - apply storeBytes_wf, wf_mem_empty.
  - by rewrite resetCPU_spec.
  - by exists e1, e2.
Qed.

Lemma X19_loadProgram_round_trip_witness :
  let session := mkSession initialCPUState createMemory [] in
  let bs := [0xA9; 0x05; 0x8D] in
  (Forall byte bs ∧ removeWhiteSpace "a9 05 8d" = hexDump false bs)
  ∧ let session' := loadProgram session "a9 05 8d" (Some 0xFFFE) in
    mem_read (s_memory session') 0xFFFE = Some 0xA9
    ∧ mem_read (s_memory session') 0xFFFF = Some 0x05
    ∧ mem_read (s_memory session') 0 = Some 0
    ∧ PC (s_cpu session') = 0xFFFE.
Proof.
  intros session bs.
  assert (Forall byte bs) as Hbs by (repeat constructor; unfold byte; lia).
  assert (removeWhiteSpace "a9 05 8d" = hexDump false bs) as Hdump
    by (vm_compute; reflexivity).
  split; [exact (conj Hbs Hdump)|].
  destruct (X19_loadProgram_round_trip session "a9 05 8d" 0xFFFE false bs Hbs Hdump)
    as (Hin & Hout & _ & Hcpu & _).
  split; [exact (Hin 0%nat 0xA9 eq_refl ltac:(unfold in_memory, MEMORY_SIZE; lia))|].
  split; [exact (Hin 1%nat 0x05 eq_refl ltac:(unfold in_memory, MEMORY_SIZE; lia))|].
  split; [apply Hout; unfold in_memory, MEMORY_SIZE; cbn; lia|].
  rewrite Hcpu. reflexivity.
Defined.

(** X20: [loadProgram] either rejects the text or replaces the whole
    memory.  If some pair of characters does not parse, processor and
    memory are left as they were and one error is logged.  Otherwise the
    new memory holds one byte for each full pair (a last odd character is
    dropped), each parsed number modulo 256 at its place when that lies
    inside memory, and 0 everywhere else: nothing of the old memory
    survives. *)
Theorem X20_loadProgram_rejects_or_replaces (session : Session) (hexString : string)
    (loadAddr : option Z) :
  let bytes := parseBytes (removeWhiteSpace hexString) in
  let base := default DEFAULT_PROGRAM_LOAD_ADDRESS loadAddr in
  let session' := loadProgram session hexString loadAddr in
  List.length bytes = (String.length (removeWhiteSpace hexString) / 2)%nat
  ∧ (¬ Forall is_Some bytes →
     s_cpu session' = s_cpu session ∧ s_memory session' = s_memory session
     ∧ ∃ e, s_logs session' = e :: take 99 (s_logs session) ∧ type e = error)
  ∧ (Forall is_Some bytes →
     (∀ (i : nat) v, bytes !! i = Some (Some v) → in_memory (base + Z.of_nat i) →
                     mem_read (s_memory session') (base + Z.of_nat i) = Some (v mod 256))
     ∧ (∀ address, in_memory address →
                   ¬ (base <= address < base + Z.of_nat (List.length bytes)) →
                   mem_read (s_memory session') address = Some 0)
     ∧ wf_mem (s_memory session')).
Proof.
  intros bytes base session'. split; [|split].
  - unfold bytes, parseBytes. by rewrite !length_fmap, length_seq.
  - intros Hsome. subst session'. unfold loadProgram. fold bytes.
    destruct (existsb _ bytes) eqn:Hex.
    + cbn [s_cpu s_memory s_logs]. split; [done|]. split; [done|]. by eexists.
    + by apply existsb_NaN_Forall in Hex.
  - intros Hall.
    destruct (loadProgram_accepted session hexString loadAddr Hall)
      as (e1 & e2 & Hload & _).
    subst session'. rewrite Hload. cbn [s_memory]. fold bytes base.
    split; [|split].
    + intros i v Hi Hin. by rewrite (storeBytes_inside base bytes createMemory i (Some v)).
    + intros address Hin Hout. rewrite storeBytes_outside by done.
      by rewrite mem_read_inside.
    + apply storeBytes_wf, wf_mem_empty.
Qed.

Lemma X20_loadProgram_rejects_or_replaces_witness :
  let session := mkSession (set_A 7 initialCPUState) (<[0x10 := 9]> createMemory) [] in
  ¬ Forall is_Some (parseBytes (removeWhiteSpace "A9 G5"))
  ∧ s_cpu (loadProgram session "A9 G5" None) = s_cpu session
  ∧ s_memory (loadProgram session "A9 G5" None) = s_memory session.
Proof.
  intros session.
  assert (¬ Forall is_Some (parseBytes (removeWhiteSpace "A9 G5"))) as Hbad.
  { intros H. apply existsb_NaN_Forall in H. vm_compute in H. discriminate H. }
  split; [exact Hbad|].
  destruct (proj1 (proj2 (X20_loadProgram_rejects_or_replaces session "A9 G5" None)) Hbad)
    as (Hcpu & Hmem & _).
  split; [exact Hcpu|exact Hmem].
Defined.

Section pairs.

Lemma ascii_forallb (f : ascii → bool) :
  forallb f (ascii_of_nat <$> seq 0 256) = true → ∀ a, f a = true.
Proof.
  intros Hall a. rewrite forallb_forall in Hall. apply Hall.
  rewrite <- (ascii_nat_embedding a). apply in_map, in_seq.
  pose proof (nat_ascii_bounded a). lia.
Qed.

Lemma pair_check_all a b : pair_check a b = true.
Proof.
  assert (forallb (λ a, forallb (pair_check a) (ascii_of_nat <$> seq 0 256))
                  (ascii_of_nat <$> seq 0 256) = true) as Hall
    by (vm_compute; reflexivity).
  pose proof (ascii_forallb _ Hall a) as Ha. cbv beta in Ha.
  exact (ascii_forallb _ Ha b).
Qed.

Lemma digit_check_all a : digit_check a = true.
Proof. revert a. apply ascii_forallb. vm_compute. reflexivity. Qed.

Lemma hex_digit_plain a x :
  hexValue a = Some x →
  isWhiteSpace a = false ∧ Ascii.eqb a "-" = false ∧ Ascii.eqb a "+" = false
  ∧ 0 <= x < 16.
Proof.
  intros Ha. pose proof (digit_check_all a) as Hcheck.
  unfold digit_check in Hcheck. rewrite Ha in Hcheck.
  repeat (apply andb_prop in Hcheck as [Hcheck ?]).
  apply negb_true_iff in Hcheck.
  repeat match goal with H : negb _ = true |- _ => apply negb_true_iff in H end.
  repeat split; try done; lia.
Qed.

End pairs.

(** X21: which pairs of characters the loader takes for a byte.  A pair
    that starts with a digit of radix 16 always parses: to the two-digit
    number if the second character is a digit too, else to the first digit
    alone, so an invalid second character is not reported (the pairs [0x]
    and [0X] apart, which do not parse).  A sign followed by a digit parses
    to the signed digit.  Every other pair does not parse.  So a text such
    as a digit followed by a letter past [f] loads the digit as a byte. *)
Theorem X21_loader_pair_parsing (a b : ascii) :
  let pair := String a (String b EmptyString) in
  let prefix := a = "0"%char ∧ (b = "x"%char ∨ b = "X"%char) in
  (∀ x, hexValue a = Some x → ¬ prefix →
        parseInt16 pair = Some (match hexValue b with
                                | Some y => x * 16 + y
                                | None => x
                                end))
  ∧ (prefix → parseInt16 pair = None)
  ∧ (a = "-"%char → parseInt16 pair = (y ← hexValue b; Some (- y)))
  ∧ (a = "+"%char → parseInt16 pair = hexValue b)
  ∧ (hexValue a = None → isWhiteSpace a = false → a ≠ "-"%char → a ≠ "+"%char →
     parseInt16 pair = None)
  ∧ (∀ session x loadAddr,
       hexValue a = Some x → hexValue b = None → isWhiteSpace b = false →
       ¬ prefix → in_memory loadAddr →
       mem_read (s_memory (loadProgram session pair (Some loadAddr))) loadAddr = Some x).
Proof.
  intros pair prefix. pose proof (pair_check_all a b) as Hcheck.
  unfold pair_check in Hcheck. fold pair in Hcheck.
  assert (prefix ↔ Ascii.eqb a "0" && (Ascii.eqb b "x" || Ascii.eqb b "X") = true)
    as Hprefix.
  { unfold prefix. rewrite andb_true_iff, orb_true_iff, !Ascii.eqb_eq. done. }
  assert (∀ x, hexValue a = Some x → ¬ prefix →
               parseInt16 pair = Some (match hexValue b with
                                       | Some y => x * 16 + y
                                       | None => x
                                       end)) as Hdigit.
  { intros x Ha Hnot. destruct (hex_digit_plain a x Ha) as (Hws & Hminus & Hplus & _).
    rewrite Hws, Hminus, Hplus, Ha in Hcheck.
    destruct (_ && _); [by destruct Hnot; apply Hprefix|].
    by apply bool_decide_eq_true_1 in Hcheck. }
  split; [exact Hdigit|]. split; [|split; [|split; [|split]]].
  - intros Hp. apply Hprefix in Hp.
    assert (isWhiteSpace a = false) as Hws.
    { apply andb_prop in Hp as [Hp _]. apply Ascii.eqb_eq in Hp. by rewrite Hp. }
    rewrite Hws, Hp in Hcheck. by apply bool_decide_eq_true_1 in Hcheck.
  - intros Ha. rewrite Ha in Hcheck. cbn [isWhiteSpace] in Hcheck.
    by apply bool_decide_eq_true_1 in Hcheck.
  - intros Ha. rewrite Ha in Hcheck. by apply bool_decide_eq_true_1 in Hcheck.
  - intros Ha Hws Hminus Hplus. rewrite Hws, Ha in Hcheck.
    apply Ascii.eqb_neq in Hminus, Hplus. rewrite Hminus, Hplus in Hcheck.
    destruct (_ && _); by apply bool_decide_eq_true_1 in Hcheck.
  - intros session x loadAddr Ha Hb Hwsb Hnot Hin.
    destruct (hex_digit_plain a x Ha) as (Hws & _ & _ & Hx).
    assert (removeWhiteSpace pair = pair) as Hclean
      by (unfold pair; cbn [removeWhiteSpace]; by rewrite Hws, Hwsb).
    assert (parseBytes pair = [Some x]) as Hparse.
    { unfold pair. rewrite parseBytes_pair. fold pair.
      rewrite (Hdigit x Ha Hnot), Hb. done. }
    destruct (loadProgram_accepted session pair (Some loadAddr)) as (e1 & e2 & -> & _).
    { rewrite Hclean, Hparse. repeat constructor. by eexists. }
    cbn [s_memory default id]. rewrite Hclean, Hparse.
    pose proof (storeBytes_inside loadAddr [Some x] createMemory 0 (Some x) eq_refl)
      as Hstore.
    change (Z.of_nat 0) with 0 in Hstore. rewrite Z.add_0_r in Hstore.
    rewrite (Hstore Hin). cbn [js_int default]. f_equal. apply Z.mod_small. lia.
Qed.

Lemma X21_loader_pair_parsing_witness :
  let session := mkSession initialCPUState createMemory [] in
  (hexValue "5" = Some 5 ∧ hexValue "G" = None ∧ isWhiteSpace "G" = false
   ∧ ¬ ("5"%char = "0"%char ∧ ("G"%char = "x"%char ∨ "G"%char = "X"%char))
   ∧ in_memory 0x0200)
  ∧ mem_read (s_memory (loadProgram session "5G" (Some 0x0200))) 0x0200 = Some 5.
Proof.
  intros session.
  assert (¬ ("5"%char = "0"%char ∧ ("G"%char = "x"%char ∨ "G"%char = "X"%char))) as Hnot
    by (intros [Heq _]; discriminate Heq).
  assert (in_memory 0x0200) as Hin by (unfold in_memory, MEMORY_SIZE; lia).
  split; [exact (conj eq_refl (conj eq_refl (conj eq_refl (conj Hnot Hin))))|].
  exact (proj2 (proj2 (proj2 (proj2 (proj2 (X21_loader_pair_parsing "5" "G")))))
           session 5 0x0200 eq_refl eq_refl eq_refl Hnot Hin).
Defined.

(** ** Loads, stores, transfers and flags *)

Section registers.

Lemma set_A_same cpu : set_A (A cpu) cpu = cpu.
Proof. by destruct cpu. Qed.

Lemma assigns_flag_spec cpu (memory : Memory) n (v : bool) :
  0 <= n →
  assigns_flag cpu memory n v
    (Ok (set_P (if v then Z.lor (P cpu) (2 ^ n) else Z.land (P cpu) (Z.lnot (2 ^ n))) cpu,
         memory)).
Proof.
  intros Hn. eexists. split; [reflexivity|]. intros k Hk.
  rewrite testbit_assign by done. by rewrite (Z.eqb_sym n k).
Qed.

End registers.

(** X22: a store followed by a load of the same cell is a transfer.  For a
    cell inside memory and byte registers, STA then LDA leaves A as it was
    with Zero and Negative computed from it, and STA then LDX, STA then
    LDY, STX then LDA and STY then LDA leave the registers that TAX, TAY,
    TXA and TYA leave; the memory differs from the old one in the stored
    cell only. *)
Theorem X22_store_then_load_is_transfer (cpu : CPUState) (memory : Memory) (address : Z) :
  wf_cpu cpu → in_memory address →
  let seq2 (f g : ExecuteFunc) :=
    f cpu memory address ≫= λ '(cpu1, memory1), g cpu1 memory1 address in
  let transfer (t : ExecuteFunc) (v : Z) :=
    t cpu memory address ≫= λ '(cpu1, _), Ok (cpu1, mem_write memory address v) in
  seq2 STA LDA = Ok (setZN cpu (Some (A cpu)), mem_write memory address (A cpu))
  ∧ seq2 STA LDX = transfer TAX (A cpu)
  ∧ seq2 STA LDY = transfer TAY (A cpu)
  ∧ seq2 STX LDA = transfer TXA (X cpu)
  ∧ seq2 STY LDA = transfer TYA (Y cpu).
Proof.
  intros Hcpu Hin seq2 transfer. unfold seq2, transfer.
  unfold STA, STX, STY, LDA, LDX, LDY, TAX, TAY, TXA, TYA.
  cbn [mbind outcome_bind].
  rewrite !mem_read_write_byte by (done || apply Hcpu).
  cbn [numeric mbind outcome_bind]. rewrite set_A_same. done.
Qed.

Lemma X22_store_then_load_is_transfer_witness :
  let cpu := set_A 0x80 initialCPUState in
  (wf_cpu cpu ∧ in_memory 0x10)
  ∧ (STA cpu createMemory 0x10 ≫= λ '(cpu1, memory1), LDX cpu1 memory1 0x10)
    = (TAX cpu createMemory 0x10 ≫= λ '(cpu1, _), Ok (cpu1, mem_write createMemory 0x10 0x80)).
Proof.
  intros cpu.
  assert (wf_cpu cpu) as Hcpu
    by (constructor; vm_compute; (split; [discriminate|reflexivity])).
  assert (in_memory 0x10) as Hin by (unfold in_memory, MEMORY_SIZE; lia).
  split; [exact (conj Hcpu Hin)|].
  exact (proj1 (proj2 (X22_store_then_load_is_transfer cpu createMemory 0x10 Hcpu Hin))).
Defined.

(** X23: each flag instruction changes its one bit of P and nothing else:
    CLC and SEC bit 0 (Carry), CLI and SEI bit 2 (Interrupt Disable), CLD
    and SED bit 3 (Decimal), CLV bit 6 (Overflow); registers, the other
    bits of P and the memory are as before. *)
Theorem X23_flag_instructions (cpu : CPUState) (memory : Memory) (address : Z) :
  assigns_flag cpu memory 0 false (CLC cpu memory address)
  ∧ assigns_flag cpu memory 0 true (SEC cpu memory address)
  ∧ assigns_flag cpu memory 2 false (CLI cpu memory address)
  ∧ assigns_flag cpu memory 2 true (SEI cpu memory address)
  ∧ assigns_flag cpu memory 3 false (CLD cpu memory address)
  ∧ assigns_flag cpu memory 3 true (SED cpu memory address)
  ∧ assigns_flag cpu memory 6 false (CLV cpu memory address).
Proof.
  repeat split.
  - exact (assigns_flag_spec cpu memory 0 false ltac:(lia)).
  - exact (assigns_flag_spec cpu memory 0 true ltac:(lia)).
  - exact (assigns_flag_spec cpu memory 2 false ltac:(lia)).
  - exact (assigns_flag_spec cpu memory 2 true ltac:(lia)).
  - exact (assigns_flag_spec cpu memory 3 false ltac:(lia)).
  - exact (assigns_flag_spec cpu memory 3 true ltac:(lia)).
  - exact (assigns_flag_spec cpu memory 6 false ltac:(lia)).
Qed.

(** X24: BIT tests without changing anything but three flags.  With the
    byte [m] at the address, BIT leaves registers and memory as they were,
    sets Zero iff [A land m] is 0, copies bit 7 of [m] to Negative and bit 6
    to Overflow, and keeps the other bits of P. *)
Theorem X24_BIT_flags (cpu : CPUState) (memory : Memory) (address m : Z) :
  mem_read memory address = Some m →
  ∃ p', BIT cpu memory address = Ok (set_P p' cpu, memory)
        ∧ Z.testbit p' 1 = (Z.land (A cpu) m =? 0)
        ∧ Z.testbit p' 7 = Z.testbit m 7
        ∧ Z.testbit p' 6 = Z.testbit m 6
        ∧ ∀ k, 0 <= k → k ≠ 1 → k ≠ 6 → k ≠ 7 → Z.testbit p' k = Z.testbit (P cpu) k.
Proof.
  intros Hread. unfold BIT. rewrite Hread. cbn [js_int default P set_P].
  eexists. split; [reflexivity|].
  change Flag.Z with (2 ^ 1). change Flag.N with (2 ^ 7). change Flag.V with (2 ^ 6).
  rewrite !truthy_land_pow2 by lia. rewrite (Z.land_comm m).
  split; [|split; [|split]].
  - by rewrite !testbit_assign by lia.
  - by rewrite !testbit_assign by lia.
  - by rewrite !testbit_assign by lia.
  - intros k Hk H1 H6 H7. rewrite !testbit_assign by lia.
    by rewrite (proj2 (Z.eqb_neq 6 k)), (proj2 (Z.eqb_neq 7 k)), (proj2 (Z.eqb_neq 1 k)).
Qed.

Lemma X24_BIT_flags_witness :
  let cpu := set_A 0x0F initialCPUState in
  let memory : Memory := <[0x10 := 0xC0]> createMemory in
  mem_read memory 0x10 = Some 0xC0
  ∧ ∃ p', BIT cpu memory 0x10 = Ok (set_P p' cpu, memory)
          ∧ Z.testbit p' 1 = true ∧ Z.testbit p' 7 = true ∧ Z.testbit p' 6 = true.
Proof.
  intros cpu memory.
  assert (mem_read memory 0x10 = Some 0xC0) as Hread by (vm_compute; reflexivity).
  split; [exact Hread|].
  destruct (X24_BIT_flags cpu memory 0x10 0xC0 Hread) as (p' & Hbit & HZ & HN & HV & _).
  exists p'. split; [exact Hbit|]. split; [exact HZ|]. split; [exact HN|exact HV].
Defined.

(** ** The disassembler and the processor agree *)

Section agreement.

Lemma disassembleAt_known (memory : Memory) currentAddress op d record len :
  mem_read memory currentAddress = Some op →
  getInstructionDefinition op = Some d →
  disassembleAt memory currentAddress = Ok (record, len) →
  len = bytes d ∧ info_mnemonic record = mnemonic d.
Proof.
  intros Hop Hd. unfold disassembleAt. rewrite Hop.
  cbn [mbind option_bind numeric outcome_bind]. rewrite Hd.
  destruct (operandBytes _ _ _ _) as [operands| |]; [|done..].
  cbn [mbind outcome_bind].
  destruct (if bytes d =? 2 then _ else _) as [operandStr| |]; [|done..].
  cbn [mbind outcome_bind]. by intros [= <- <-].
Qed.

End agreement.

(** X25: the processor goes where the disassembly says the next
    instruction is.  On a well-formed running state whose opcode has the
    table entry [d], not a branch, jump, call, return or BRK, and with PC
    at least six cells below the end of memory, [disassemble] from PC
    returns two records for a count of 2, the first at PC with the
    mnemonic of [d], and [step] leaves PC at the address of the second. *)
Theorem X25_step_follows_disassembly (cpu : CPUState) (memory : Memory)
    (op : Z) (d : InstructionDefinition) :
  wf_cpu cpu → wf_mem memory → halted cpu = false →
  mem_read memory (PC cpu) = Some op →
  getInstructionDefinition op = Some d →
  control_flow (execute d) = false →
  PC cpu + 6 <= MEMORY_SIZE →
  ∃ r1 r2 cpu' memory',
    disassemble memory (PC cpu) 2 = Ok [r1; r2]
    ∧ step cpu memory = Ok (cpu', memory', [])
    ∧ info_address r1 = PC cpu
    ∧ info_mnemonic r1 = mnemonic d
    ∧ PC cpu' = info_address r2.
Proof.
  intros Hcpu Hmem Hrun Hop Hd Hflow Hroom.
  pose proof (wf_PC _ Hcpu) as Hpc.
  destruct (disassembleFrom_total memory 2 (PC cpu)) as (records & Hdis & Hlen);
    [apply Hpc|lia|].
  destruct records as [|r1 [|r2 [|]]]; try done.
  pose proof Hdis as Hdis'. cbn [disassembleFrom] in Hdis'.
  rewrite decide_True in Hdis' by apply Hpc.
  destruct (disassembleAt memory (PC cpu)) as [[record len]| |] eqn:Hat; [|done..].
  cbn [mbind outcome_bind] in Hdis'.
  destruct (disassembleAt_known _ _ _ _ _ _ Hop Hd Hat) as [-> Hmn].
  destruct (disassembleAt_Ok _ _ _ _ Hat) as (Haddr & _).
  destruct (table_bytes _ _ Hd) as [_ Hbytes].
  rewrite decide_True in Hdis' by lia.
  destruct (disassembleAt memory (PC cpu + bytes d)) as [[record2 len2]| |] eqn:Hat2; [|done..].
  cbn [mbind outcome_bind] in Hdis'. injection Hdis' as <- <-.
  destruct (disassembleAt_Ok _ _ _ _ Hat2) as (Haddr2 & _).
  rewrite (opcode_at _ _ _ Hcpu Hop) in Hd.
  destruct (step_running cpu memory d Hcpu Hmem Hrun Hd)
    as (a & crossed & cpu2 & memory2 & _ & _ & _ & _ & _ & Hpc2 & _ & _ & _ & Hstep).
  exists record, record2. do 2 eexists.
  split; [exact Hdis|]. split; [exact Hstep|]. split; [done|]. split; [done|].
  cbn [PC set_cycles]. rewrite (Hpc2 Hflow), Haddr2, land_0xFFFF.
  apply Z.mod_small. unfold word in Hpc. unfold MEMORY_SIZE in Hroom. lia.
Qed.

Lemma X25_step_follows_disassembly_witness :
  let cpu := initialCPUState in
  let memory : Memory := <[0x0200 := 0xBD]> createMemory in
  let d := mkInstruction 0xBD "LDA" (Some Mode.ABSX) Op.LDA 3 4 true false in
  (wf_cpu cpu ∧ wf_mem memory ∧ halted cpu = false
   ∧ mem_read memory (PC cpu) = Some 0xBD
   ∧ getInstructionDefinition 0xBD = Some d
   ∧ control_flow (execute d) = false
   ∧ PC cpu + 6 <= MEMORY_SIZE)
  ∧ ∃ r1 r2 cpu' memory',
      disassemble memory (PC cpu) 2 = Ok [r1; r2]
      ∧ step cpu memory = Ok (cpu', memory', [])
      ∧ info_address r1 = 0x0200
      ∧ info_mnemonic r1 = "LDA"
      ∧ PC cpu' = info_address r2.
Proof.
  intros cpu memory d.
  assert (wf_mem memory) as Hmem.
  { apply map_Forall_insert_2; [unfold byte; lia|apply map_Forall_empty]. }
  assert (mem_read memory (PC cpu) = Some 0xBD) as Hop by (vm_compute; reflexivity).
  assert (getInstructionDefinition 0xBD = Some d) as Hd by (vm_compute; reflexivity).
  assert (PC cpu + 6 <= MEMORY_SIZE) as Hroom by (vm_compute; discriminate).
  split; [exact (conj wf_initial (conj Hmem (conj eq_refl (conj Hop
                   (conj Hd (conj eq_refl Hroom))))))|].
  exact (X25_step_follows_disassembly cpu memory 0xBD d wf_initial Hmem eq_refl
           Hop Hd eq_refl Hroom).
Defined.

(** ** Branches *)

Section branches.

Lemma run_branch op cpu (memory : Memory) address c :
  branch_condition op (P cpu) = Some c →
  run op cpu memory address = Ok (genericBranch cpu memory address c, memory)
  ∧ is_branch op = true.
Proof.
  destruct op; cbn [branch_condition]; try done; intros [= <-];
    cbn [run is_branch]; (split; [|done]);
    unfold BEQ, BNE, BCS, BCC, BMI, BPL, BVS, BVC.
  - change Flag.Z with (2 ^ 1). by rewrite land_pow2_eqb_0, negb_involutive by lia.
  - change Flag.Z with (2 ^ 1). by rewrite land_pow2_eqb_0 by lia.
  - change Flag.C with (2 ^ 0). by rewrite land_pow2_eqb_0, negb_involutive by lia.
  - change Flag.C with (2 ^ 0). by rewrite land_pow2_eqb_0 by lia.
  - change Flag.N with (2 ^ 7). by rewrite land_pow2_eqb_0, negb_involutive by lia.
  - change Flag.N with (2 ^ 7). by rewrite land_pow2_eqb_0 by lia.
  - change Flag.V with (2 ^ 6). by rewrite land_pow2_eqb_0, negb_involutive by lia.
  - change Flag.V with (2 ^ 6). by rewrite land_pow2_eqb_0 by lia.
Qed.

End branches.

(** X26: which flag a branch tests, and what a branch costs.  BEQ and BNE
    test Zero, BCS and BCC Carry, BMI and BPL Negative, BVS and BVC
    Overflow, the first of each pair for set, the second for clear.  On a
    well-formed running state whose cycle counter is in the range where
    the sums of the source are exact (within [2 ^ 53], with room for the 9
    cycles a step can add), a step of a branch whose condition fails only
    moves PC past the two bytes of the instruction and adds the base
    cycles; a step of a branch whose condition holds adds one or two cycles
    more; neither touches registers, status or memory, and the counter is
    still in the exact range afterwards. *)
Theorem X26_branch_conditions (cpu : CPUState) (memory : Memory)
    (op : Z) (d : InstructionDefinition) (taken : bool) :
  wf_cpu cpu → wf_mem memory → halted cpu = false →
  cycles_exact cpu 9 →
  mem_read memory (PC cpu) = Some op →
  getInstructionDefinition op = Some d →
  branch_condition (execute d) (P cpu) = Some taken →
  ∃ cpu',
    step cpu memory = Ok (cpu', memory, [])
    ∧ A cpu' = A cpu ∧ X cpu' = X cpu ∧ Y cpu' = Y cpu ∧ SP cpu' = SP cpu
    ∧ P cpu' = P cpu ∧ halted cpu' = false
    ∧ (taken = false →
       cpu' = set_cycles (cycles cpu + baseCycles d)
                (set_PC ((PC cpu + 2) mod 65536) cpu))
    ∧ (taken = true →
       cycles cpu + baseCycles d + 1 <= cycles cpu' <= cycles cpu + baseCycles d + 2)
    ∧ cycles_exact cpu' 0.
Proof.
  intros Hcpu Hmem Hrun [Hlow Hhigh] Hop Hd Hcond.
  pose proof (table_entries_consistent _ _ Hd) as Hcons.
  unfold entry_consistent in Hcons.
  repeat (apply andb_prop in Hcons as [Hcons ?]).
  match goal with H : (bytes d =? _) = true |- _ => apply Z.eqb_eq in H; rename H into Hbytes end.
  match goal with H : Bool.eqb (is_branch _) _ = true |- _ =>
    apply eqb_prop in H; rename H into Hmode end.
  rewrite (opcode_at _ _ _ Hcpu Hop) in Hd.
  destruct (step_running cpu memory d Hcpu Hmem Hrun Hd)
    as (a & crossed & cpu2 & memory2 & Hexec & _ & _ & _ & _ & _ & _ & _ & Hcross & ->).
  set (cpu1 := set_PC (Z.land (PC cpu + bytes d) 0xFFFF) cpu) in *.
  destruct (run_branch (execute d) cpu1 memory a taken Hcond) as [Hbranch Hb].
  rewrite Hbranch in Hexec. injection Hexec as <- <-.
  rewrite Hb in Hmode. symmetry in Hmode. apply bool_decide_eq_true_1 in Hmode.
  rewrite Hmode in Hbytes. cbn [operand_size] in Hbytes.
  rewrite (Hcross Hb), andb_false_r. cbn [bit]. rewrite Z.add_0_r.
  destruct (genericBranch_frame cpu1 memory a taken)
    as (cpu2 & -> & Hh & HA & HX & HY & HSP & HP & Hcyc & Hnot & Htaken).
  eexists. split; [reflexivity|].
  cbn [A X Y SP P halted cycles set_cycles].
  rewrite HA, HX, HY, HSP, HP, Hh. unfold cpu1 at 1 2 3 4 5 6.
  cbn [A X Y SP P halted set_PC]. do 6 (split; [done|]).
  assert (cycles cpu1 = cycles cpu) as Hsame by done.
  split; [|split].
  - intros ->. rewrite (Hnot eq_refl). unfold cpu1. rewrite Hbytes.
    by rewrite land_0xFFFF.
  - intros ->. specialize (Htaken eq_refl). lia.
  - unfold cycles_exact. cbn [cycles set_cycles]. lia.
Qed.

Lemma X26_branch_conditions_witness :
  let cpu := initialCPUState in
  let memory : Memory := <[0x0200 := 0xF0]> createMemory in
  let d := mkInstruction 0xF0 "BEQ" (Some Mode.REL) Op.BEQ 2 2 false true in
  (wf_cpu cpu ∧ wf_mem memory ∧ halted cpu = false
   ∧ cycles_exact cpu 9
   ∧ mem_read memory (PC cpu) = Some 0xF0
   ∧ getInstructionDefinition 0xF0 = Some d
   ∧ branch_condition (execute d) (P cpu) = Some false)
  ∧ step cpu memory = Ok (set_cycles 2 (set_PC 0x0202 cpu), memory, []).
Proof.
  intros cpu memory d.
  assert (wf_mem memory) as Hmem.
  { apply map_Forall_insert_2; [unfold byte; lia|apply map_Forall_empty]. }
  assert (cycles_exact cpu 9) as Hexact by (unfold cycles_exact; cbn; lia).
  assert (mem_read memory (PC cpu) = Some 0xF0) as Hop by (vm_compute; reflexivity).
  assert (getInstructionDefinition 0xF0 = Some d) as Hd by (vm_compute; reflexivity).
  assert (branch_condition (execute d) (P cpu) = Some false) as Hcond
    by (vm_compute; reflexivity).
  split; [exact (conj wf_initial (conj Hmem (conj eq_refl (conj Hexact
                   (conj Hop (conj Hd Hcond))))))|].
  destruct (X26_branch_conditions cpu memory 0xF0 d false wf_initial Hmem eq_refl
              Hexact Hop Hd Hcond) as (cpu' & Hstep & _ & _ & _ & _ & _ & _ & Hnot & _).
  rewrite Hstep, (Hnot eq_refl). reflexivity.
Defined.
